(** * Color Run: the per-frame simulation of [src/components/GameCanvas.tsx]

    A shallow embedding of the game engine that lives inside the React
    component [GameCanvas]: the jump handler, the collision classifier, the
    frame callback [gameLoop] with its obstacle and power-up passes, the
    spawners and the reset.

    Numbers.  Every JavaScript [number] that only ever holds an integer
    (score, combo, timers, lives, jump count, level, frame counters) is a
    [Z].  Coordinates, velocities and the results of [Math.random()] are
    exact rationals [Q]: the comparisons and the arithmetic are the ones of
    the source, the rounding of IEEE doubles is not modelled.

    Left out of the world.  Canvas drawing, [Date.now()] blinking and the
    particle list: particles are pushed by [createParticles] and aged by
    [gameLoop], and no other code reads them.  The calls of [Math.random()]
    made for particles are left out with them.  The ageing pass of the
    particle list is modelled on its own, on a list of its own. *)

From Stdlib Require Import ZArith QArith Qround Qminmax List String Bool Lia Lqa.
Import ListNotations.

Open Scope Z_scope.

(** ** JavaScript comparisons on rationals *)

Definition Qlt_bool (a b : Q) : bool := negb (Qle_bool b a).
Definition Qgt_bool (a b : Q) : bool := Qlt_bool b a.

Notation "a <? b" := (Qlt_bool a b) : Q_scope.
Notation "a >? b" := (Qgt_bool a b) : Q_scope.

(** [arr[i]] on an array of strings; out of range JavaScript yields
    [undefined]. *)
Definition undefined : string := "undefined".

Definition array_get (arr : list string) (i : Z) : string :=
  if i <? 0 then undefined else nth (Z.to_nat i) arr undefined.

(** ** GAME_CONFIG (lines 6-40) *)

Module GAME_CONFIG.
Definition CANVAS_WIDTH : Q := 400.
Definition CANVAS_HEIGHT : Q := 600.
Definition COLORS : list string :=
    ["#ff4757"; "#2ed573"; "#ffa502"; "#3742fa"; "#ff6b9d"]%string.

Module PLAYER.
Definition X : Q := 100.
Definition Y : Q := 300.
Definition RADIUS : Q := 20.
Definition GRAVITY : Q := 0.6.
Definition JUMP_POWER : Q := -12.
End PLAYER.

Module OBSTACLE.
Definition WIDTH : Q := 30.
Definition HEIGHT : Q := 60.
Definition BASE_SPEED : Q := 3.
Definition SPAWN_INTERVAL : Z := 70.
End OBSTACLE.

Module POWERUP.
Definition SPAWN_CHANCE : Q := 0.15.
Definition DURATION : Z := 300.
Definition LIFE_SPAWN_CHANCE : Q := 0.05.
End POWERUP.

Definition COLOR_CHANGE_INTERVAL : Z := 180.
Definition SPEED_INCREASE_RATE : Q := 0.08.
Definition MAX_SPEED_MULTIPLIER : Q := 2.5.
Definition COMBO_TIMEOUT : Z := 600.
End GAME_CONFIG.

(** ** Data model (lines 42-96) *)

Module Player.
Record t : Type := mk {
    x : Q;
    y : Q;
    radius : Q;
    vy : Q;
    color : string;
    isJumping : bool;
    jumpCount : Z;
    shield : Z;
    jumpBoost : Z;
    lives : Z;
    invincible : Z
  }.

Definition set_y (v : Q) (p : t) : t :=
    mk (x p) v (radius p) (vy p) (color p) (isJumping p) (jumpCount p)
       (shield p) (jumpBoost p) (lives p) (invincible p).
Definition set_vy (v : Q) (p : t) : t :=
    mk (x p) (y p) (radius p) v (color p) (isJumping p) (jumpCount p)
       (shield p) (jumpBoost p) (lives p) (invincible p).
Definition set_color (v : string) (p : t) : t :=
    mk (x p) (y p) (radius p) (vy p) v (isJumping p) (jumpCount p)
       (shield p) (jumpBoost p) (lives p) (invincible p).
Definition set_isJumping (v : bool) (p : t) : t :=
    mk (x p) (y p) (radius p) (vy p) (color p) v (jumpCount p)
       (shield p) (jumpBoost p) (lives p) (invincible p).
Definition set_jumpCount (v : Z) (p : t) : t :=
    mk (x p) (y p) (radius p) (vy p) (color p) (isJumping p) v
       (shield p) (jumpBoost p) (lives p) (invincible p).
Definition set_shield (v : Z) (p : t) : t :=
    mk (x p) (y p) (radius p) (vy p) (color p) (isJumping p) (jumpCount p)
       v (jumpBoost p) (lives p) (invincible p).
Definition set_jumpBoost (v : Z) (p : t) : t :=
    mk (x p) (y p) (radius p) (vy p) (color p) (isJumping p) (jumpCount p)
       (shield p) v (lives p) (invincible p).
Definition set_lives (v : Z) (p : t) : t :=
    mk (x p) (y p) (radius p) (vy p) (color p) (isJumping p) (jumpCount p)
       (shield p) (jumpBoost p) v (invincible p).
Definition set_invincible (v : Z) (p : t) : t :=
    mk (x p) (y p) (radius p) (vy p) (color p) (isJumping p) (jumpCount p)
       (shield p) (jumpBoost p) (lives p) v.
End Player.

Inductive ObstacleType : Type := normal | bonus | tall.

Definition ObstacleType_eqb (a b : ObstacleType) : bool :=
  match a, b with
  | normal, normal | bonus, bonus | tall, tall => true
  | _, _ => false
  end.

Module Obstacle.
Record t : Type := mk {
    x : Q;
    color : string;
    passed : bool;
    type : ObstacleType;
    colorChanged : bool
  }.

Definition set_x (v : Q) (o : t) : t :=
    mk v (color o) (passed o) (type o) (colorChanged o).
Definition set_passed (v : bool) (o : t) : t :=
    mk (x o) (color o) v (type o) (colorChanged o).
Definition set_colorChanged (v : bool) (o : t) : t :=
    mk (x o) (color o) (passed o) (type o) v.
End Obstacle.

Inductive PowerUpType : Type := shieldItem | bonusItem | lifeItem | jumpBoostItem.

Module PowerUp.
Record t : Type := mk {
    x : Q;
    y : Q;
    type : PowerUpType;
    collected : bool
  }.

Definition set_x (v : Q) (u : t) : t := mk v (y u) (type u) (collected u).
Definition set_collected (v : bool) (u : t) : t := mk (x u) (y u) (type u) v.
End PowerUp.

Module GameState.
Record t : Type := mk {
    player : Player.t;
    obstacles : list Obstacle.t;
    powerUps : list PowerUp.t;
    score : Z;
    combo : Z;
    comboTimer : Z;
    bestScore : Z;
    level : Z;
    isGameOver : bool;
    colorChangeOnNextObstacle : bool;
    backgroundOffset : Q;
    gameStarted : bool
  }.

Definition set_player (v : Player.t) (g : t) : t :=
    mk v (obstacles g) (powerUps g) (score g) (combo g) (comboTimer g)
       (bestScore g) (level g) (isGameOver g) (colorChangeOnNextObstacle g)
       (backgroundOffset g) (gameStarted g).
Definition set_obstacles (v : list Obstacle.t) (g : t) : t :=
    mk (player g) v (powerUps g) (score g) (combo g) (comboTimer g)
       (bestScore g) (level g) (isGameOver g) (colorChangeOnNextObstacle g)
       (backgroundOffset g) (gameStarted g).
Definition set_powerUps (v : list PowerUp.t) (g : t) : t :=
    mk (player g) (obstacles g) v (score g) (combo g) (comboTimer g)
       (bestScore g) (level g) (isGameOver g) (colorChangeOnNextObstacle g)
       (backgroundOffset g) (gameStarted g).
Definition set_score (v : Z) (g : t) : t :=
    mk (player g) (obstacles g) (powerUps g) v (combo g) (comboTimer g)
       (bestScore g) (level g) (isGameOver g) (colorChangeOnNextObstacle g)
       (backgroundOffset g) (gameStarted g).
Definition set_combo (v : Z) (g : t) : t :=
    mk (player g) (obstacles g) (powerUps g) (score g) v (comboTimer g)
       (bestScore g) (level g) (isGameOver g) (colorChangeOnNextObstacle g)
       (backgroundOffset g) (gameStarted g).
Definition set_comboTimer (v : Z) (g : t) : t :=
    mk (player g) (obstacles g) (powerUps g) (score g) (combo g) v
       (bestScore g) (level g) (isGameOver g) (colorChangeOnNextObstacle g)
       (backgroundOffset g) (gameStarted g).
Definition set_bestScore (v : Z) (g : t) : t :=
    mk (player g) (obstacles g) (powerUps g) (score g) (combo g) (comboTimer g)
       v (level g) (isGameOver g) (colorChangeOnNextObstacle g)
       (backgroundOffset g) (gameStarted g).
Definition set_level (v : Z) (g : t) : t :=
    mk (player g) (obstacles g) (powerUps g) (score g) (combo g) (comboTimer g)
       (bestScore g) v (isGameOver g) (colorChangeOnNextObstacle g)
       (backgroundOffset g) (gameStarted g).
Definition set_isGameOver (v : bool) (g : t) : t :=
    mk (player g) (obstacles g) (powerUps g) (score g) (combo g) (comboTimer g)
       (bestScore g) (level g) v (colorChangeOnNextObstacle g)
       (backgroundOffset g) (gameStarted g).
Definition set_colorChangeOnNextObstacle (v : bool) (g : t) : t :=
    mk (player g) (obstacles g) (powerUps g) (score g) (combo g) (comboTimer g)
       (bestScore g) (level g) (isGameOver g) v
       (backgroundOffset g) (gameStarted g).
Definition set_backgroundOffset (v : Q) (g : t) : t :=
    mk (player g) (obstacles g) (powerUps g) (score g) (combo g) (comboTimer g)
       (bestScore g) (level g) (isGameOver g) (colorChangeOnNextObstacle g)
       v (gameStarted g).
Definition set_gameStarted (v : bool) (g : t) : t :=
    mk (player g) (obstacles g) (powerUps g) (score g) (combo g) (comboTimer g)
       (bestScore g) (level g) (isGameOver g) (colorChangeOnNextObstacle g)
       (backgroundOffset g) v.
End GameState.

(** [timersRef.current] (line 102). *)
Module Timers.
Record t : Type := mk {
    spawn : Z;
    colorChange : Z;
    powerUpSpawn : Z
  }.

Definition set_spawn (v : Z) (m : t) : t := mk v (colorChange m) (powerUpSpawn m).
Definition set_powerUpSpawn (v : Z) (m : t) : t := mk (spawn m) (colorChange m) v.
End Timers.

(** The canvas element: only its size is read by the engine. *)
Module Canvas.
Record t : Type := mk { width : Q; height : Q }.
End Canvas.

(** Everything the component's closures share: the game state behind
    [gameStateRef], the frame counters behind [timersRef], the React flag
    [isClient], the value stored under the key ["colorRunBestScore"] of
    [localStorage] ([None] when the key is absent), and the number of
    [Math.random()] calls made so far. *)
Module World.
Record t : Type := mk {
    gameState : GameState.t;
    timers : Timers.t;
    isClient : bool;
    localStorage : option Z;
    draws : nat
  }.

Definition set_gameState (v : GameState.t) (w : t) : t :=
    mk v (timers w) (isClient w) (localStorage w) (draws w).
Definition set_timers (v : Timers.t) (w : t) : t :=
    mk (gameState w) v (isClient w) (localStorage w) (draws w).
Definition set_localStorage (v : option Z) (w : t) : t :=
    mk (gameState w) (timers w) (isClient w) v (draws w).
Definition set_draws (v : nat) (w : t) : t :=
    mk (gameState w) (timers w) (isClient w) (localStorage w) v.

  (** Updates through the reference, as [gameState.f = v] and
      [player.f = v] do in the source. *)
Definition upd (f : GameState.t -> GameState.t) (w : t) : t :=
    set_gameState (f (gameState w)) w.
Definition updPlayer (f : Player.t -> Player.t) (w : t) : t :=
    upd (fun g => GameState.set_player (f (GameState.player g)) g) w.
Definition updTimers (f : Timers.t -> Timers.t) (w : t) : t :=
    set_timers (f (timers w)) w.

Definition player (w : t) : Player.t := GameState.player (gameState w).
End World.

(** ** Collision classification (lines 301-348) *)

Inductive CollisionType : Type := pass | jump | collision.

Definition CollisionType_eqb (a b : CollisionType) : bool :=
  match a, b with
  | pass, pass | jump, jump | collision, collision => true
  | _, _ => false
  end.

Module Collision.
Record t : Type := mk { hit : bool; type : CollisionType }.
End Collision.

(** The height of an obstacle: tall ones are 1.8 times the base height
    (lines 307-310 and 597-600). *)
Definition obstacleHeight (obstacle : Obstacle.t) : Q :=
  if ObstacleType_eqb (Obstacle.type obstacle) tall
  then (GAME_CONFIG.OBSTACLE.HEIGHT * 1.8)%Q
  else GAME_CONFIG.OBSTACLE.HEIGHT.

Definition obstacleTop (obstacle : Obstacle.t) (canvas : Canvas.t) : Q :=
  (Canvas.height canvas - obstacleHeight obstacle - 20)%Q.

Definition obstacleBottom (canvas : Canvas.t) : Q :=
  (Canvas.height canvas - 20)%Q.

(** The three tests of [checkCollision], named after the source's comments. *)
Definition xOverlap (player : Player.t) (obstacle : Obstacle.t) : bool :=
  ((Obstacle.x obstacle <? Player.x player + Player.radius player) &&
   (Obstacle.x obstacle + GAME_CONFIG.OBSTACLE.WIDTH >?
      Player.x player - Player.radius player))%Q.

Definition aboveObstacle (player : Player.t) (obstacle : Obstacle.t)
    (canvas : Canvas.t) : bool :=
  Qle_bool (Player.y player + Player.radius player)
           (obstacleTop obstacle canvas + 5).

Definition insideBand (player : Player.t) (obstacle : Obstacle.t)
    (canvas : Canvas.t) : bool :=
  ((Player.y player + Player.radius player >? obstacleTop obstacle canvas) &&
   (Player.y player - Player.radius player <? obstacleBottom canvas))%Q.

Definition checkCollision (player : Player.t) (obstacle : Obstacle.t)
    (canvas : Canvas.t) : Collision.t :=
  if negb (xOverlap player obstacle) then Collision.mk false pass
  else if aboveObstacle player obstacle canvas then Collision.mk false jump
  else if insideBand player obstacle canvas then Collision.mk true pass
  else Collision.mk false pass.

(** [Math.sqrt(s) < t] is [0 < t] and [s < t * t] on exact numbers; the
    square root itself is not needed. *)
Definition checkPowerUpCollision (player : Player.t) (powerUp : PowerUp.t) : bool :=
  let dx := (Player.x player - (PowerUp.x powerUp + 15))%Q in
  let dy := (Player.y player - PowerUp.y powerUp)%Q in
  let reach := (Player.radius player + 15)%Q in
  ((0 <? reach) && (dx * dx + dy * dy <? reach * reach))%Q.

(** ** The engine

    [randomSource n] is the value returned by the [n]-th call of
    [Math.random()]. *)

Section Engine.

Variable randomSource : nat -> Q.

Definition Math_random (w : World.t) : Q * World.t :=
  (randomSource (World.draws w), World.set_draws (S (World.draws w)) w).

(** *** Best score store (lines 122-137)

    The store is modelled by the integer it holds under the key
    ["colorRunBestScore"]: the round trip through [toString] and [parseInt]
    is the identity on the integer scores the game writes (below 10^21) and
    is not modelled. *)

Definition getBestScore (w : World.t) : Z :=
  if World.isClient w then
    match World.localStorage w with
    | Some v => v
    | None => 0
    end
  else 0.

Definition saveBestScore (score : Z) (w : World.t) : World.t :=
  if World.isClient w then World.set_localStorage (Some score) w else w.

(** *** Initial state and reset (lines 140-200) *)

Definition createInitialGameState (w : World.t) : GameState.t :=
  GameState.mk
    (Player.mk GAME_CONFIG.PLAYER.X GAME_CONFIG.PLAYER.Y GAME_CONFIG.PLAYER.RADIUS
               0 (array_get GAME_CONFIG.COLORS 0) false 0 0 0 3 0)
    [] [] 0 0 0 (getBestScore w) 1 false false 0 false.

Definition resetGame (w : World.t) : World.t :=
  World.set_timers (Timers.mk 0 0 0)
    (World.set_gameState (createInitialGameState w) w).

(** *** Spawners (lines 203-253) *)

Definition spawnObstacle (canvas : Canvas.t) (w : World.t) : World.t :=
  let '(r, w) := Math_random w in
  let color :=
    array_get GAME_CONFIG.COLORS
      (Qfloor (r * inject_Z (Z.of_nat (List.length GAME_CONFIG.COLORS)))) in
  let '(rand, w) := Math_random w in
  let type :=
    if (rand <? 0.1)%Q then bonus
    else if (rand <? 0.25)%Q then tall
    else normal in
  World.upd (fun g =>
    GameState.set_obstacles
      (GameState.obstacles g ++
         [Obstacle.mk (Canvas.width canvas) color false type false]) g) w.

(** [regularTypes[i]]; the index is in range whenever [Math.random()] is in
    [[0, 1)], the last case stands for the out-of-range lookup. *)
Definition regularTypes (i : Z) : PowerUpType :=
  if i =? 0 then shieldItem
  else if i =? 1 then bonusItem
  else jumpBoostItem.

Definition spawnPowerUp (canvas : Canvas.t) (w : World.t) : World.t :=
  let '(r, w) := Math_random w in
  let '(type, w) :=
    if (r <? GAME_CONFIG.POWERUP.LIFE_SPAWN_CHANCE)%Q then (lifeItem, w)
    else
      let '(r2, w) := Math_random w in
      (regularTypes (Qfloor (r2 * 3)), w) in
  World.upd (fun g =>
    GameState.set_powerUps
      (GameState.powerUps g ++ [PowerUp.mk (Canvas.width canvas) 350 type false]) g) w.

(** *** Jump (lines 256-298) *)

Definition startGame (w : World.t) : World.t :=
  World.upd (GameState.set_gameStarted true) w.

Definition handleJump (w : World.t) : World.t :=
  if negb (GameState.gameStarted (World.gameState w)) then startGame w
  else if GameState.isGameOver (World.gameState w) then w
  else
    let player := World.player w in
    if Player.jumpCount player <? 2 then
      let jumpPower :=
        if Player.jumpBoost player >? 0
        then (GAME_CONFIG.PLAYER.JUMP_POWER * 1.4)%Q
        else GAME_CONFIG.PLAYER.JUMP_POWER in
      World.updPlayer (fun p =>
        Player.set_jumpCount (Player.jumpCount p + 1)
          (Player.set_isJumping true (Player.set_vy jumpPower p))) w
    else w.

(** *** The obstacle pass of [gameLoop] (lines 593-768)

    The callback of [obstacles.forEach] is split at its two blocks: the
    response to the collision (lines 657-749) and the colour check once the
    obstacle is behind the player (lines 751-767).  The [return] of line 730
    leaves the callback, so the second block is skipped for that obstacle;
    the response reports it with [true]. *)

Definition baseScorePass (obstacle : Obstacle.t) : Z :=
  match Obstacle.type obstacle with
  | bonus => 20
  | tall => 15
  | normal => 10
  end.

Definition baseScoreJump (obstacle : Obstacle.t) : Z :=
  match Obstacle.type obstacle with
  | tall => 2
  | _ => 1
  end.

(** The test shared by lines 662-663 and 691-692. *)
Definition passThroughHit (collision : Collision.t) : bool :=
  Collision.hit collision && CollisionType_eqb (Collision.type collision) pass.

Definition resolveCollision (canvas : Canvas.t) (w : World.t)
    (obstacle : Obstacle.t) : World.t * Obstacle.t * bool :=
  let player := World.player w in
  let collision := checkCollision player obstacle canvas in
  if passThroughHit collision &&
     (Player.color player =? Obstacle.color obstacle)%string
  then
    if negb (Obstacle.passed obstacle) then
      let comboBonus := GameState.combo (World.gameState w) / 5 * 5 in
      let totalScore := baseScorePass obstacle + comboBonus in
      let w := World.upd (fun g => GameState.set_score (GameState.score g + totalScore) g) w in
      let w := World.upd (fun g => GameState.set_combo (GameState.combo g + 1) g) w in
      let w := World.upd (GameState.set_comboTimer GAME_CONFIG.COMBO_TIMEOUT) w in
      (w, Obstacle.set_passed true obstacle, false)
    else (w, obstacle, false)
  else if passThroughHit collision &&
          negb (Player.color player =? Obstacle.color obstacle)%string
  then
    if Player.invincible player <=? 0 then
      if Player.shield player >? 0 then
        let w := World.updPlayer (Player.set_shield 0) w in
        let w := World.upd (GameState.set_combo 0) w in
        let w := World.upd (GameState.set_comboTimer 0) w in
        if negb (Obstacle.passed obstacle) then
          let w := World.upd (fun g => GameState.set_score (GameState.score g + 1) g) w in
          (w, Obstacle.set_passed true obstacle, false)
        else (w, obstacle, false)
      else
        let w := World.updPlayer (fun p => Player.set_lives (Player.lives p - 1) p) w in
        let w := World.updPlayer (Player.set_invincible 120) w in
        let w := World.upd (GameState.set_combo 0) w in
        let w := World.upd (GameState.set_comboTimer 0) w in
        if Player.lives (World.player w) <=? 0 then
          let w := World.upd (GameState.set_isGameOver true) w in
          let w :=
            if GameState.score (World.gameState w) >?
               GameState.bestScore (World.gameState w)
            then
              let w := World.upd (fun g => GameState.set_bestScore (GameState.score g) g) w in
              saveBestScore (GameState.score (World.gameState w)) w
            else w in
          (w, obstacle, true)
        else (w, obstacle, false)
    else (w, obstacle, false)
  else if CollisionType_eqb (Collision.type collision) jump &&
          (Obstacle.x obstacle <? Player.x player)%Q &&
          (Obstacle.x obstacle + GAME_CONFIG.OBSTACLE.WIDTH >? Player.x player)%Q
  then
    if negb (Obstacle.passed obstacle) then
      let w := World.upd (fun g =>
                 GameState.set_score (GameState.score g + baseScoreJump obstacle) g) w in
      (w, Obstacle.set_passed true obstacle, false)
    else (w, obstacle, false)
  else (w, obstacle, false).

Definition behindPlayer (player : Player.t) (obstacle : Obstacle.t) : bool :=
  (Obstacle.x obstacle + GAME_CONFIG.OBSTACLE.WIDTH <?
     Player.x player - Player.radius player - 10)%Q.

Definition colorChangeCheck (w : World.t) (obstacle : Obstacle.t)
    : World.t * Obstacle.t :=
  let player := World.player w in
  if Obstacle.passed obstacle && behindPlayer player obstacle &&
     negb (Obstacle.colorChanged obstacle)
  then
    let w :=
      if (Player.color player =? Obstacle.color obstacle)%string then
        let '(r, w) := Math_random w in
        let randomChance := Qfloor (r * 10) + 1 in
        if randomChance <=? 4
        then World.upd (GameState.set_colorChangeOnNextObstacle true) w
        else w
      else w in
    (w, Obstacle.set_colorChanged true obstacle)
  else (w, obstacle).

(** Line 594. *)
Definition advance (currentSpeed : Q) (obstacle : Obstacle.t) : Obstacle.t :=
  Obstacle.set_x (Obstacle.x obstacle - currentSpeed)%Q obstacle.

Definition obstacleCallback (canvas : Canvas.t) (currentSpeed : Q)
    (w : World.t) (obstacle : Obstacle.t) : World.t * Obstacle.t :=
  let obstacle := advance currentSpeed obstacle in
  let '(w, obstacle, returned) := resolveCollision canvas w obstacle in
  if returned then (w, obstacle) else colorChangeCheck w obstacle.

Fixpoint forEachObstacle (canvas : Canvas.t) (currentSpeed : Q) (w : World.t)
    (obstacles : list Obstacle.t) : World.t * list Obstacle.t :=
  match obstacles with
  | [] => (w, [])
  | obstacle :: rest =>
      let '(w, obstacle) := obstacleCallback canvas currentSpeed w obstacle in
      let '(w, rest) := forEachObstacle canvas currentSpeed w rest in
      (w, obstacle :: rest)
  end.

(** *** The power-up pass (lines 771-860) *)

Definition applyPowerUp (type : PowerUpType) (w : World.t) : World.t :=
  match type with
  | shieldItem => World.updPlayer (Player.set_shield GAME_CONFIG.POWERUP.DURATION) w
  | bonusItem => World.upd (fun g => GameState.set_score (GameState.score g + 50) g) w
  | lifeItem =>
      if Player.lives (World.player w) <? 3
      then World.updPlayer (fun p => Player.set_lives (Player.lives p + 1) p) w
      else w
  | jumpBoostItem => World.updPlayer (Player.set_jumpBoost GAME_CONFIG.POWERUP.DURATION) w
  end.

Definition powerUpCallback (currentSpeed : Q) (w : World.t) (powerUp : PowerUp.t)
    : World.t * PowerUp.t :=
  let powerUp := PowerUp.set_x (PowerUp.x powerUp - currentSpeed)%Q powerUp in
  if checkPowerUpCollision (World.player w) powerUp && negb (PowerUp.collected powerUp)
  then (applyPowerUp (PowerUp.type powerUp) w, PowerUp.set_collected true powerUp)
  else (w, powerUp).

Fixpoint forEachPowerUp (currentSpeed : Q) (w : World.t) (powerUps : list PowerUp.t)
    : World.t * list PowerUp.t :=
  match powerUps with
  | [] => (w, [])
  | powerUp :: rest =>
      let '(w, powerUp) := powerUpCallback currentSpeed w powerUp in
      let '(w, rest) := forEachPowerUp currentSpeed w rest in
      (w, powerUp :: rest)
  end.

(** *** The phases of [gameLoop] (lines 351-987), in source order *)

(** Lines 363-366. *)
Definition scrollBackground (canvas : Canvas.t) (w : World.t) : World.t :=
  let w := World.upd (fun g =>
             GameState.set_backgroundOffset (GameState.backgroundOffset g + 0.5)%Q g) w in
  if (GameState.backgroundOffset (World.gameState w) >? Canvas.width canvas)%Q
  then World.upd (GameState.set_backgroundOffset 0) w
  else w.

(** Lines 527-538: gravity, then the ground clamp, which is the one place
    where the jump count goes back to 0. *)
Definition updatePhysics (canvas : Canvas.t) (w : World.t) : World.t :=
  let gravityMultiplier := 1%Q in
  let w := World.updPlayer (fun p =>
             Player.set_vy (Player.vy p + GAME_CONFIG.PLAYER.GRAVITY * gravityMultiplier)%Q p) w in
  let w := World.updPlayer (fun p =>
             Player.set_y (Player.y p + Player.vy p * gravityMultiplier)%Q p) w in
  let groundY := (Canvas.height canvas - 20 - Player.radius (World.player w))%Q in
  if (Player.y (World.player w) >? groundY)%Q then
    World.updPlayer (fun p =>
      Player.set_jumpCount 0
        (Player.set_isJumping false (Player.set_vy 0 (Player.set_y groundY p)))) w
  else w.

(** Lines 580-587. *)
Definition currentSpeedOf (score : Z) : Q :=
  let speedMultiplier := 1%Q in
  Qmin (GAME_CONFIG.OBSTACLE.BASE_SPEED *
          (1 + inject_Z (score / 100) * GAME_CONFIG.SPEED_INCREASE_RATE) *
          speedMultiplier)
       (GAME_CONFIG.OBSTACLE.BASE_SPEED * GAME_CONFIG.MAX_SPEED_MULTIPLIER).

(** Line 590. *)
Definition updateLevel (w : World.t) : World.t :=
  World.upd (fun g => GameState.set_level (GameState.score g / 100 + 1) g) w.

(** Lines 593-768 and 771-860: both passes run over the arrays that were
    read from the game state when the frame began. *)
Definition obstaclePass (canvas : Canvas.t) (currentSpeed : Q) (w : World.t)
    : World.t * list Obstacle.t :=
  forEachObstacle canvas currentSpeed w (GameState.obstacles (World.gameState w)).

Definition powerUpPass (currentSpeed : Q) (w : World.t) : World.t * list PowerUp.t :=
  forEachPowerUp currentSpeed w (GameState.powerUps (World.gameState w)).

(** Lines 883-888. *)
Definition onScreen (obs : Obstacle.t) : bool :=
  (Obstacle.x obs >? - GAME_CONFIG.OBSTACLE.WIDTH)%Q.

Definition keepPowerUp (powerUp : PowerUp.t) : bool :=
  (PowerUp.x powerUp >? - (30))%Q && negb (PowerUp.collected powerUp).

Definition prune (obstacles : list Obstacle.t) (powerUps : list PowerUp.t)
    (w : World.t) : World.t :=
  let w := World.upd (GameState.set_obstacles (filter onScreen obstacles)) w in
  World.upd (GameState.set_powerUps (filter keepPowerUp powerUps)) w.

(** Lines 891-898. *)
Definition spawnThreshold (level : Z) : Z :=
  GAME_CONFIG.OBSTACLE.SPAWN_INTERVAL - level * 2.

Definition obstacleSpawnTick (canvas : Canvas.t) (w : World.t) : World.t :=
  let w := World.updTimers (fun m => Timers.set_spawn (Timers.spawn m + 1) m) w in
  if Timers.spawn (World.timers w) >?
     spawnThreshold (GameState.level (World.gameState w))
  then
    let w := spawnObstacle canvas w in
    World.updTimers (Timers.set_spawn 0) w
  else w.

(** Lines 901-908; [&&] calls [Math.random()] only when the counter test
    succeeds. *)
Definition powerUpSpawnTick (canvas : Canvas.t) (w : World.t) : World.t :=
  let w := World.updTimers (fun m => Timers.set_powerUpSpawn (Timers.powerUpSpawn m + 1) m) w in
  if Timers.powerUpSpawn (World.timers w) >? 200 then
    let '(r, w) := Math_random w in
    if (r <? GAME_CONFIG.POWERUP.SPAWN_CHANCE)%Q then
      let w := spawnPowerUp canvas w in
      World.updTimers (Timers.set_powerUpSpawn 0) w
    else w
  else w.

(** Lines 911-920. *)
Definition availableColors (current : string) : list string :=
  filter (fun color => negb (color =? current)%string) GAME_CONFIG.COLORS.

Definition applyColorChange (w : World.t) : World.t :=
  if GameState.colorChangeOnNextObstacle (World.gameState w) then
    let available := availableColors (Player.color (World.player w)) in
    let '(r, w) := Math_random w in
    let newColor :=
      array_get available (Qfloor (r * inject_Z (Z.of_nat (List.length available)))) in
    let w := World.updPlayer (Player.set_color newColor) w in
    World.upd (GameState.set_colorChangeOnNextObstacle false) w
  else w.

(** Lines 923-925. *)
Definition ageTimers (w : World.t) : World.t :=
  let w := if Player.shield (World.player w) >? 0
           then World.updPlayer (fun p => Player.set_shield (Player.shield p - 1) p) w
           else w in
  let w := if Player.jumpBoost (World.player w) >? 0
           then World.updPlayer (fun p => Player.set_jumpBoost (Player.jumpBoost p - 1) p) w
           else w in
  if Player.invincible (World.player w) >? 0
  then World.updPlayer (fun p => Player.set_invincible (Player.invincible p - 1) p) w
  else w.

(** Lines 928-932. *)
Definition comboDecay (w : World.t) : World.t :=
  if GameState.comboTimer (World.gameState w) >? 0
  then World.upd (fun g => GameState.set_comboTimer (GameState.comboTimer g - 1) g) w
  else World.upd (GameState.set_combo 0) w.

(** What follows the two passes (lines 883-932). *)
Definition endOfTick (canvas : Canvas.t) (obstacles : list Obstacle.t)
    (powerUps : list PowerUp.t) (w : World.t) : World.t :=
  let w := prune obstacles powerUps w in
  let w := obstacleSpawnTick canvas w in
  let w := powerUpSpawnTick canvas w in
  let w := applyColorChange w in
  let w := ageTimers w in
  comboDecay w.

(** One frame.  On the title screen (lines 450-523) only the background
    moves. *)
Definition gameLoop (canvas : Canvas.t) (w : World.t) : World.t :=
  let w := scrollBackground canvas w in
  if negb (GameState.gameStarted (World.gameState w)) then w
  else
    let w := updatePhysics canvas w in
    let currentSpeed := currentSpeedOf (GameState.score (World.gameState w)) in
    let w := updateLevel w in
    let '(w, obstacles) := obstaclePass canvas currentSpeed w in
    let '(w, powerUps) := powerUpPass currentSpeed w in
    endOfTick canvas obstacles powerUps w.

(** *** The session

    A frame is requested when the component mounts, by the deferred reset
    after a game over (lines 723-729) and at the end of [gameLoop] while the
    game is not over (lines 984-986): [gameLoop] runs only on a state whose
    [isGameOver] is false.  A jump trigger can arrive between any two
    frames.  [resetGame] runs at mount and from the game-over timer. *)

Inductive Event : Type :=
  | Frame (canvas : Canvas.t)
  | JumpTrigger
  | Reset.

Definition enabled (e : Event) (w : World.t) : bool :=
  match e with
  | Frame _ => negb (GameState.isGameOver (World.gameState w))
  | JumpTrigger => true
  | Reset => true
  end.

Definition react (e : Event) (w : World.t) : World.t :=
  match e with
  | Frame canvas => gameLoop canvas w
  | JumpTrigger => handleJump w
  | Reset => resetGame w
  end.

(** Runs a list of events, skipping those that are not enabled. *)
Fixpoint run (events : list Event) (w : World.t) : World.t :=
  match events with
  | [] => w
  | e :: rest => run rest (if enabled e w then react e w else w)
  end.

Inductive reachable : World.t -> Prop :=
  | reachable_mount (w0 : World.t) : reachable (resetGame w0)
  | reachable_event (e : Event) (w : World.t) :
      reachable w -> enabled e w = true -> reachable (react e w).

End Engine.

(** ** The geometry of [checkCollision], as propositions *)

(** The player's disc and the obstacle's rectangle share an x. *)
Definition overlapsX (player : Player.t) (obstacle : Obstacle.t) : Prop :=
  (Obstacle.x obstacle < Player.x player + Player.radius player /\
   Player.x player - Player.radius player <
     Obstacle.x obstacle + GAME_CONFIG.OBSTACLE.WIDTH)%Q.

(** The player's lower edge is at or above the obstacle's top plus the five
    pixels of tolerance (y grows downwards). *)
Definition clearsTop (player : Player.t) (obstacle : Obstacle.t)
    (canvas : Canvas.t) : Prop :=
  (Player.y player + Player.radius player <= obstacleTop obstacle canvas + 5)%Q.

(** The player's vertical span meets the obstacle's band. *)
Definition spansBand (player : Player.t) (obstacle : Obstacle.t)
    (canvas : Canvas.t) : Prop :=
  (obstacleTop obstacle canvas < Player.y player + Player.radius player /\
   Player.y player - Player.radius player < obstacleBottom canvas)%Q.


(** ** Events of the obstacle callback

    The conditions under which the callback takes each of its branches, for
    an obstacle that has already been moved. *)

Definition sameColor (w : World.t) (obstacle : Obstacle.t) : bool :=
  (Player.color (World.player w) =? Obstacle.color obstacle)%string.

Definition hits (canvas : Canvas.t) (w : World.t) (obstacle : Obstacle.t) : bool :=
  passThroughHit (checkCollision (World.player w) obstacle canvas).

(** A same-colour pass-through hit on an obstacle not yet passed
    (lines 661-667). *)
Definition qualifyingPass (canvas : Canvas.t) (w : World.t)
    (obstacle : Obstacle.t) : bool :=
  hits canvas w obstacle && sameColor w obstacle && negb (Obstacle.passed obstacle).

(** A different-colour pass-through hit while invincibility is inactive
    (lines 690-696), shielded or not. *)
Definition damageEvent (canvas : Canvas.t) (w : World.t)
    (obstacle : Obstacle.t) : bool :=
  hits canvas w obstacle && negb (sameColor w obstacle) &&
  (Player.invincible (World.player w) <=? 0).

Definition lifeLost (canvas : Canvas.t) (w : World.t)
    (obstacle : Obstacle.t) : bool :=
  damageEvent canvas w obstacle && negb (Player.shield (World.player w) >? 0).

(** The jump-over branch (lines 736-740). *)
Definition jumpsOver (canvas : Canvas.t) (w : World.t)
    (obstacle : Obstacle.t) : bool :=
  CollisionType_eqb
    (Collision.type (checkCollision (World.player w) obstacle canvas)) jump &&
  (Obstacle.x obstacle <? Player.x (World.player w))%Q &&
  (Obstacle.x obstacle + GAME_CONFIG.OBSTACLE.WIDTH >? Player.x (World.player w))%Q.


(** ** The life of one obstacle

    An obstacle object stays in the array from its spawn until it is
    pruned; in every frame of that time the callback runs on it once, in
    the world it finds.  A visit records that frame's canvas and speed and
    that world. *)

Module Visit.
Record t : Type := mk {
  canvas : Canvas.t;
  currentSpeed : Q;
  world : World.t
}.
End Visit.

Section Lifetime.

Variable randomSource : nat -> Q.

Definition visit (v : Visit.t) (obstacle : Obstacle.t) : World.t * Obstacle.t :=
  obstacleCallback randomSource (Visit.canvas v) (Visit.currentSpeed v)
                   (Visit.world v) obstacle.

(** The points one visit adds to the score. *)
Definition award (v : Visit.t) (obstacle : Obstacle.t) : Z :=
  GameState.score (World.gameState (fst (visit v obstacle))) -
  GameState.score (World.gameState (Visit.world v)).

Fixpoint awards (visits : list Visit.t) (obstacle : Obstacle.t) : list Z :=
  match visits with
  | [] => []
  | v :: rest => award v obstacle :: awards rest (snd (visit v obstacle))
  end.

Fixpoint afterVisits (visits : list Visit.t) (obstacle : Obstacle.t) : Obstacle.t :=
  match visits with
  | [] => obstacle
  | v :: rest => afterVisits rest (snd (visit v obstacle))
  end.

Definition scoringVisits (visits : list Visit.t) (obstacle : Obstacle.t) : nat :=
  List.length (filter (fun a => negb (a =? 0)) (awards visits obstacle)).

(** The visits that the obstacle pass of one frame makes, in array order:
    each obstacle is visited once, in the world left by the visits before
    it. *)
Fixpoint passVisits (canvas : Canvas.t) (currentSpeed : Q) (w : World.t)
    (obstacles : list Obstacle.t) : list Visit.t :=
  match obstacles with
  | [] => []
  | obstacle :: rest =>
      Visit.mk canvas currentSpeed w ::
      passVisits canvas currentSpeed
        (fst (obstacleCallback randomSource canvas currentSpeed w obstacle)) rest
  end.

Definition sumZ (l : list Z) : Z := fold_right Z.add 0 l.

End Lifetime.

(** ** The frame, seen from its obstacle pass *)

(** The world in which the obstacle pass of a frame starts (lines 363-590). *)
Definition beforePasses (canvas : Canvas.t) (w : World.t) : World.t :=
  updateLevel (updatePhysics canvas (scrollBackground canvas w)).

(** The speed of the frame that starts in [w]. *)
Definition frameSpeed (w : World.t) : Q :=
  currentSpeedOf (GameState.score (World.gameState w)).








(** Three views of the world, used to say what a phase leaves alone. *)
Definition vitals (w : World.t) : Z * Z * bool * bool :=
  (Player.lives (World.player w), Player.jumpCount (World.player w),
   GameState.isGameOver (World.gameState w),
   GameState.gameStarted (World.gameState w)).

Definition comboLedger (w : World.t) : Z * Z :=
  (GameState.combo (World.gameState w), GameState.comboTimer (World.gameState w)).

Definition spawnView (w : World.t) : list Obstacle.t * Z * Z :=
  (GameState.obstacles (World.gameState w), Timers.spawn (World.timers w),
   GameState.level (World.gameState w)).


(** ** Invariants *)

(** The level and the frame counters have given values. *)
Definition stageIs (level : Z) (timers : Timers.t) (w : World.t) : Prop :=
  GameState.level (World.gameState w) = level /\ World.timers w = timers.


Definition livesInRange (w : World.t) : Prop :=
  0 <= Player.lives (World.player w) <= 3.

Definition jumpCountInRange (w : World.t) : Prop :=
  0 <= Player.jumpCount (World.player w) <= 2.

(** Between events: the bounds, no lives left only when the game is over,
    and no jump made before the game has started. *)
Definition sessionInvariant (w : World.t) : Prop :=
  livesInRange w /\ jumpCountInRange w /\
  (Player.lives (World.player w) = 0 ->
     GameState.isGameOver (World.gameState w) = true) /\
  (GameState.gameStarted (World.gameState w) = false ->
     Player.jumpCount (World.player w) = 0).

(** Inside the two passes of a frame: when the last life has just been
    lost, the invincibility timer is running. *)
Definition passInvariant (w : World.t) : Prop :=
  livesInRange w /\ jumpCountInRange w /\
  (Player.lives (World.player w) = 0 ->
     GameState.isGameOver (World.gameState w) = true /\
     0 < Player.invincible (World.player w)) /\
  (GameState.gameStarted (World.gameState w) = false ->
     Player.jumpCount (World.player w) = 0).


(** During one obstacle pass that starts with [lives] lives and the
    invincibility timer at [invincible]: either nothing was lost, or one
    life was lost and the timer was set. *)
Definition atMostOneLifeLost (lives invincible : Z) (w : World.t) : Prop :=
  (Player.lives (World.player w) = lives /\
   Player.invincible (World.player w) = invincible) \/
  (Player.lives (World.player w) = lives - 1 /\
   Player.invincible (World.player w) = 120).


(** ** Ranges *)

(** The ranges of the integer state between events. *)
Definition rangesInvariant (w : World.t) : Prop :=
  0 <= GameState.score (World.gameState w) /\
  0 <= GameState.combo (World.gameState w) /\
  0 <= GameState.comboTimer (World.gameState w) <= GAME_CONFIG.COMBO_TIMEOUT /\
  0 <= Player.shield (World.player w) <= GAME_CONFIG.POWERUP.DURATION /\
  0 <= Player.jumpBoost (World.player w) <= GAME_CONFIG.POWERUP.DURATION /\
  0 <= Player.invincible (World.player w) <= 120 /\
  1 <= GameState.level (World.gameState w).

(** The ranges, with the score at least [floor]. *)
Definition scoreAtLeast (floor : Z) (w : World.t) : Prop :=
  rangesInvariant w /\ floor <= GameState.score (World.gameState w).


(** ** Best score and store *)

(** The client flag is [client]; on a client the best score of the state is
    the one the store returns; and the best score is at least [floor]. *)
Definition bestScoreKept (client : bool) (floor : Z) (w : World.t) : Prop :=
  World.isClient w = client /\
  (client = true -> GameState.bestScore (World.gameState w) = getBestScore w) /\
  floor <= GameState.bestScore (World.gameState w).


(** ** Session phases *)

Definition isFrame (e : Event) : bool :=
  match e with
  | Frame _ => true
  | _ => false
  end.

Definition isReset (e : Event) : bool :=
  match e with
  | Reset => true
  | _ => false
  end.


(** ** The player's body *)

(** Position, size, velocity and jump state of the player. *)
Definition body (w : World.t) : Q * Q * Q * Q * bool * Z :=
  (Player.x (World.player w), Player.y (World.player w),
   Player.radius (World.player w), Player.vy (World.player w),
   Player.isJumping (World.player w), Player.jumpCount (World.player w)).

(** The ground line for the player's centre (line 532). *)
Definition groundY (canvas : Canvas.t) (w : World.t) : Q :=
  (Canvas.height canvas - 20 - Player.radius (World.player w))%Q.

(** [n] calls of [gameLoop] in a row on the same canvas, with no input in
    between: what the browser runs, one call per animation frame, until the
    game is over. *)
Fixpoint frames (randomSource : nat -> Q) (canvas : Canvas.t) (n : nat)
    (w : World.t) : World.t :=
  match n with
  | O => w
  | S n => gameLoop randomSource canvas (frames randomSource canvas n w)
  end.

(** The height gained (negative: y grows downwards) [k] frames after a
    take-off at velocity [v] under the gravity of 0.6 per frame. *)
Definition arcOffset (v : Q) (k : nat) : Q :=
  let t := inject_Z (Z.of_nat k) in
  (v * t + 0.3 * t * (t + 1))%Q.


(** ** While the invincibility timer runs *)

(** The timer has the given value, the lives have not gone below [lives]
    and the game-over flag is [over]. *)
Definition guarded (lives invincible : Z) (over : bool) (w : World.t) : Prop :=
  Player.invincible (World.player w) = invincible /\
  lives <= Player.lives (World.player w) /\
  GameState.isGameOver (World.gameState w) = over.


(** ** Entities from one frame to the next *)

(** An obstacle one frame later: moved left by [speed], same colour and
    type, flags only ever set. *)
Definition scrolledObstacle (speed : Q) (before after : Obstacle.t) : Prop :=
  Obstacle.x after = (Obstacle.x before - speed)%Q /\
  Obstacle.color after = Obstacle.color before /\
  Obstacle.type after = Obstacle.type before /\
  (Obstacle.passed before = true -> Obstacle.passed after = true) /\
  (Obstacle.colorChanged before = true -> Obstacle.colorChanged after = true).

(** A power-up one frame later. *)
Definition scrolledPowerUp (speed : Q) (before after : PowerUp.t) : Prop :=
  PowerUp.x after = (PowerUp.x before - speed)%Q /\
  PowerUp.y after = PowerUp.y before /\
  PowerUp.type after = PowerUp.type before /\
  (PowerUp.collected before = true -> PowerUp.collected after = true).

(** The power-up list and its frame counter. *)
Definition powerUpView (w : World.t) : list PowerUp.t * Z :=
  (GameState.powerUps (World.gameState w), Timers.powerUpSpawn (World.timers w)).

(** ** Colours *)

(** The colours on screen are palette colours. *)
Definition inPalette (w : World.t) : Prop :=
  In (Player.color (World.player w)) GAME_CONFIG.COLORS /\
  Forall (fun o => In (Obstacle.color o) GAME_CONFIG.COLORS)
         (GameState.obstacles (World.gameState w)).

(** The player's colour and the pending colour change. *)
Definition colorView (w : World.t) : string * bool :=
  (Player.color (World.player w),
   GameState.colorChangeOnNextObstacle (World.gameState w)).

(** ** Particles (lines 71-80 and 863-880)

    The particle list is read by no other code, so its pass is modelled on
    its own, apart from [World].  [Array.prototype.forEach] visits the
    indices below the length the array had when the call began, and calls
    the callback for those that are still in the array; the callback may
    shorten the array with [splice]. *)

Module Particle.
Record t : Type := mk {
  x : Q;
  y : Q;
  vx : Q;
  vy : Q;
  life : Z;
  maxLife : Z;
  color : string;
  size : Q
}.
End Particle.

(** Lines 864-867. *)
Definition ageParticle (particle : Particle.t) : Particle.t :=
  Particle.mk (Particle.x particle + Particle.vx particle)%Q
              (Particle.y particle + Particle.vy particle)%Q
              (Particle.vx particle)
              (Particle.vy particle + 0.1)%Q
              (Particle.life particle - 1)
              (Particle.maxLife particle)
              (Particle.color particle)
              (Particle.size particle).

(** [particles.splice(index, 1)]. *)
Definition splice1 (index : nat) (particles : list Particle.t) : list Particle.t :=
  firstn index particles ++ skipn (S index) particles.

(** The element at [index] replaced: the callback mutates it in place. *)
Definition setAt (index : nat) (particle : Particle.t) (particles : list Particle.t)
    : list Particle.t :=
  firstn index particles ++ particle :: skipn (S index) particles.

(** [particles.forEach] from [index] on, with [remaining] indices still to
    visit. *)
Fixpoint forEachParticle (remaining index : nat) (particles : list Particle.t)
    : list Particle.t :=
  match remaining with
  | O => particles
  | S remaining =>
      match nth_error particles index with
      | None => forEachParticle remaining (S index) particles
      | Some particle =>
          let particle := ageParticle particle in
          let particles := setAt index particle particles in
          let particles :=
            if Particle.life particle <=? 0 then splice1 index particles
            else particles in
          forEachParticle remaining (S index) particles
      end
  end.

(** Lines 863-880. *)
Definition particlePass (particles : list Particle.t) : list Particle.t :=
  forEachParticle (List.length particles) 0 particles.

(** What the pass comes to: a particle whose life runs out is dropped, and
    the particle after it is passed over, neither aged nor tested. *)
Fixpoint agedParticles (particles : list Particle.t) : list Particle.t :=
  match particles with
  | [] => []
  | particle :: rest =>
      if Particle.life (ageParticle particle) <=? 0 then
        match rest with
        | [] => []
        | next :: rest => next :: agedParticles rest
        end
      else ageParticle particle :: agedParticles rest
  end.

(** Every second element, starting with the second. *)
Fixpoint everySecond (particles : list Particle.t) : list Particle.t :=
  match particles with
  | _ :: next :: rest => next :: everySecond rest
  | _ => []
  end.

(** ** Clearance *)


(** ** One obstacle's visit within its frame

    The obstacle pass of a frame visits the obstacles in array order, each
    in the world that the visits before it have left. *)

Section VisitInFrame.

Variable randomSource : nat -> Q.

(** The world in which the frame that starts in [w] visits an obstacle, the
    obstacles [before] it in the array having been visited. *)
Definition worldAtVisit (canvas : Canvas.t) (w : World.t)
    (before : list Obstacle.t) : World.t :=
  fst (forEachObstacle randomSource canvas (frameSpeed w) (beforePasses canvas w) before).

(** That visit: the world and the obstacle it leaves. *)
Definition visitInFrame (canvas : Canvas.t) (w : World.t)
    (before : list Obstacle.t) (obstacle : Obstacle.t) : World.t * Obstacle.t :=
  obstacleCallback randomSource canvas (frameSpeed w)
                   (worldAtVisit canvas w before) obstacle.

(** The visits to the obstacles [after] it. *)
Definition restOfObstaclePass (canvas : Canvas.t) (w : World.t)
    (before : list Obstacle.t) (obstacle : Obstacle.t) (after : list Obstacle.t)
    : World.t * list Obstacle.t :=
  forEachObstacle randomSource canvas (frameSpeed w)
                  (fst (visitInFrame canvas w before obstacle)) after.

(** A visit that neither scores nor does damage: no qualifying same-colour
    pass, no damage event and no jump over an obstacle not yet passed. *)
Definition quietVisit (canvas : Canvas.t) (w : World.t) (moved : Obstacle.t) : bool :=
  negb (qualifyingPass canvas w moved) && negb (damageEvent canvas w moved) &&
  negb (jumpsOver canvas w moved && negb (Obstacle.passed moved)).

Fixpoint quietVisits (canvas : Canvas.t) (currentSpeed : Q) (w : World.t)
    (obstacles : list Obstacle.t) : bool :=
  match obstacles with
  | [] => true
  | obstacle :: rest =>
      quietVisit canvas w (advance currentSpeed obstacle) &&
      quietVisits canvas currentSpeed
        (fst (obstacleCallback randomSource canvas currentSpeed w obstacle)) rest
  end.

End VisitInFrame.

(** The test of line 843, on a power-up that has been moved. *)
Definition pickedUp (player : Player.t) (moved : PowerUp.t) : bool :=
  checkPowerUpCollision player moved && negb (PowerUp.collected moved).

Definition isKind (kind type : PowerUpType) : bool :=
  match kind, type with
  | shieldItem, shieldItem => true
  | bonusItem, bonusItem => true
  | lifeItem, lifeItem => true
  | jumpBoostItem, jumpBoostItem => true
  | _, _ => false
  end.

(** The power-up pass that starts in [w] picks up a power-up of the given
    kind. *)
Definition collects (kind : PowerUpType) (currentSpeed : Q) (w : World.t) : bool :=
  existsb (fun powerUp =>
             isKind kind (PowerUp.type powerUp) &&
             pickedUp (World.player w)
                      (PowerUp.set_x (PowerUp.x powerUp - currentSpeed)%Q powerUp))
          (GameState.powerUps (World.gameState w)).

(** What a frame has at stake: the player, the score, the combo ledger, the
    best score, the game-over flag, the store and the client flag. *)
Definition stakes (w : World.t)
    : Player.t * Z * Z * Z * Z * bool * option Z * bool :=
  (World.player w, GameState.score (World.gameState w),
   GameState.combo (World.gameState w), GameState.comboTimer (World.gameState w),
   GameState.bestScore (World.gameState w),
   GameState.isGameOver (World.gameState w), World.localStorage w,
   World.isClient w).


(** ** Concrete configurations used in the examples below *)

(** On the 400 by 600 canvas, a player whose lower edge is 3 pixels below
    the top of a normal obstacle that it overlaps in x. *)
Definition grazingPlayer : Player.t :=
  Player.mk 100 503 20 0 "#ff4757" true 1 0 0 3 0.

Definition grazedObstacle : Obstacle.t :=
  Obstacle.mk 90 "#2ed573" false normal false.

Definition fullCanvas : Canvas.t :=
  Canvas.mk GAME_CONFIG.CANVAS_WIDTH GAME_CONFIG.CANVAS_HEIGHT.

(** A player standing on the ground of the 400 by 600 canvas, in the first
    palette colour. *)
Definition groundedPlayer (lives shield invincible : Z) : Player.t :=
  Player.mk GAME_CONFIG.PLAYER.X 560 GAME_CONFIG.PLAYER.RADIUS 0
            "#ff4757" false 0 shield 0 lives invincible.

(** A running game around a given player, with no entity on screen. *)
Definition playingWorld (player : Player.t) (score combo comboTimer bestScore : Z)
    : World.t :=
  World.mk
    (GameState.mk player [] [] score combo comboTimer bestScore
                  (score / 100 + 1) false false 0 true)
    (Timers.mk 0 0 0) true (Some bestScore) 0.

(** An obstacle that overlaps the player's x after one step at base speed. *)
Definition obstacleAhead (color : string) (type : ObstacleType) : Obstacle.t :=
  Obstacle.mk 100 color false type false.

(** The random source whose every draw is 0. *)
Definition zeroSource (n : nat) : Q := 0.

(** The world right after the component has mounted on a client with an
    empty store: [resetGame] has run on the not yet initialised state. *)
Definition mountedWorld : World.t :=
  resetGame
    (World.mk
       (GameState.mk (Player.mk 0 0 0 0 "" false 0 0 0 0 0) [] [] 0 0 0 0 0
                     false false 0 false)
       (Timers.mk 0 0 0) true None 0).

(** The game is started, a frame runs, and the player jumps twice. *)
Definition doubleJumpEvents : list Event :=
  [JumpTrigger; Frame fullCanvas; JumpTrigger; JumpTrigger].

(** A long game: score 3900, level 40, nothing on screen. *)
Definition level40World : World.t :=
  playingWorld (groundedPlayer 3 0 0) 3900 0 0 3900.

(** A new game in its first frames. *)
Definition level1World : World.t :=
  playingWorld (groundedPlayer 3 0 0) 0 0 0 0.

(** The game is started; 155 frames later, with the first obstacle (of the
    player's colour, since every draw of [zeroSource] is 0) on its way, the
    player jumps; then the given number of frames runs. *)
Definition jumpOverEvents (framesAfterJump : nat) : list Event :=
  [JumpTrigger] ++ repeat (Frame fullCanvas) 155 ++
  [JumpTrigger] ++ repeat (Frame fullCanvas) framesAfterJump.



(** The random source whose every draw is 1/5: every obstacle is tall and
    has the second palette colour, and no power-up is spawned. *)
Definition fifthSource (n : nat) : Q := 1 # 5.

(** A canvas so narrow that a new obstacle overlaps the player at once. *)
Definition narrowCanvas : Canvas.t := Canvas.mk 100 600.

(** The game is started and the player stays on the ground of the narrow
    canvas for the given number of frames. *)
Definition standStillEvents (count : nat) : list Event :=
  JumpTrigger :: repeat (Frame narrowCanvas) count.

(** With every draw 1/5 the first, third and fifth obstacle each take a
    life, in frames 70, 208 and 346: the game is over after 346 frames. *)
Definition gameOverWorld : World.t :=
  run fifthSource (standStillEvents 346) mountedWorld.

(** The game of [jumpOverEvents], 35 frames after the jump: the colour roll
    has just changed the player's colour. *)
Definition rolledWorld : World.t :=
  run zeroSource (jumpOverEvents 35) mountedWorld.

(** A frame with everything in it: the player in the air at the height of
    the power-ups, an obstacle about to leave the screen on the left, a tall
    one ahead, a bonus item within reach, a shield item further on, and the
    power-up counter at 200. *)
Definition busyWorld : World.t :=
  World.mk
    (GameState.mk (Player.mk 100 350 20 0 "#ff4757" true 1 0 0 3 0)
       [Obstacle.mk (-28) "#2ed573" true normal true;
        Obstacle.mk 300 "#ff4757" false tall false]
       [PowerUp.mk 90 350 bonusItem false; PowerUp.mk 250 350 shieldItem false]
       0 0 0 0 1 false false 0 true)
    (Timers.mk 0 0 200) true (Some 0) 0.

(** A burst of [n] particles in their last frame. *)
Definition lastFrameBurst (n : nat) : list Particle.t :=
  repeat (Particle.mk 100 580 2 (-2) 1 30 "#ffa502" 3) n.

(** A world with the given obstacles and power-ups on screen. *)
Definition withEntities (obstacles : list Obstacle.t) (powerUps : list PowerUp.t)
    (w : World.t) : World.t :=
  World.upd (GameState.set_powerUps powerUps)
            (World.upd (GameState.set_obstacles obstacles) w).

(** The canvas of a 360 by 590 mobile viewport (lines 1004-1013: width
    min(360 - 20, 380), height min(590 - 200, 500)).  A player on its
    ground line has its centre at y = 350, the height of the power-ups. *)
Definition phoneCanvas : Canvas.t := Canvas.mk 340 390.

Definition phonePlayer (lives shield : Z) : Player.t :=
  Player.mk GAME_CONFIG.PLAYER.X 350 GAME_CONFIG.PLAYER.RADIUS 0
            "#ff4757" false 0 shield 0 lives 0.

(** One tall obstacle of the player's colour reaches the player, who is on
    the ground with a combo of 7. *)
Definition onePassWorld : World.t :=
  withEntities [obstacleAhead "#ff4757" tall] []
    (playingWorld (groundedPlayer 3 0 0) 40 7 100 0).

(** Level 36, where an obstacle is spawned in every frame, 7.5 pixels
    behind the one before: the player comes down from a jump onto two
    obstacles of its own colour that it has not passed (the jump-over test
    of lines 736-740 only marks an obstacle whose left edge is left of the
    player's centre). *)
Definition landingPlayer : Player.t :=
  Player.mk GAME_CONFIG.PLAYER.X 500 GAME_CONFIG.PLAYER.RADIUS (47 # 5)
            "#ff4757" true 1 0 0 3 0.

Definition twoPassesWorld : World.t :=
  withEntities [Obstacle.mk 115 "#ff4757" false normal false;
                Obstacle.mk (245 # 2) "#ff4757" false normal false] []
    (playingWorld landingPlayer 3500 7 100 3500).

(** On the phone canvas at level 1: an obstacle of the player's colour and
    a bonus item that was spawned in the same frame, and so travels with
    it, reach the player together. *)
Definition passWithBonusItemWorld : World.t :=
  withEntities [Obstacle.mk 121 "#ff4757" false normal false]
               [PowerUp.mk 121 350 bonusItem false]
    (playingWorld (phonePlayer 3 0) 40 7 100 0).

(** A shielded player on the ground meets one obstacle of another colour. *)
Definition oneShieldedHitWorld : World.t :=
  withEntities [obstacleAhead "#2ed573" normal] []
    (playingWorld (groundedPlayer 3 200 0) 40 7 100 0).

(** Level 36 again: a shielded player whose invincibility has just run out
    stands in two obstacles of another colour, 7.5 pixels apart. *)
Definition twoHitsWorld : World.t :=
  withEntities [Obstacle.mk 100 "#2ed573" false normal false;
                Obstacle.mk (215 # 2) "#2ed573" false normal false] []
    (playingWorld (groundedPlayer 3 200 0) 3500 7 100 3500).

(** On the phone canvas at level 1: a shielded player with 2 lives, an
    obstacle of another colour and a life item that travels with it. *)
Definition shieldedWithLifeItemWorld : World.t :=
  withEntities [Obstacle.mk 121 "#2ed573" false normal false]
               [PowerUp.mk 121 350 lifeItem false]
    (playingWorld (phonePlayer 2 200) 40 7 100 0).



(** A game that has just been started from the mount. *)
Definition startedWorld : World.t := run zeroSource [JumpTrigger] mountedWorld.


(** * Properties *)

(** ** Comparisons *)

Lemma Qlt_bool_iff (a b : Q) : (a <? b)%Q = true <-> (a < b)%Q.
Proof.
  unfold Qlt_bool. rewrite negb_true_iff. split; intro H.
  - apply Qnot_le_lt. intro Hle. apply Qle_bool_iff in Hle. congruence.
  - destruct (Qle_bool b a) eqn:E; [|reflexivity].
    apply Qle_bool_iff in E. exfalso. apply (Qlt_not_le _ _ H). exact E.
Qed.

Lemma Qgt_bool_iff (a b : Q) : (a >? b)%Q = true <-> (b < a)%Q.
Proof. unfold Qgt_bool. apply Qlt_bool_iff. Qed.

Lemma Qlt_bool_false_iff (a b : Q) : (a <? b)%Q = false <-> (b <= a)%Q.
Proof.
  unfold Qlt_bool. rewrite negb_false_iff. apply Qle_bool_iff.
Qed.

Lemma xOverlap_iff player obstacle :
  xOverlap player obstacle = true <-> overlapsX player obstacle.
Proof.
  unfold xOverlap, overlapsX.
  rewrite andb_true_iff, Qlt_bool_iff, Qgt_bool_iff. reflexivity.
Qed.

Lemma aboveObstacle_iff player obstacle canvas :
  aboveObstacle player obstacle canvas = true <-> clearsTop player obstacle canvas.
Proof. unfold aboveObstacle, clearsTop. apply Qle_bool_iff. Qed.

Lemma insideBand_iff player obstacle canvas :
  insideBand player obstacle canvas = true <-> spansBand player obstacle canvas.
Proof.
  unfold insideBand, spansBand.
  rewrite andb_true_iff, Qlt_bool_iff, Qgt_bool_iff. reflexivity.
Qed.

Lemma bool_iff_false (b : bool) (P : Prop) :
  (b = true <-> P) -> (b = false <-> ~ P).
Proof.
  intros [H1 H2]. destruct b; split; intro H; try congruence.
  - exfalso. apply H. apply H1. reflexivity.
  - intro HP. apply H2 in HP. congruence.
Qed.

(** ** Collision classification *)

(** C6.  [checkCollision] follows the case order of the specification: no
    x-overlap is a [pass] without hit; with x-overlap, a player whose lower
    edge clears the obstacle top plus the tolerance is a [jump] without hit,
    whether or not the disc meets the band; only when the clearance test
    fails does a player whose vertical span meets the band give a [pass]
    with hit; everything else is a [pass] without hit.  A hit is reported
    exactly in the third case, and the type is never [collision]. *)
Theorem checkCollision_case_order player obstacle canvas :
  let result := checkCollision player obstacle canvas in
  (~ overlapsX player obstacle -> result = Collision.mk false pass) /\
  (overlapsX player obstacle -> clearsTop player obstacle canvas ->
     result = Collision.mk false jump) /\
  (overlapsX player obstacle -> ~ clearsTop player obstacle canvas ->
     spansBand player obstacle canvas -> result = Collision.mk true pass) /\
  (overlapsX player obstacle -> ~ clearsTop player obstacle canvas ->
     ~ spansBand player obstacle canvas -> result = Collision.mk false pass) /\
  (Collision.hit result = true <->
     overlapsX player obstacle /\ ~ clearsTop player obstacle canvas /\
     spansBand player obstacle canvas) /\
  Collision.type result <> collision.
Proof.
  pose proof (xOverlap_iff player obstacle) as Hx.
  pose proof (aboveObstacle_iff player obstacle canvas) as Ha.
  pose proof (insideBand_iff player obstacle canvas) as Hb.
  pose proof (bool_iff_false _ _ Hx) as Hx'.
  pose proof (bool_iff_false _ _ Ha) as Ha'.
  pose proof (bool_iff_false _ _ Hb) as Hb'.
  unfold checkCollision; cbv zeta.
  destruct (xOverlap player obstacle) eqn:Ex;
    destruct (aboveObstacle player obstacle canvas) eqn:Ea;
    destruct (insideBand player obstacle canvas) eqn:Eb; simpl;
    repeat split; intros; try reflexivity; try discriminate;
    repeat match goal with
    | H : _ /\ _ |- _ => destruct H
    end;
    try tauto; try (exfalso; tauto);
    try (destruct (proj1 Hx eq_refl); assumption);
    try (destruct (proj1 Hb eq_refl); assumption).
Qed.

(** The tie-break is not vacuous: [grazingPlayer] overlaps [grazedObstacle]
    in x and meets its band, and is classified [jump]. *)
Lemma checkCollision_grazing_is_jump :
  overlapsX grazingPlayer grazedObstacle /\
  spansBand grazingPlayer grazedObstacle fullCanvas /\
  checkCollision grazingPlayer grazedObstacle fullCanvas = Collision.mk false jump.
Proof.
  assert (Hx : overlapsX grazingPlayer grazedObstacle).
  { apply xOverlap_iff. vm_compute. reflexivity. }
  assert (Hb : spansBand grazingPlayer grazedObstacle fullCanvas).
  { apply insideBand_iff. vm_compute. reflexivity. }
  refine (conj Hx (conj Hb _)).
  apply (proj1 (proj2 (checkCollision_case_order grazingPlayer grazedObstacle fullCanvas)) Hx).
  apply aboveObstacle_iff. vm_compute. reflexivity.
Defined.

(** ** Unfolding the record updates *)

(** Projections of updated records are reduced from the outside in, so that
    a chain of updates is never unfolded as a whole. *)
Ltac world_simpl := unfold World.player in *; cbn [
  World.upd World.updPlayer World.updTimers
  World.set_gameState World.set_timers World.set_localStorage World.set_draws
  GameState.set_player GameState.set_obstacles GameState.set_powerUps
  GameState.set_score GameState.set_combo GameState.set_comboTimer
  GameState.set_bestScore GameState.set_level GameState.set_isGameOver
  GameState.set_colorChangeOnNextObstacle GameState.set_backgroundOffset
  GameState.set_gameStarted
  Player.set_y Player.set_vy Player.set_color Player.set_isJumping
  Player.set_jumpCount Player.set_shield Player.set_jumpBoost Player.set_lives
  Player.set_invincible
  Obstacle.set_x Obstacle.set_passed Obstacle.set_colorChanged
  PowerUp.set_x PowerUp.set_collected
  Timers.set_spawn Timers.set_powerUpSpawn
  World.gameState World.timers World.isClient World.localStorage World.draws
  GameState.player GameState.obstacles GameState.powerUps GameState.score
  GameState.combo GameState.comboTimer GameState.bestScore GameState.level
  GameState.isGameOver GameState.colorChangeOnNextObstacle
  GameState.backgroundOffset GameState.gameStarted
  Player.x Player.y Player.radius Player.vy Player.color Player.isJumping
  Player.jumpCount Player.shield Player.jumpBoost Player.lives Player.invincible
  Obstacle.x Obstacle.color Obstacle.passed Obstacle.type Obstacle.colorChanged
  PowerUp.x PowerUp.y PowerUp.type PowerUp.collected
  Timers.spawn Timers.colorChange Timers.powerUpSpawn fst snd] in *.

(** Case analysis on every test that the goal still branches on. *)
Ltac split_ifs :=
  repeat match goal with
  | |- context [if ?b then _ else _] =>
      let E := fresh "E" in destruct b eqn:E
  end.

(** ** Field by field: what the obstacle callback changes *)

Section CallbackEffects.

Variable randomSource : nat -> Q.

(** The colour check only touches the pending flag, the draw counter and
    the obstacle's [colorChanged] latch. *)
Lemma colorChangeCheck_world w obstacle :
  let w' := fst (colorChangeCheck randomSource w obstacle) in
  World.player w' = World.player w /\
  GameState.score (World.gameState w') = GameState.score (World.gameState w) /\
  GameState.combo (World.gameState w') = GameState.combo (World.gameState w) /\
  GameState.comboTimer (World.gameState w') = GameState.comboTimer (World.gameState w) /\
  GameState.bestScore (World.gameState w') = GameState.bestScore (World.gameState w) /\
  GameState.isGameOver (World.gameState w') = GameState.isGameOver (World.gameState w) /\
  GameState.gameStarted (World.gameState w') = GameState.gameStarted (World.gameState w) /\
  World.localStorage w' = World.localStorage w.
Proof.
  unfold colorChangeCheck, Math_random. cbv zeta.
  split_ifs; world_simpl; repeat split; reflexivity.
Qed.

Lemma colorChangeCheck_obstacle w obstacle :
  let obstacle' := snd (colorChangeCheck randomSource w obstacle) in
  Obstacle.passed obstacle' = Obstacle.passed obstacle /\
  Obstacle.x obstacle' = Obstacle.x obstacle /\
  Obstacle.color obstacle' = Obstacle.color obstacle /\
  Obstacle.type obstacle' = Obstacle.type obstacle /\
  (Obstacle.colorChanged obstacle = true -> Obstacle.colorChanged obstacle' = true).
Proof.
  unfold colorChangeCheck, Math_random. cbv zeta.
  split_ifs; world_simpl; repeat split; try reflexivity; intro; assumption.
Qed.

(** The callback in terms of its two blocks. *)
Lemma obstacleCallback_unfold canvas currentSpeed w obstacle :
  obstacleCallback randomSource canvas currentSpeed w obstacle =
  let r := resolveCollision canvas w (advance currentSpeed obstacle) in
  if snd r then (fst (fst r), snd (fst r))
  else colorChangeCheck randomSource (fst (fst r)) (snd (fst r)).
Proof.
  unfold obstacleCallback.
  destruct (resolveCollision canvas w (advance currentSpeed obstacle)) as [[w1 o1] b].
  reflexivity.
Qed.


(** Lives, invincibility, shield and game over after the collision
    response. *)
Lemma resolveCollision_lives canvas w obstacle :
  let w' := fst (fst (resolveCollision canvas w obstacle)) in
  let lost := lifeLost canvas w obstacle in
  Player.lives (World.player w') =
    (if lost then Player.lives (World.player w) - 1 else Player.lives (World.player w)) /\
  Player.invincible (World.player w') =
    (if lost then 120 else Player.invincible (World.player w)) /\
  GameState.isGameOver (World.gameState w') =
    (GameState.isGameOver (World.gameState w) ||
     (lost && (Player.lives (World.player w) - 1 <=? 0))) /\
  Player.shield (World.player w') =
    (if damageEvent canvas w obstacle && (Player.shield (World.player w) >? 0)
     then 0 else Player.shield (World.player w)) /\
  Player.jumpCount (World.player w') = Player.jumpCount (World.player w) /\
  Player.x (World.player w') = Player.x (World.player w) /\
  Player.radius (World.player w') = Player.radius (World.player w) /\
  Player.color (World.player w') = Player.color (World.player w) /\
  GameState.gameStarted (World.gameState w') = GameState.gameStarted (World.gameState w).
Proof.
  unfold resolveCollision, lifeLost, damageEvent, hits, sameColor, saveBestScore.
  cbv zeta.
  destruct (passThroughHit (checkCollision (World.player w) obstacle canvas));
    destruct (Player.color (World.player w) =? Obstacle.color obstacle)%string;
    destruct (Player.invincible (World.player w) <=? 0);
    destruct (Player.shield (World.player w) >? 0);
    cbn [andb negb]; split_ifs; world_simpl;
    cbn [andb]; rewrite ?E; rewrite ?orb_false_r, ?orb_true_r; repeat split; reflexivity.
Qed.

(** Score and [passed] flag after the collision response: a passed obstacle
    stays passed and adds nothing; the score moves only together with the
    flag going from false to true. *)
Lemma resolveCollision_score canvas w obstacle :
  let w' := fst (fst (resolveCollision canvas w obstacle)) in
  let obstacle' := snd (fst (resolveCollision canvas w obstacle)) in
  (Obstacle.passed obstacle = true ->
     Obstacle.passed obstacle' = true /\
     GameState.score (World.gameState w') = GameState.score (World.gameState w)) /\
  (GameState.score (World.gameState w') <> GameState.score (World.gameState w) ->
     Obstacle.passed obstacle = false /\ Obstacle.passed obstacle' = true) /\
  Obstacle.x obstacle' = Obstacle.x obstacle /\
  Obstacle.color obstacle' = Obstacle.color obstacle /\
  Obstacle.type obstacle' = Obstacle.type obstacle /\
  Obstacle.colorChanged obstacle' = Obstacle.colorChanged obstacle.
Proof.
  unfold resolveCollision, saveBestScore. cbv zeta.
  destruct (Obstacle.passed obstacle) eqn:Hp; cbn [negb];
    split_ifs; world_simpl;
    repeat split; try reflexivity; try assumption; try congruence;
    intros; try discriminate; try congruence.
Qed.

(** The same facts for the whole callback. *)
Lemma obstacleCallback_score canvas currentSpeed w obstacle :
  let w' := fst (obstacleCallback randomSource canvas currentSpeed w obstacle) in
  let obstacle' := snd (obstacleCallback randomSource canvas currentSpeed w obstacle) in
  (Obstacle.passed obstacle = true ->
     Obstacle.passed obstacle' = true /\
     GameState.score (World.gameState w') = GameState.score (World.gameState w)) /\
  (GameState.score (World.gameState w') <> GameState.score (World.gameState w) ->
     Obstacle.passed obstacle = false /\ Obstacle.passed obstacle' = true).
Proof.
  cbv zeta. rewrite obstacleCallback_unfold. cbv zeta.
  pose proof (resolveCollision_score canvas w (advance currentSpeed obstacle)) as H.
  cbv zeta in H. destruct H as (H1 & H2 & _).
  change (Obstacle.passed (advance currentSpeed obstacle))
    with (Obstacle.passed obstacle) in *.
  destruct (resolveCollision canvas w (advance currentSpeed obstacle)) as [[w1 o1] ret].
  cbn [fst snd] in *.
  destruct ret; cbn [fst snd]; [tauto | ].
  destruct (colorChangeCheck_world w1 o1) as (_ & Hs & _).
  destruct (colorChangeCheck_obstacle w1 o1) as (Hp & _).
  rewrite Hs, Hp. tauto.
Qed.


Lemma obstacleCallback_lives canvas currentSpeed w obstacle :
  let w' := fst (obstacleCallback randomSource canvas currentSpeed w obstacle) in
  let lost := lifeLost canvas w (advance currentSpeed obstacle) in
  Player.lives (World.player w') =
    (if lost then Player.lives (World.player w) - 1 else Player.lives (World.player w)) /\
  Player.invincible (World.player w') =
    (if lost then 120 else Player.invincible (World.player w)) /\
  GameState.isGameOver (World.gameState w') =
    (GameState.isGameOver (World.gameState w) ||
     (lost && (Player.lives (World.player w) - 1 <=? 0))) /\
  Player.jumpCount (World.player w') = Player.jumpCount (World.player w) /\
  GameState.gameStarted (World.gameState w') = GameState.gameStarted (World.gameState w).
Proof.
  cbv zeta. rewrite obstacleCallback_unfold. cbv zeta.
  pose proof (resolveCollision_lives canvas w (advance currentSpeed obstacle)) as H.
  cbv zeta in H. destruct H as (Hl & Hi & Hg & _ & Hj & _ & _ & _ & Hs).
  destruct (resolveCollision canvas w (advance currentSpeed obstacle)) as [[w1 o1] ret].
  cbn [fst snd] in *.
  destruct ret; cbn [fst snd]; [tauto | ].
  destruct (colorChangeCheck_world w1 o1) as (Hp & _ & _ & _ & _ & Hgo & Hgs & _).
  rewrite Hp, Hgo, Hgs. tauto.
Qed.

End CallbackEffects.

(** ** The phases of a frame, field by field *)

Section Phases.

Variable randomSource : nat -> Q.

Lemma scrollBackground_keeps canvas w :
  let w' := scrollBackground canvas w in
  World.player w' = World.player w /\
  GameState.obstacles (World.gameState w') = GameState.obstacles (World.gameState w) /\
  GameState.powerUps (World.gameState w') = GameState.powerUps (World.gameState w) /\
  GameState.score (World.gameState w') = GameState.score (World.gameState w) /\
  GameState.combo (World.gameState w') = GameState.combo (World.gameState w) /\
  GameState.comboTimer (World.gameState w') = GameState.comboTimer (World.gameState w) /\
  GameState.isGameOver (World.gameState w') = GameState.isGameOver (World.gameState w) /\
  GameState.gameStarted (World.gameState w') = GameState.gameStarted (World.gameState w) /\
  World.timers w' = World.timers w.
Proof.
  unfold scrollBackground. cbv zeta. split_ifs; world_simpl; repeat split; reflexivity.
Qed.

Lemma updatePhysics_keeps canvas w :
  let w' := updatePhysics canvas w in
  Player.lives (World.player w') = Player.lives (World.player w) /\
  Player.invincible (World.player w') = Player.invincible (World.player w) /\
  Player.shield (World.player w') = Player.shield (World.player w) /\
  Player.color (World.player w') = Player.color (World.player w) /\
  (Player.jumpCount (World.player w') = 0 \/
   Player.jumpCount (World.player w') = Player.jumpCount (World.player w)) /\
  GameState.obstacles (World.gameState w') = GameState.obstacles (World.gameState w) /\
  GameState.powerUps (World.gameState w') = GameState.powerUps (World.gameState w) /\
  GameState.score (World.gameState w') = GameState.score (World.gameState w) /\
  GameState.combo (World.gameState w') = GameState.combo (World.gameState w) /\
  GameState.comboTimer (World.gameState w') = GameState.comboTimer (World.gameState w) /\
  GameState.isGameOver (World.gameState w') = GameState.isGameOver (World.gameState w) /\
  GameState.gameStarted (World.gameState w') = GameState.gameStarted (World.gameState w) /\
  World.timers w' = World.timers w.
Proof.
  unfold updatePhysics. cbv zeta. split_ifs; world_simpl;
    repeat split; try reflexivity; (left; reflexivity) || (right; reflexivity).
Qed.

Lemma updateLevel_keeps w :
  let w' := updateLevel w in
  World.player w' = World.player w /\
  GameState.level (World.gameState w') = GameState.score (World.gameState w) / 100 + 1 /\
  GameState.obstacles (World.gameState w') = GameState.obstacles (World.gameState w) /\
  GameState.powerUps (World.gameState w') = GameState.powerUps (World.gameState w) /\
  GameState.score (World.gameState w') = GameState.score (World.gameState w) /\
  GameState.combo (World.gameState w') = GameState.combo (World.gameState w) /\
  GameState.comboTimer (World.gameState w') = GameState.comboTimer (World.gameState w) /\
  GameState.isGameOver (World.gameState w') = GameState.isGameOver (World.gameState w) /\
  GameState.gameStarted (World.gameState w') = GameState.gameStarted (World.gameState w) /\
  World.timers w' = World.timers w.
Proof.
  unfold updateLevel. cbv zeta. world_simpl. repeat split; reflexivity.
Qed.

Lemma beforePasses_keeps canvas w :
  let w' := beforePasses canvas w in
  Player.lives (World.player w') = Player.lives (World.player w) /\
  Player.invincible (World.player w') = Player.invincible (World.player w) /\
  Player.shield (World.player w') = Player.shield (World.player w) /\
  Player.color (World.player w') = Player.color (World.player w) /\
  (Player.jumpCount (World.player w') = 0 \/
   Player.jumpCount (World.player w') = Player.jumpCount (World.player w)) /\
  GameState.level (World.gameState w') = GameState.score (World.gameState w) / 100 + 1 /\
  GameState.obstacles (World.gameState w') = GameState.obstacles (World.gameState w) /\
  GameState.powerUps (World.gameState w') = GameState.powerUps (World.gameState w) /\
  GameState.score (World.gameState w') = GameState.score (World.gameState w) /\
  GameState.combo (World.gameState w') = GameState.combo (World.gameState w) /\
  GameState.comboTimer (World.gameState w') = GameState.comboTimer (World.gameState w) /\
  GameState.isGameOver (World.gameState w') = GameState.isGameOver (World.gameState w) /\
  GameState.gameStarted (World.gameState w') = GameState.gameStarted (World.gameState w) /\
  World.timers w' = World.timers w.
Proof.
  cbv zeta. unfold beforePasses.
  pose proof (scrollBackground_keeps canvas w) as Hs.
  pose proof (updatePhysics_keeps canvas (scrollBackground canvas w)) as Hp.
  pose proof (updateLevel_keeps (updatePhysics canvas (scrollBackground canvas w))) as Hl.
  cbv zeta in Hs, Hp, Hl.
  destruct Hs as (S1 & S2 & S3 & S4 & S5 & S6 & S7 & S8 & S9).
  destruct Hp as (P1 & P2 & P3 & P4 & P5 & P6 & P7 & P8 & P9 & P10 & P11 & P12 & P13).
  destruct Hl as (L1 & L2 & L3 & L4 & L5 & L6 & L7 & L8 & L9 & L10).
  rewrite L1, L2, L3, L4, L5, L6, L7, L8, L9, L10.
  rewrite P1, P2, P3, P4, P6, P7, P8, P9, P10, P11, P12, P13.
  rewrite S1, S2, S3, S4, S5, S6, S7, S8, S9.
  repeat split; try reflexivity.
  rewrite <- S1. exact P5.
Qed.

(** A started frame is the two passes from [beforePasses] followed by
    [endOfTick]. *)
Lemma gameLoop_started canvas w :
  GameState.gameStarted (World.gameState w) = true ->
  gameLoop randomSource canvas w =
  let start := beforePasses canvas w in
  let afterObstacles := obstaclePass randomSource canvas (frameSpeed w) start in
  let afterPowerUps := powerUpPass (frameSpeed w) (fst afterObstacles) in
  endOfTick randomSource canvas (snd afterObstacles) (snd afterPowerUps)
            (fst afterPowerUps).
Proof.
  intro Hs. unfold gameLoop, beforePasses, frameSpeed. cbv zeta.
  destruct (scrollBackground_keeps canvas w) as (_ & _ & _ & Hsc & _ & _ & _ & Hgs & _).
  destruct (updatePhysics_keeps canvas (scrollBackground canvas w))
    as (_ & _ & _ & _ & _ & _ & _ & Hsc2 & _).
  rewrite Hgs, Hs. cbn [negb]. rewrite Hsc2, Hsc.
  destruct (obstaclePass randomSource canvas
              (currentSpeedOf (GameState.score (World.gameState w)))
              (updateLevel (updatePhysics canvas (scrollBackground canvas w))))
    as [w1 os].
  cbn [fst snd].
  destruct (powerUpPass (currentSpeedOf (GameState.score (World.gameState w))) w1)
    as [w2 pus].
  reflexivity.
Qed.

Lemma gameLoop_title canvas w :
  GameState.gameStarted (World.gameState w) = false ->
  gameLoop randomSource canvas w = scrollBackground canvas w.
Proof.
  intro Hs. unfold gameLoop. cbv zeta.
  destruct (scrollBackground_keeps canvas w) as (_ & _ & _ & _ & _ & _ & _ & Hgs & _).
  rewrite Hgs, Hs. reflexivity.
Qed.

(** *** The power-up pass *)

Lemma applyPowerUp_keeps type w :
  let w' := applyPowerUp type w in
  (Player.lives (World.player w') = Player.lives (World.player w) \/
   Player.lives (World.player w) < 3 /\
   Player.lives (World.player w') = Player.lives (World.player w) + 1) /\
  Player.jumpCount (World.player w') = Player.jumpCount (World.player w) /\
  Player.invincible (World.player w') = Player.invincible (World.player w) /\
  GameState.isGameOver (World.gameState w') = GameState.isGameOver (World.gameState w) /\
  GameState.gameStarted (World.gameState w') = GameState.gameStarted (World.gameState w) /\
  comboLedger w' = comboLedger w /\
  spawnView w' = spawnView w.
Proof.
  unfold applyPowerUp, comboLedger, spawnView. cbv zeta.
  destruct type; split_ifs; world_simpl; repeat split; try reflexivity;
    try (left; reflexivity).
  right. split; [apply Z.ltb_lt; exact E | reflexivity].
Qed.

Lemma powerUpCallback_keeps currentSpeed w powerUp :
  let w' := fst (powerUpCallback currentSpeed w powerUp) in
  (Player.lives (World.player w') = Player.lives (World.player w) \/
   Player.lives (World.player w) < 3 /\
   Player.lives (World.player w') = Player.lives (World.player w) + 1) /\
  Player.jumpCount (World.player w') = Player.jumpCount (World.player w) /\
  Player.invincible (World.player w') = Player.invincible (World.player w) /\
  GameState.isGameOver (World.gameState w') = GameState.isGameOver (World.gameState w) /\
  GameState.gameStarted (World.gameState w') = GameState.gameStarted (World.gameState w) /\
  comboLedger w' = comboLedger w /\
  spawnView w' = spawnView w.
Proof.
  unfold powerUpCallback. cbv zeta.
  destruct (checkPowerUpCollision (World.player w)
              (PowerUp.set_x (PowerUp.x powerUp - currentSpeed)%Q powerUp) &&
            negb (PowerUp.collected
                    (PowerUp.set_x (PowerUp.x powerUp - currentSpeed)%Q powerUp))).
  - cbn [fst]. apply applyPowerUp_keeps.
  - cbn [fst]. repeat split; try reflexivity. left; reflexivity.
Qed.

(** Folding an invariant through the two passes. *)
Lemma forEachPowerUp_invariant (P : World.t -> Prop) currentSpeed :
  (forall w powerUp, P w -> P (fst (powerUpCallback currentSpeed w powerUp))) ->
  forall powerUps w, P w -> P (fst (forEachPowerUp currentSpeed w powerUps)).
Proof.
  intros Hstep powerUps. induction powerUps as [|u rest IH]; intros w Hw.
  - exact Hw.
  - cbn [forEachPowerUp].
    pose proof (Hstep w u Hw) as H1.
    destruct (powerUpCallback currentSpeed w u) as [w1 u1]. cbn [fst] in H1.
    pose proof (IH w1 H1) as H2.
    destruct (forEachPowerUp currentSpeed w1 rest) as [w2 rest']. exact H2.
Qed.

Lemma forEachObstacle_invariant (P : World.t -> Prop) canvas currentSpeed :
  (forall w obstacle,
     P w -> P (fst (obstacleCallback randomSource canvas currentSpeed w obstacle))) ->
  forall obstacles w,
    P w -> P (fst (forEachObstacle randomSource canvas currentSpeed w obstacles)).
Proof.
  intros Hstep obstacles. induction obstacles as [|o rest IH]; intros w Hw.
  - exact Hw.
  - cbn [forEachObstacle].
    pose proof (Hstep w o Hw) as H1.
    destruct (obstacleCallback randomSource canvas currentSpeed w o) as [w1 o1].
    cbn [fst] in H1.
    pose proof (IH w1 H1) as H2.
    destruct (forEachObstacle randomSource canvas currentSpeed w1 rest) as [w2 rest'].
    exact H2.
Qed.

(** *** The end of the frame *)

Lemma prune_keeps obstacles powerUps w :
  let w' := prune obstacles powerUps w in
  World.player w' = World.player w /\
  vitals w' = vitals w /\ comboLedger w' = comboLedger w /\
  spawnView w' =
    (filter onScreen obstacles, Timers.spawn (World.timers w),
     GameState.level (World.gameState w)) /\
  GameState.colorChangeOnNextObstacle (World.gameState w') =
    GameState.colorChangeOnNextObstacle (World.gameState w).
Proof.
  unfold prune, vitals, comboLedger, spawnView. cbv zeta. world_simpl.
  repeat split; reflexivity.
Qed.

Lemma spawnObstacle_keeps canvas w :
  let w' := spawnObstacle randomSource canvas w in
  World.player w' = World.player w /\
  vitals w' = vitals w /\ comboLedger w' = comboLedger w /\
  World.timers w' = World.timers w /\
  GameState.level (World.gameState w') = GameState.level (World.gameState w) /\
  GameState.colorChangeOnNextObstacle (World.gameState w') =
    GameState.colorChangeOnNextObstacle (World.gameState w) /\
  exists color type,
    GameState.obstacles (World.gameState w') =
    GameState.obstacles (World.gameState w) ++
      [Obstacle.mk (Canvas.width canvas) color false type false].
Proof.
  unfold spawnObstacle, Math_random, vitals, comboLedger. cbv zeta. world_simpl.
  repeat split; try reflexivity.
  eexists. eexists. reflexivity.
Qed.

Lemma obstacleSpawnTick_keeps canvas w :
  let w' := obstacleSpawnTick randomSource canvas w in
  World.player w' = World.player w /\
  vitals w' = vitals w /\ comboLedger w' = comboLedger w /\
  GameState.level (World.gameState w') = GameState.level (World.gameState w) /\
  GameState.colorChangeOnNextObstacle (World.gameState w') =
    GameState.colorChangeOnNextObstacle (World.gameState w) /\
  (if Timers.spawn (World.timers w) + 1 >?
      spawnThreshold (GameState.level (World.gameState w))
   then
     Timers.spawn (World.timers w') = 0 /\
     exists color type,
       GameState.obstacles (World.gameState w') =
       GameState.obstacles (World.gameState w) ++
         [Obstacle.mk (Canvas.width canvas) color false type false]
   else
     Timers.spawn (World.timers w') = Timers.spawn (World.timers w) + 1 /\
     GameState.obstacles (World.gameState w') = GameState.obstacles (World.gameState w)).
Proof.
  unfold obstacleSpawnTick. cbv zeta.
  set (w1 := World.updTimers (fun m => Timers.set_spawn (Timers.spawn m + 1) m) w).
  assert (H1 : World.player w1 = World.player w /\ vitals w1 = vitals w /\
               comboLedger w1 = comboLedger w /\
               GameState.level (World.gameState w1) = GameState.level (World.gameState w) /\
               GameState.colorChangeOnNextObstacle (World.gameState w1) =
                 GameState.colorChangeOnNextObstacle (World.gameState w) /\
               Timers.spawn (World.timers w1) = Timers.spawn (World.timers w) + 1 /\
               GameState.obstacles (World.gameState w1) =
                 GameState.obstacles (World.gameState w)).
  { unfold w1, vitals, comboLedger. world_simpl. repeat split; reflexivity. }
  destruct H1 as (A1 & A2 & A3 & A4 & A5 & A6 & A7).
  rewrite A6, A4.
  destruct (Timers.spawn (World.timers w) + 1 >?
            spawnThreshold (GameState.level (World.gameState w))).
  - destruct (spawnObstacle_keeps canvas w1) as (B1 & B2 & B3 & B4 & B5 & B6 & c & t & B7).
    unfold vitals, comboLedger in *. world_simpl.
    rewrite B7, A7.
    repeat split; try congruence.
    exists c, t. reflexivity.
  - repeat split; assumption.
Qed.

Lemma powerUpSpawnTick_keeps canvas w :
  let w' := powerUpSpawnTick randomSource canvas w in
  World.player w' = World.player w /\
  vitals w' = vitals w /\ comboLedger w' = comboLedger w /\
  spawnView w' = spawnView w /\
  GameState.colorChangeOnNextObstacle (World.gameState w') =
    GameState.colorChangeOnNextObstacle (World.gameState w).
Proof.
  unfold powerUpSpawnTick, spawnPowerUp, Math_random, vitals, comboLedger, spawnView.
  cbv zeta. split_ifs; world_simpl; repeat split; reflexivity.
Qed.

Lemma applyColorChange_keeps w :
  let w' := applyColorChange randomSource w in
  vitals w' = vitals w /\ comboLedger w' = comboLedger w /\
  spawnView w' = spawnView w /\
  Player.invincible (World.player w') = Player.invincible (World.player w).
Proof.
  unfold applyColorChange, Math_random, vitals, comboLedger, spawnView.
  cbv zeta. split_ifs; world_simpl; repeat split; reflexivity.
Qed.

Lemma ageTimers_keeps w :
  let w' := ageTimers w in
  vitals w' = vitals w /\ comboLedger w' = comboLedger w /\
  spawnView w' = spawnView w /\
  Player.color (World.player w') = Player.color (World.player w).
Proof.
  unfold ageTimers, vitals, comboLedger, spawnView.
  cbv zeta. split_ifs; world_simpl; repeat split; reflexivity.
Qed.

Lemma comboDecay_keeps w :
  let w' := comboDecay w in
  vitals w' = vitals w /\ spawnView w' = spawnView w /\
  World.player w' = World.player w /\
  comboLedger w' =
    (if GameState.comboTimer (World.gameState w) >? 0
     then (GameState.combo (World.gameState w),
           GameState.comboTimer (World.gameState w) - 1)
     else (0, GameState.comboTimer (World.gameState w))).
Proof.
  unfold comboDecay, vitals, comboLedger, spawnView.
  cbv zeta. split_ifs; world_simpl; repeat split; reflexivity.
Qed.

(** The end of the frame leaves lives, jump count, game over and started
    flags alone; it runs the combo decay on the combo it receives; and it
    rules the spawn counter and the obstacle list. *)
Lemma endOfTick_effect canvas obstacles powerUps w :
  let w' := endOfTick randomSource canvas obstacles powerUps w in
  let level := GameState.level (World.gameState w) in
  vitals w' = vitals w /\
  comboLedger w' =
    (if GameState.comboTimer (World.gameState w) >? 0
     then (GameState.combo (World.gameState w),
           GameState.comboTimer (World.gameState w) - 1)
     else (0, GameState.comboTimer (World.gameState w))) /\
  GameState.level (World.gameState w') = level /\
  (if Timers.spawn (World.timers w) + 1 >? spawnThreshold level
   then
     Timers.spawn (World.timers w') = 0 /\
     exists color type,
       GameState.obstacles (World.gameState w') =
       filter onScreen obstacles ++
         [Obstacle.mk (Canvas.width canvas) color false type false]
   else
     Timers.spawn (World.timers w') = Timers.spawn (World.timers w) + 1 /\
     GameState.obstacles (World.gameState w') = filter onScreen obstacles).
Proof.
  unfold endOfTick. cbv zeta.
  set (w1 := prune obstacles powerUps w).
  set (w2 := obstacleSpawnTick randomSource canvas w1).
  set (w3 := powerUpSpawnTick randomSource canvas w2).
  set (w4 := applyColorChange randomSource w3).
  set (w5 := ageTimers w4).
  destruct (prune_keeps obstacles powerUps w) as (_ & A1 & A2 & A3 & _).
  destruct (obstacleSpawnTick_keeps canvas w1) as (_ & B1 & B2 & B3 & _ & B4).
  destruct (powerUpSpawnTick_keeps canvas w2) as (_ & C1 & C2 & C3 & _).
  destruct (applyColorChange_keeps w3) as (D1 & D2 & D3 & _).
  destruct (ageTimers_keeps w4) as (E1 & E2 & E3 & _).
  destruct (comboDecay_keeps w5) as (F1 & F3 & _ & F2).
  fold w1 in A1, A2, A3. fold w2 in B1, B2, B3, B4.
  fold w3 in C1, C2, C3. fold w4 in D1, D2, D3. fold w5 in E1, E2, E3.
  clearbody w1 w2 w3 w4 w5.
  assert (Hv : vitals (comboDecay w5) = vitals w) by congruence.
  assert (Hc : comboLedger w5 = comboLedger w) by congruence.
  assert (Hs : spawnView (comboDecay w5) = spawnView w2) by congruence.
  unfold comboLedger in Hc. apply pair_equal_spec in Hc. destruct Hc as [Hc1 Hc2].
  unfold spawnView in Hs, A3.
  apply pair_equal_spec in Hs. destruct Hs as [Hs Hs3].
  apply pair_equal_spec in Hs. destruct Hs as [Hs1 Hs2].
  apply pair_equal_spec in A3. destruct A3 as [A3 A33].
  apply pair_equal_spec in A3. destruct A3 as [A31 A32].
  rewrite F2, Hc1, Hc2, Hs1, Hs2, Hs3, B3, A33.
  rewrite A32, A33, A31 in B4.
  split; [exact Hv | ]. split; [reflexivity | ]. split; [reflexivity | ].
  exact B4.
Qed.

End Phases.

(** ** Lives and jump count stay in range *)

Section Bounds.

Variable randomSource : nat -> Q.

Lemma lifeLost_not_invincible canvas w obstacle :
  lifeLost canvas w obstacle = true -> Player.invincible (World.player w) <= 0.
Proof.
  unfold lifeLost, damageEvent. intro H.
  apply andb_true_iff in H. destruct H as [H _].
  apply andb_true_iff in H. destruct H as [_ H].
  apply Z.leb_le. exact H.
Qed.

Lemma obstacleCallback_passInvariant canvas currentSpeed w obstacle :
  passInvariant w ->
  passInvariant (fst (obstacleCallback randomSource canvas currentSpeed w obstacle)).
Proof.
  unfold passInvariant, livesInRange, jumpCountInRange.
  intros (Hl & Hj & Hz & Hs).
  pose proof (obstacleCallback_lives randomSource canvas currentSpeed w obstacle) as H.
  cbv zeta in H. destruct H as (El & Ei & Eg & Ej & Es).
  rewrite El, Ei, Eg, Ej, Es.
  destruct (lifeLost canvas w (advance currentSpeed obstacle)) eqn:Hlost.
  - apply lifeLost_not_invincible in Hlost.
    assert (Player.lives (World.player w) <> 0) by (intro H0; apply Hz in H0; lia).
    cbn [andb]. repeat split; try lia; try assumption.
  - cbn [andb]. rewrite orb_false_r.
    (split; [lia | ]); (split; [assumption | ]); (split; [ | assumption]).
    exact Hz.
Qed.

Lemma powerUpCallback_passInvariant currentSpeed w powerUp :
  passInvariant w -> passInvariant (fst (powerUpCallback currentSpeed w powerUp)).
Proof.
  unfold passInvariant, livesInRange, jumpCountInRange.
  intros (Hl & Hj & Hz & Hs).
  pose proof (powerUpCallback_keeps currentSpeed w powerUp) as H.
  cbv zeta in H. destruct H as (El & Ej & Ei & Eg & Es & _ & _).
  rewrite Ej, Ei, Eg, Es.
  destruct El as [El | [Hlt El]]; rewrite El;
    (split; [lia | ]); (split; [assumption | ]); (split; [ | assumption]);
    intro H0; try lia; apply Hz; exact H0.
Qed.

Lemma obstacleCallback_atMostOneLifeLost lives invincible canvas currentSpeed w obstacle :
  atMostOneLifeLost lives invincible w ->
  atMostOneLifeLost lives invincible
    (fst (obstacleCallback randomSource canvas currentSpeed w obstacle)).
Proof.
  unfold atMostOneLifeLost. intro H.
  pose proof (obstacleCallback_lives randomSource canvas currentSpeed w obstacle) as E.
  cbv zeta in E. destruct E as (El & Ei & _).
  rewrite El, Ei.
  destruct (lifeLost canvas w (advance currentSpeed obstacle)) eqn:Hlost.
  - apply lifeLost_not_invincible in Hlost.
    destruct H as [[H1 H2] | [H1 H2]]; [right; split; [lia | reflexivity] | lia].
  - exact H.
Qed.

Lemma resetGame_sessionInvariant w : sessionInvariant (resetGame w).
Proof.
  unfold sessionInvariant, livesInRange, jumpCountInRange, resetGame,
    createInitialGameState.
  world_simpl. split; [lia | ]. split; [lia | ]. split; intro; [discriminate | reflexivity].
Qed.

Lemma handleJump_sessionInvariant w :
  sessionInvariant w -> sessionInvariant (handleJump w).
Proof.
  unfold sessionInvariant, livesInRange, jumpCountInRange, handleJump, startGame.
  intros (Hl & Hj & Hz & Hs). cbv zeta.
  destruct (GameState.gameStarted (World.gameState w)) eqn:Hst; cbn [negb].
  - destruct (GameState.isGameOver (World.gameState w)) eqn:Hgo.
    + rewrite Hst, Hgo. tauto.
    + destruct (Player.jumpCount (World.player w) <? 2) eqn:Hjc.
      * apply Z.ltb_lt in Hjc. world_simpl.
        split; [lia | ]. split; [lia | ].
        split; [rewrite Hgo; exact Hz | intro; congruence].
      * rewrite Hst, Hgo. tauto.
  - world_simpl.
    split; [lia | ]. split; [lia | ]. split; [tauto | intro; discriminate].
Qed.

Lemma gameLoop_sessionInvariant canvas w :
  sessionInvariant w ->
  GameState.isGameOver (World.gameState w) = false ->
  sessionInvariant (gameLoop randomSource canvas w).
Proof.
  intros (Hl & Hj & Hz & Hs) Hgo.
  destruct (GameState.gameStarted (World.gameState w)) eqn:Hst.
  - rewrite gameLoop_started by exact Hst. cbv zeta.
    pose proof (beforePasses_keeps canvas w) as Hb. cbv zeta in Hb.
    destruct Hb as (B1 & B2 & _ & _ & B3 & _ & _ & _ & _ & _ & _ & B4 & B5 & _).
    set (start := beforePasses canvas w) in *.
    assert (Hstart : passInvariant start).
    { unfold passInvariant, livesInRange, jumpCountInRange in *.
      rewrite B1, B2, B4, B5.
      split; [lia | ]. split; [destruct B3; lia | ].
      split; intro H0; [apply Hz in H0 | ]; congruence. }
    unfold obstaclePass, powerUpPass.
    set (os := GameState.obstacles (World.gameState start)).
    pose proof (forEachObstacle_invariant randomSource passInvariant canvas (frameSpeed w)
                  (fun w0 o => obstacleCallback_passInvariant canvas (frameSpeed w) w0 o)
                  os start Hstart) as H1.
    set (r1 := forEachObstacle randomSource canvas (frameSpeed w) start os) in *.
    set (pus := GameState.powerUps (World.gameState (fst r1))).
    pose proof (forEachPowerUp_invariant passInvariant (frameSpeed w)
                  (fun w0 u => powerUpCallback_passInvariant (frameSpeed w) w0 u)
                  pus (fst r1) H1) as H2.
    set (r2 := forEachPowerUp (frameSpeed w) (fst r1) pus) in *.
    destruct (endOfTick_effect randomSource canvas (snd r1) (snd r2) (fst r2)) as (Hv & _).
    clearbody r2 r1. clear - Hv H2.
    unfold vitals in Hv.
    apply pair_equal_spec in Hv. destruct Hv as [Hv V4].
    apply pair_equal_spec in Hv. destruct Hv as [Hv V3].
    apply pair_equal_spec in Hv. destruct Hv as [V1 V2].
    unfold sessionInvariant, passInvariant, livesInRange, jumpCountInRange in *.
    rewrite V1, V2, V3, V4.
    destruct H2 as (A1 & A2 & A3 & A4).
    split; [exact A1 | ]. split; [exact A2 | ]. split; [ | exact A4].
    intro H0. apply A3. exact H0.
  - rewrite gameLoop_title by exact Hst.
    destruct (scrollBackground_keeps canvas w) as (S1 & _ & _ & _ & _ & _ & S2 & S3 & _).
    unfold sessionInvariant, livesInRange, jumpCountInRange in *.
    rewrite S1, S2, S3. intuition congruence.
Qed.

Lemma reachable_sessionInvariant w :
  reachable randomSource w -> sessionInvariant w.
Proof.
  induction 1 as [w0 | e w Hr IH He].
  - apply resetGame_sessionInvariant.
  - destruct e as [canvas | | ]; cbn [react enabled] in *.
    + apply gameLoop_sessionInvariant; [exact IH | ].
      apply negb_true_iff. exact He.
    + apply handleJump_sessionInvariant. exact IH.
    + apply resetGame_sessionInvariant.
Qed.

Lemma run_reachable events w :
  reachable randomSource w -> reachable randomSource (run randomSource events w).
Proof.
  revert w. induction events as [|e rest IH]; intros w Hw; cbn [run].
  - exact Hw.
  - apply IH. destruct (enabled e w) eqn:He; [ | exact Hw].
    apply reachable_event; assumption.
Qed.

(** C1.  In every reachable state the lives are in [0, 3] and the jump count
    is in [0, 2].  There a jump trigger with jump count 2 changes nothing; a
    life power-up at 3 lives changes nothing; and while the game is not
    over, the obstacle pass of the next frame takes at most one life and
    never brings the lives below 0 (the first loss sets the invincibility
    timer to 120, which blocks further losses in that pass). *)
Theorem lives_and_jumpCount_in_range w :
  reachable randomSource w ->
  0 <= Player.lives (World.player w) <= 3 /\
  0 <= Player.jumpCount (World.player w) <= 2 /\
  (Player.jumpCount (World.player w) = 2 -> handleJump w = w) /\
  (Player.lives (World.player w) = 3 -> applyPowerUp lifeItem w = w) /\
  (GameState.isGameOver (World.gameState w) = false ->
   forall canvas,
     let afterObstacles :=
       fst (obstaclePass randomSource canvas (frameSpeed w) (beforePasses canvas w)) in
     0 <= Player.lives (World.player afterObstacles) /\
     Player.lives (World.player w) - 1 <= Player.lives (World.player afterObstacles) /\
     Player.lives (World.player afterObstacles) <= Player.lives (World.player w) /\
     (Player.lives (World.player afterObstacles) < Player.lives (World.player w) ->
        Player.invincible (World.player afterObstacles) = 120)).
Proof.
  intro Hr. apply reachable_sessionInvariant in Hr.
  destruct Hr as (Hl & Hj & Hz & Hs).
  unfold livesInRange, jumpCountInRange in *.
  split; [exact Hl | ]. split; [exact Hj | ].
  split; [ | split].
  - intro H2. unfold handleJump.
    destruct (GameState.gameStarted (World.gameState w)) eqn:Hst.
    + cbn [negb]. destruct (GameState.isGameOver (World.gameState w)); [reflexivity | ].
      cbv zeta. rewrite H2. reflexivity.
    + specialize (Hs eq_refl). lia.
  - intro H3. unfold applyPowerUp. rewrite H3. reflexivity.
  - intros Hgo canvas. cbv zeta.
    pose proof (beforePasses_keeps canvas w) as Hb. cbv zeta in Hb.
    destruct Hb as (B1 & B2 & _).
    set (start := beforePasses canvas w) in *.
    assert (Hstart : atMostOneLifeLost (Player.lives (World.player w))
                       (Player.invincible (World.player w)) start)
      by (left; split; assumption).
    unfold obstaclePass.
    pose proof (forEachObstacle_invariant randomSource
                  (atMostOneLifeLost (Player.lives (World.player w))
                     (Player.invincible (World.player w)))
                  canvas (frameSpeed w)
                  (fun w0 o => obstacleCallback_atMostOneLifeLost _ _ canvas (frameSpeed w) w0 o)
                  (GameState.obstacles (World.gameState start)) start Hstart) as H.
    assert (Player.lives (World.player w) <> 0)
      by (intro H0; apply Hz in H0; congruence).
    destruct H as [[H1 H2] | [H1 H2]]; rewrite H1; repeat split; lia.
Qed.

End Bounds.

(** After starting the game, one frame and two jumps, the jump count is 2:
    the bounds hold and a third trigger changes nothing. *)
Lemma lives_and_jumpCount_in_range_witness :
  let w := run zeroSource doubleJumpEvents mountedWorld in
  Player.jumpCount (World.player w) = 2 /\
  0 <= Player.lives (World.player w) <= 3 /\
  handleJump w = w.
Proof.
  intro w.
  pose proof (lives_and_jumpCount_in_range zeroSource w
                (run_reachable zeroSource doubleJumpEvents mountedWorld
                   (reachable_mount zeroSource _))) as H.
  destruct H as (Hl & _ & Hj & _).
  assert (H2 : Player.jumpCount (World.player w) = 2) by (vm_compute; reflexivity).
  exact (conj H2 (conj Hl (Hj H2))).
Defined.

(** ** The branches of the obstacle callback *)

Section Callback.

Variable randomSource : nat -> Q.

(** A hit needs x-overlap, and an obstacle that overlaps the player in x is
    not yet behind it: the colour check of lines 751-767 does nothing on the
    frame of a hit. *)
Lemma passThroughHit_overlaps player obstacle canvas :
  passThroughHit (checkCollision player obstacle canvas) = true ->
  overlapsX player obstacle.
Proof.
  unfold passThroughHit, checkCollision. intro H. apply xOverlap_iff.
  destruct (xOverlap player obstacle); [reflexivity | discriminate H].
Qed.

Lemma overlapsX_not_behind player obstacle :
  overlapsX player obstacle -> behindPlayer player obstacle = false.
Proof.
  unfold overlapsX, behindPlayer. intros [_ H].
  apply Qlt_bool_false_iff. lra.
Qed.

Lemma colorChangeCheck_not_behind w obstacle :
  behindPlayer (World.player w) obstacle = false ->
  colorChangeCheck randomSource w obstacle = (w, obstacle).
Proof.
  intro H. unfold colorChangeCheck. rewrite H, andb_false_r. reflexivity.
Qed.

(** [checkCollision] reports a hit only with type [pass]: the test of the
    callback is the [hit] flag. *)
Lemma passThroughHit_iff_hit player obstacle canvas :
  passThroughHit (checkCollision player obstacle canvas) =
  Collision.hit (checkCollision player obstacle canvas).
Proof.
  unfold passThroughHit, checkCollision.
  destruct (xOverlap player obstacle), (aboveObstacle player obstacle canvas),
    (insideBand player obstacle canvas); reflexivity.
Qed.

(** The same-colour branch (lines 661-687).  When a not-yet-passed
    obstacle, moved by this frame's speed, registers a pass-through hit and
    has the player's colour, its callback adds to the score the base
    (10 normal, 15 tall, 20 bonus) plus floor(combo / 5) * 5, adds 1 to the
    combo, sets the combo timer to COMBO_TIMEOUT and sets the obstacle's
    [passed] flag. *)
Lemma obstacleCallback_same_color_pass canvas currentSpeed w obstacle :
  passThroughHit
    (checkCollision (World.player w) (advance currentSpeed obstacle) canvas) = true ->
  Player.color (World.player w) = Obstacle.color obstacle ->
  Obstacle.passed obstacle = false ->
  let w' := fst (obstacleCallback randomSource canvas currentSpeed w obstacle) in
  let obstacle' := snd (obstacleCallback randomSource canvas currentSpeed w obstacle) in
  let base := match Obstacle.type obstacle with
              | normal => 10 | tall => 15 | bonus => 20
              end in
  GameState.score (World.gameState w') =
    GameState.score (World.gameState w) + base +
    GameState.combo (World.gameState w) / 5 * 5 /\
  GameState.combo (World.gameState w') = GameState.combo (World.gameState w) + 1 /\
  GameState.comboTimer (World.gameState w') = GAME_CONFIG.COMBO_TIMEOUT /\
  GameState.comboTimer (World.gameState w') = 600 /\
  Obstacle.passed obstacle' = true.
Proof.
  intros Hhit Hcolor Hpassed.
  pose proof (overlapsX_not_behind _ _ (passThroughHit_overlaps _ _ _ Hhit)) as Hb.
  unfold obstacleCallback, resolveCollision.
  rewrite Hhit. cbn [andb].
  replace (Obstacle.color (advance currentSpeed obstacle)) with (Obstacle.color obstacle)
    by reflexivity.
  rewrite Hcolor, String.eqb_refl.
  replace (Obstacle.passed (advance currentSpeed obstacle)) with (Obstacle.passed obstacle)
    by reflexivity.
  rewrite Hpassed. cbn [negb].
  rewrite colorChangeCheck_not_behind by exact Hb.
  unfold baseScorePass, advance. world_simpl.
  destruct (Obstacle.type obstacle); repeat split; try reflexivity; lia.
Qed.


Ltac callback_on_hit Hhit :=
  let Hb := fresh "Hb" in
  pose proof (overlapsX_not_behind _ _ (passThroughHit_overlaps _ _ _ Hhit)) as Hb;
  unfold obstacleCallback, resolveCollision;
  rewrite Hhit; cbn [andb];
  change (Obstacle.color (advance _ ?o)) with (Obstacle.color o);
  change (Obstacle.passed (advance _ ?o)) with (Obstacle.passed o).

(** The shield branch (lines 697-706).  When the player has a shield
    (timer > 0), is not invincible (timer <= 0) and registers a pass-through
    hit on an obstacle of another colour, the callback sets the shield timer
    to 0, leaves the lives as they are, zeroes the combo and the combo
    timer, and, if the obstacle was not passed yet, adds exactly 1 to the
    score and marks the obstacle passed (an obstacle already passed adds
    nothing). *)
Lemma obstacleCallback_shielded_hit canvas currentSpeed w obstacle :
  passThroughHit
    (checkCollision (World.player w) (advance currentSpeed obstacle) canvas) = true ->
  Player.color (World.player w) <> Obstacle.color obstacle ->
  0 < Player.shield (World.player w) ->
  Player.invincible (World.player w) <= 0 ->
  let w' := fst (obstacleCallback randomSource canvas currentSpeed w obstacle) in
  let obstacle' := snd (obstacleCallback randomSource canvas currentSpeed w obstacle) in
  Player.shield (World.player w') = 0 /\
  Player.lives (World.player w') = Player.lives (World.player w) /\
  GameState.isGameOver (World.gameState w') = GameState.isGameOver (World.gameState w) /\
  GameState.combo (World.gameState w') = 0 /\
  GameState.comboTimer (World.gameState w') = 0 /\
  GameState.score (World.gameState w') =
    (if Obstacle.passed obstacle
     then GameState.score (World.gameState w)
     else GameState.score (World.gameState w) + 1) /\
  Obstacle.passed obstacle' = true.
Proof.
  intros Hhit Hcolor Hshield Hinv.
  callback_on_hit Hhit.
  apply String.eqb_neq in Hcolor. rewrite Hcolor. cbn [negb].
  replace (Player.invincible (World.player w) <=? 0) with true
    by (symmetry; apply Z.leb_le; exact Hinv).
  replace (Player.shield (World.player w) >? 0) with true
    by (symmetry; apply Z.gtb_lt; exact Hshield).
  destruct (Obstacle.passed obstacle) eqn:Hp; cbn [negb];
    rewrite colorChangeCheck_not_behind by exact Hb;
    unfold advance; world_simpl; repeat split; try reflexivity; exact Hp.
Qed.


(** C10.  While the invincibility timer is above 0, a pass-through hit on an
    obstacle of another colour leaves the whole world as it is and only
    moves the obstacle: lives, shield timer, combo, combo timer, score and
    the obstacle's [passed] flag keep their values.  An obstacle that was
    not passed stays eligible: when a later frame classifies it [jump] while
    it spans the player's x, it scores the jump-over points. *)
Theorem invincible_hit_changes_nothing canvas currentSpeed w obstacle :
  passThroughHit
    (checkCollision (World.player w) (advance currentSpeed obstacle) canvas) = true ->
  Player.color (World.player w) <> Obstacle.color obstacle ->
  0 < Player.invincible (World.player w) ->
  let w' := fst (obstacleCallback randomSource canvas currentSpeed w obstacle) in
  let obstacle' := snd (obstacleCallback randomSource canvas currentSpeed w obstacle) in
  w' = w /\
  obstacle' = advance currentSpeed obstacle /\
  Player.lives (World.player w') = Player.lives (World.player w) /\
  Player.shield (World.player w') = Player.shield (World.player w) /\
  GameState.combo (World.gameState w') = GameState.combo (World.gameState w) /\
  GameState.comboTimer (World.gameState w') = GameState.comboTimer (World.gameState w) /\
  GameState.score (World.gameState w') = GameState.score (World.gameState w) /\
  Obstacle.passed obstacle' = Obstacle.passed obstacle /\
  (forall canvas2 speed2 w2,
     Obstacle.passed obstacle = false ->
     Collision.type
       (checkCollision (World.player w2) (advance speed2 obstacle') canvas2) = jump ->
     (Obstacle.x (advance speed2 obstacle') < Player.x (World.player w2))%Q ->
     (Player.x (World.player w2) <
        Obstacle.x (advance speed2 obstacle') + GAME_CONFIG.OBSTACLE.WIDTH)%Q ->
     GameState.score
       (World.gameState (fst (obstacleCallback randomSource canvas2 speed2 w2 obstacle'))) =
       GameState.score (World.gameState w2) +
       (match Obstacle.type obstacle with tall => 2 | _ => 1 end) /\
     Obstacle.passed (snd (obstacleCallback randomSource canvas2 speed2 w2 obstacle')) = true).
Proof.
  intros Hhit Hcolor Hinv.
  assert (Hcall : obstacleCallback randomSource canvas currentSpeed w obstacle =
                  (w, advance currentSpeed obstacle)).
  { callback_on_hit Hhit.
    apply String.eqb_neq in Hcolor. rewrite Hcolor. cbn [negb].
    replace (Player.invincible (World.player w) <=? 0) with false
      by (symmetry; apply Z.leb_gt; exact Hinv).
    apply colorChangeCheck_not_behind. exact Hb. }
  rewrite Hcall. cbn [fst snd].
  do 8 (split; [reflexivity | ]).
  intros canvas2 speed2 w2 Hp Hjump Hl Hr.
  set (moved := advance speed2 (advance currentSpeed obstacle)) in *.
  assert (Hx : xOverlap (World.player w2) moved = true).
  { revert Hjump. unfold checkCollision.
    destruct (xOverlap (World.player w2) moved); [reflexivity | cbn; discriminate]. }
  pose proof (overlapsX_not_behind _ _ (proj1 (xOverlap_iff _ _) Hx)) as Hnb.
  unfold obstacleCallback, resolveCollision. fold moved.
  unfold passThroughHit. rewrite Hjump.
  rewrite !andb_false_r. cbn [andb CollisionType_eqb].
  apply Qlt_bool_iff in Hl. apply Qgt_bool_iff in Hr. rewrite Hl, Hr. cbn [andb].
  change (Obstacle.passed moved) with (Obstacle.passed obstacle).
  rewrite Hp. cbn [negb].
  rewrite colorChangeCheck_not_behind by exact Hnb.
  unfold baseScoreJump, moved, advance. world_simpl.
  destruct (Obstacle.type obstacle); split; reflexivity.
Qed.

End Callback.

(** *** The callback at a concrete world *)

Ltac closed_fact :=
  vm_compute;
  first [ reflexivity | discriminate | intro; discriminate | lia ].

(** An invincible player with a shield runs into an obstacle of another
    colour: nothing but the obstacle's position changes. *)
Lemma invincible_hit_changes_nothing_witness :
  let w := playingWorld (groundedPlayer 2 50 30) 40 7 100 0 in
  let obstacle := obstacleAhead "#2ed573" normal in
  obstacleCallback zeroSource fullCanvas 3 w obstacle = (w, advance 3 obstacle).
Proof.
  intros w obstacle.
  pose proof (invincible_hit_changes_nothing zeroSource fullCanvas 3 w obstacle
                ltac:(closed_fact) ltac:(closed_fact) ltac:(closed_fact)) as H.
  cbv zeta in H. destruct H as (Hw & Ho & _).
  rewrite (surjective_pairing (obstacleCallback zeroSource fullCanvas 3 w obstacle)).
  rewrite Hw, Ho. reflexivity.
Defined.

(** ** The frame of a hit

    The three branches above, within the frame in which they are taken:
    from [gameLoop] to the visit, and from the visit to the end of the
    frame. *)

Lemma stakes_fields a b :
  stakes a = stakes b ->
  World.player a = World.player b /\
  GameState.score (World.gameState a) = GameState.score (World.gameState b) /\
  GameState.combo (World.gameState a) = GameState.combo (World.gameState b) /\
  GameState.comboTimer (World.gameState a) = GameState.comboTimer (World.gameState b) /\
  GameState.bestScore (World.gameState a) = GameState.bestScore (World.gameState b) /\
  GameState.isGameOver (World.gameState a) = GameState.isGameOver (World.gameState b) /\
  World.localStorage a = World.localStorage b /\
  World.isClient a = World.isClient b.
Proof.
  intro H. unfold stakes in H.
  repeat (apply pair_equal_spec in H; destruct H as [H ?]).
  repeat split; assumption.
Qed.

(** Whether a power-up is picked up depends on the player's position and
    radius only. *)
Lemma pickedUp_geometry p q moved :
  Player.x p = Player.x q -> Player.y p = Player.y q ->
  Player.radius p = Player.radius q ->
  pickedUp p moved = pickedUp q moved.
Proof.
  intros Hx Hy Hr. unfold pickedUp, checkPowerUpCollision. cbv zeta.
  rewrite Hx, Hy, Hr. reflexivity.
Qed.

(** One power-up: the player stays where it is; combo, best score, store
    and game-over flag are kept; and the score, the lives and the shield
    timer are kept unless a bonus, a life or a shield item is picked up. *)
Lemma powerUpCallback_effect currentSpeed w powerUp :
  let moved := PowerUp.set_x (PowerUp.x powerUp - currentSpeed)%Q powerUp in
  let w' := fst (powerUpCallback currentSpeed w powerUp) in
  (Player.x (World.player w') = Player.x (World.player w) /\
   Player.y (World.player w') = Player.y (World.player w) /\
   Player.radius (World.player w') = Player.radius (World.player w)) /\
  (comboLedger w' = comboLedger w /\
   GameState.bestScore (World.gameState w') = GameState.bestScore (World.gameState w) /\
   World.localStorage w' = World.localStorage w /\
   GameState.isGameOver (World.gameState w') =
     GameState.isGameOver (World.gameState w)) /\
  (isKind bonusItem (PowerUp.type powerUp) && pickedUp (World.player w) moved = false ->
   GameState.score (World.gameState w') = GameState.score (World.gameState w)) /\
  (isKind lifeItem (PowerUp.type powerUp) && pickedUp (World.player w) moved = false ->
   Player.lives (World.player w') = Player.lives (World.player w)) /\
  (isKind shieldItem (PowerUp.type powerUp) && pickedUp (World.player w) moved = false ->
   Player.shield (World.player w') = Player.shield (World.player w)).
Proof.
  cbv zeta. unfold powerUpCallback, pickedUp, applyPowerUp, comboLedger. cbv zeta.
  change (PowerUp.type (PowerUp.set_x (PowerUp.x powerUp - currentSpeed)%Q powerUp))
    with (PowerUp.type powerUp).
  destruct (checkPowerUpCollision (World.player w)
              (PowerUp.set_x (PowerUp.x powerUp - currentSpeed)%Q powerUp) &&
            negb (PowerUp.collected
                    (PowerUp.set_x (PowerUp.x powerUp - currentSpeed)%Q powerUp)));
    destruct (PowerUp.type powerUp); cbn [isKind andb fst];
    split_ifs; world_simpl;
    repeat split; intros; try reflexivity; discriminate.
Qed.

Lemma forEachPowerUp_effect currentSpeed (p : Player.t) powerUps : forall w,
  Player.x (World.player w) = Player.x p ->
  Player.y (World.player w) = Player.y p ->
  Player.radius (World.player w) = Player.radius p ->
  let picks kind :=
    existsb (fun powerUp =>
               isKind kind (PowerUp.type powerUp) &&
               pickedUp p (PowerUp.set_x (PowerUp.x powerUp - currentSpeed)%Q powerUp))
            powerUps in
  let w' := fst (forEachPowerUp currentSpeed w powerUps) in
  (comboLedger w' = comboLedger w /\
   GameState.bestScore (World.gameState w') = GameState.bestScore (World.gameState w) /\
   World.localStorage w' = World.localStorage w /\
   GameState.isGameOver (World.gameState w') =
     GameState.isGameOver (World.gameState w)) /\
  (picks bonusItem = false ->
   GameState.score (World.gameState w') = GameState.score (World.gameState w)) /\
  (picks lifeItem = false ->
   Player.lives (World.player w') = Player.lives (World.player w)) /\
  (picks shieldItem = false ->
   Player.shield (World.player w') = Player.shield (World.player w)).
Proof.
  induction powerUps as [|u rest IH]; intros w Hx Hy Hr; cbv zeta.
  - cbn [forEachPowerUp fst]. repeat split; reflexivity.
  - cbn [forEachPowerUp existsb].
    pose proof (powerUpCallback_effect currentSpeed w u) as H1. cbv zeta in H1.
    rewrite (pickedUp_geometry _ p _ Hx Hy Hr) in H1.
    destruct (powerUpCallback currentSpeed w u) as [w1 u1]. cbn [fst] in H1.
    destruct H1 as ((Gx & Gy & Gr) & (K1 & K2 & K3 & K4) & Hb & Hl & Hsh).
    specialize (IH w1 ltac:(congruence) ltac:(congruence) ltac:(congruence)).
    cbv zeta in IH.
    destruct (forEachPowerUp currentSpeed w1 rest) as [w2 rest']. cbn [fst] in *.
    destruct IH as ((J1 & J2 & J3 & J4) & Ib & Il & Ish).
    split; [repeat split; congruence | ].
    split; [ | split]; intro Hn; apply orb_false_iff in Hn; destruct Hn as [Hn1 Hn2].
    + rewrite (Ib Hn2). exact (Hb Hn1).
    + rewrite (Il Hn2). exact (Hl Hn1).
    + rewrite (Ish Hn2). exact (Hsh Hn1).
Qed.

(** The power-up pass never touches combo, best score, store or game-over
    flag; it leaves the score, the lives and the shield timer unless it
    picks up a bonus, a life or a shield item. *)
Lemma powerUpPass_effect currentSpeed w :
  let w' := fst (powerUpPass currentSpeed w) in
  (comboLedger w' = comboLedger w /\
   GameState.bestScore (World.gameState w') = GameState.bestScore (World.gameState w) /\
   World.localStorage w' = World.localStorage w /\
   GameState.isGameOver (World.gameState w') =
     GameState.isGameOver (World.gameState w)) /\
  (collects bonusItem currentSpeed w = false ->
   GameState.score (World.gameState w') = GameState.score (World.gameState w)) /\
  (collects lifeItem currentSpeed w = false ->
   Player.lives (World.player w') = Player.lives (World.player w)) /\
  (collects shieldItem currentSpeed w = false ->
   Player.shield (World.player w') = Player.shield (World.player w)).
Proof.
  exact (forEachPowerUp_effect currentSpeed (World.player w)
           (GameState.powerUps (World.gameState w)) w eq_refl eq_refl eq_refl).
Qed.

Section WholeFrame.

Variable randomSource : nat -> Q.

Lemma forEachObstacle_app canvas currentSpeed front : forall w back,
  forEachObstacle randomSource canvas currentSpeed w (front ++ back) =
  (fst (forEachObstacle randomSource canvas currentSpeed
          (fst (forEachObstacle randomSource canvas currentSpeed w front)) back),
   snd (forEachObstacle randomSource canvas currentSpeed w front) ++
   snd (forEachObstacle randomSource canvas currentSpeed
          (fst (forEachObstacle randomSource canvas currentSpeed w front)) back)).
Proof.
  induction front as [|o front IH]; intros w back.
  - cbn [app forEachObstacle fst snd].
    destruct (forEachObstacle randomSource canvas currentSpeed w back). reflexivity.
  - cbn [app forEachObstacle].
    destruct (obstacleCallback randomSource canvas currentSpeed w o) as [w1 o1].
    rewrite IH.
    destruct (forEachObstacle randomSource canvas currentSpeed w1 front) as [w2 front'].
    cbn [fst snd].
    destruct (forEachObstacle randomSource canvas currentSpeed w2 back) as [w3 back'].
    reflexivity.
Qed.

(** A started frame, around the visit to one of its obstacles: the visits
    before it, the visit, the visits after it, the power-up pass, and the
    end of the frame on the list that the obstacle pass has rewritten. *)
Lemma gameLoop_around_visit canvas w before obstacle after :
  GameState.gameStarted (World.gameState w) = true ->
  GameState.obstacles (World.gameState w) = before ++ obstacle :: after ->
  let front :=
    snd (forEachObstacle randomSource canvas (frameSpeed w)
           (beforePasses canvas w) before) in
  let visited := visitInFrame randomSource canvas w before obstacle in
  let rest := restOfObstaclePass randomSource canvas w before obstacle after in
  let swept := powerUpPass (frameSpeed w) (fst rest) in
  gameLoop randomSource canvas w =
  endOfTick randomSource canvas (front ++ snd visited :: snd rest)
            (snd swept) (fst swept).
Proof.
  intros Hs Hsplit. cbv zeta.
  rewrite (gameLoop_started randomSource canvas w Hs). cbv zeta.
  destruct (beforePasses_keeps canvas w) as (_ & _ & _ & _ & _ & _ & Bo & _).
  unfold obstaclePass. rewrite Bo, Hsplit.
  rewrite forEachObstacle_app.
  unfold restOfObstaclePass, visitInFrame, worldAtVisit.
  set (start := beforePasses canvas w).
  set (r0 := forEachObstacle randomSource canvas (frameSpeed w) start before).
  cbn [forEachObstacle].
  destruct (obstacleCallback randomSource canvas (frameSpeed w) (fst r0) obstacle)
    as [w1 o1].
  cbn [fst snd].
  destruct (forEachObstacle randomSource canvas (frameSpeed w) w1 after) as [w2 after'].
  cbn [fst snd]. reflexivity.
Qed.

Lemma quietVisit_stakes canvas currentSpeed w obstacle :
  quietVisit canvas w (advance currentSpeed obstacle) = true ->
  stakes (fst (obstacleCallback randomSource canvas currentSpeed w obstacle)) =
  stakes w.
Proof.
  intro Hq. rewrite obstacleCallback_unfold. cbv zeta.
  assert (H1 : fst (fst (resolveCollision canvas w (advance currentSpeed obstacle))) = w /\
               snd (resolveCollision canvas w (advance currentSpeed obstacle)) = false).
  { revert Hq.
    unfold quietVisit, qualifyingPass, damageEvent, jumpsOver, hits, sameColor,
      resolveCollision.
    cbv zeta.
    destruct (passThroughHit
                (checkCollision (World.player w) (advance currentSpeed obstacle) canvas));
      destruct (Player.color (World.player w) =?
                Obstacle.color (advance currentSpeed obstacle))%string;
      destruct (Obstacle.passed (advance currentSpeed obstacle));
      destruct (Player.invincible (World.player w) <=? 0);
      cbn [andb negb]; try discriminate; intro Hq;
      split_ifs; cbn [fst snd]; try (split; reflexivity);
      cbn [andb negb] in Hq; discriminate. }
  destruct H1 as [H1 H2].
  destruct (resolveCollision canvas w (advance currentSpeed obstacle)) as [[w1 o1] ret].
  cbn [fst snd] in *. subst w1 ret.
  unfold colorChangeCheck, Math_random, stakes. cbv zeta.
  split_ifs; world_simpl; reflexivity.
Qed.

Lemma quietVisits_stakes canvas currentSpeed obstacles : forall w,
  quietVisits randomSource canvas currentSpeed w obstacles = true ->
  stakes (fst (forEachObstacle randomSource canvas currentSpeed w obstacles)) =
  stakes w.
Proof.
  induction obstacles as [|o rest IH]; intros w Hq.
  - reflexivity.
  - cbn [quietVisits] in Hq. apply andb_true_iff in Hq. destruct Hq as [Hq1 Hq2].
    cbn [forEachObstacle].
    pose proof (quietVisit_stakes canvas currentSpeed w o Hq1) as H1.
    specialize (IH _ Hq2).
    destruct (obstacleCallback randomSource canvas currentSpeed w o) as [w1 o1].
    cbn [fst] in *.
    destruct (forEachObstacle randomSource canvas currentSpeed w1 rest) as [w2 rest'].
    cbn [fst] in *. congruence.
Qed.

(** Score, best score, store, lives and the game-over flag through the end
    of the frame; the shield timer is aged. *)
Lemma endOfTick_stakes canvas obstacles powerUps w :
  let w' := endOfTick randomSource canvas obstacles powerUps w in
  GameState.score (World.gameState w') = GameState.score (World.gameState w) /\
  GameState.bestScore (World.gameState w') = GameState.bestScore (World.gameState w) /\
  World.localStorage w' = World.localStorage w /\
  Player.lives (World.player w') = Player.lives (World.player w) /\
  GameState.isGameOver (World.gameState w') = GameState.isGameOver (World.gameState w) /\
  Player.shield (World.player w') =
    (if Player.shield (World.player w) >? 0
     then Player.shield (World.player w) - 1 else Player.shield (World.player w)) /\
  comboLedger w' =
    (if GameState.comboTimer (World.gameState w) >? 0
     then (GameState.combo (World.gameState w),
           GameState.comboTimer (World.gameState w) - 1)
     else (0, GameState.comboTimer (World.gameState w))).
Proof.
  cbv zeta.
  destruct (endOfTick_effect randomSource canvas obstacles powerUps w) as (Hv & Hc & _).
  unfold vitals in Hv.
  apply pair_equal_spec in Hv. destruct Hv as [Hv _].
  apply pair_equal_spec in Hv. destruct Hv as [Hv Hg].
  apply pair_equal_spec in Hv. destruct Hv as [Hl _].
  assert (H : let w' := endOfTick randomSource canvas obstacles powerUps w in
              GameState.score (World.gameState w') = GameState.score (World.gameState w) /\
              GameState.bestScore (World.gameState w') =
                GameState.bestScore (World.gameState w) /\
              World.localStorage w' = World.localStorage w /\
              Player.shield (World.player w') =
                (if Player.shield (World.player w) >? 0
                 then Player.shield (World.player w) - 1
                 else Player.shield (World.player w))).
  { cbv zeta. unfold endOfTick. cbv zeta.
    set (view := fun w0 : World.t =>
                   (GameState.score (World.gameState w0),
                    GameState.bestScore (World.gameState w0),
                    World.localStorage w0, Player.shield (World.player w0))).
    assert (A : view (prune obstacles powerUps w) = view w)
      by (unfold view, prune; cbv zeta; world_simpl; reflexivity).
    set (w1 := prune obstacles powerUps w) in *. clearbody w1.
    assert (B : view (obstacleSpawnTick randomSource canvas w1) = view w1).
    { unfold view, obstacleSpawnTick, spawnObstacle, Math_random. cbv zeta.
      split_ifs; world_simpl; reflexivity. }
    set (w2 := obstacleSpawnTick randomSource canvas w1) in *. clearbody w2.
    assert (C : view (powerUpSpawnTick randomSource canvas w2) = view w2).
    { unfold view, powerUpSpawnTick, spawnPowerUp, Math_random. cbv zeta.
      split_ifs; world_simpl; reflexivity. }
    set (w3 := powerUpSpawnTick randomSource canvas w2) in *. clearbody w3.
    assert (D : view (applyColorChange randomSource w3) = view w3).
    { unfold view, applyColorChange, Math_random. cbv zeta.
      split_ifs; world_simpl; reflexivity. }
    set (w4 := applyColorChange randomSource w3) in *. clearbody w4.
    assert (E : view w4 = view w) by congruence.
    clear A B C D. unfold view in E.
    apply pair_equal_spec in E. destruct E as [E E4].
    apply pair_equal_spec in E. destruct E as [E E3].
    apply pair_equal_spec in E. destruct E as [E1 E2].
    rewrite <- E1, <- E2, <- E3, <- E4.
    unfold comboDecay, ageTimers. cbv zeta.
    split_ifs; world_simpl; repeat split; try reflexivity; congruence. }
  cbv zeta in H. destruct H as (H1 & H2 & H3 & H4).
  split; [exact H1 | ]. split; [exact H2 | ]. split; [exact H3 | ].
  split; [exact Hl | ]. split; [exact Hg | ]. split; [exact H4 | exact Hc].
Qed.


Lemma beforePasses_best canvas w :
  GameState.bestScore (World.gameState (beforePasses canvas w)) =
    GameState.bestScore (World.gameState w) /\
  World.localStorage (beforePasses canvas w) = World.localStorage w /\
  World.isClient (beforePasses canvas w) = World.isClient w.
Proof.
  unfold beforePasses, updateLevel, updatePhysics, scrollBackground. cbv zeta.
  split_ifs; world_simpl; repeat split; reflexivity.
Qed.

(** The visits before the one looked at were quiet: it finds lives, timers,
    colour, score, combo and best score as the frame found them. *)
Lemma quiet_before_visit canvas w before :
  quietVisits randomSource canvas (frameSpeed w) (beforePasses canvas w) before = true ->
  let atVisit := worldAtVisit randomSource canvas w before in
  Player.lives (World.player atVisit) = Player.lives (World.player w) /\
  Player.shield (World.player atVisit) = Player.shield (World.player w) /\
  Player.invincible (World.player atVisit) = Player.invincible (World.player w) /\
  Player.color (World.player atVisit) = Player.color (World.player w) /\
  GameState.score (World.gameState atVisit) = GameState.score (World.gameState w) /\
  GameState.combo (World.gameState atVisit) = GameState.combo (World.gameState w) /\
  GameState.comboTimer (World.gameState atVisit) =
    GameState.comboTimer (World.gameState w) /\
  GameState.bestScore (World.gameState atVisit) =
    GameState.bestScore (World.gameState w) /\
  GameState.isGameOver (World.gameState atVisit) =
    GameState.isGameOver (World.gameState w) /\
  World.localStorage atVisit = World.localStorage w /\
  World.isClient atVisit = World.isClient w.
Proof.
  intro Hq. cbv zeta. unfold worldAtVisit.
  pose proof (quietVisits_stakes canvas (frameSpeed w) before _ Hq) as H.
  destruct (beforePasses_keeps canvas w)
    as (B1 & B2 & B3 & B4 & _ & _ & _ & _ & B5 & B6 & B7 & B8 & _).
  destruct (beforePasses_best canvas w) as (B9 & B10 & B11).
  set (start := beforePasses canvas w) in *.
  set (atVisit := fst (forEachObstacle randomSource canvas (frameSpeed w) start before))
    in *.
  clearbody atVisit start.
  apply stakes_fields in H. destruct H as (H0 & H1 & H2 & H3 & H4 & H5 & H6 & H7).
  rewrite H0, H1, H2, H3, H4, H5, H6, H7.
  repeat split; assumption.
Qed.


(** The frame from the visit looked at to its end, when the later visits
    are quiet: the end of the frame runs the combo decay on the ledger the
    visit has left; best score, store and game-over flag are those the
    visit has left; and so are the score, the lives and the shield timer,
    aged by the end of the frame, unless the power-up pass picks up a
    bonus, a life or a shield item. *)
Lemma quiet_after_visit canvas w before obstacle after :
  GameState.gameStarted (World.gameState w) = true ->
  GameState.obstacles (World.gameState w) = before ++ obstacle :: after ->
  let visited := fst (visitInFrame randomSource canvas w before obstacle) in
  let afterObstacles :=
    fst (restOfObstaclePass randomSource canvas w before obstacle after) in
  quietVisits randomSource canvas (frameSpeed w) visited after = true ->
  let w' := gameLoop randomSource canvas w in
  (comboLedger w' =
     (if GameState.comboTimer (World.gameState visited) >? 0
      then (GameState.combo (World.gameState visited),
            GameState.comboTimer (World.gameState visited) - 1)
      else (0, GameState.comboTimer (World.gameState visited))) /\
   GameState.bestScore (World.gameState w') =
     GameState.bestScore (World.gameState visited) /\
   World.localStorage w' = World.localStorage visited /\
   GameState.isGameOver (World.gameState w') =
     GameState.isGameOver (World.gameState visited)) /\
  (collects bonusItem (frameSpeed w) afterObstacles = false ->
   GameState.score (World.gameState w') = GameState.score (World.gameState visited)) /\
  (collects lifeItem (frameSpeed w) afterObstacles = false ->
   Player.lives (World.player w') = Player.lives (World.player visited)) /\
  (collects shieldItem (frameSpeed w) afterObstacles = false ->
   Player.shield (World.player w') =
     (if Player.shield (World.player visited) >? 0
      then Player.shield (World.player visited) - 1
      else Player.shield (World.player visited))).
Proof.
  intros Hs Hsplit. cbv zeta. intro Hq.
  pose proof (gameLoop_around_visit canvas w before obstacle after Hs Hsplit) as Hloop.
  cbv zeta in Hloop. rewrite Hloop. clear Hloop.
  pose proof (quietVisits_stakes canvas (frameSpeed w) after _ Hq) as H.
  fold (restOfObstaclePass randomSource canvas w before obstacle after) in H.
  set (r := fst (restOfObstaclePass randomSource canvas w before obstacle after)) in *.
  set (visited := fst (visitInFrame randomSource canvas w before obstacle)) in *.
  set (kept := snd (forEachObstacle randomSource canvas (frameSpeed w)
                      (beforePasses canvas w) before) ++
               snd (visitInFrame randomSource canvas w before obstacle) ::
               snd (restOfObstaclePass randomSource canvas w before obstacle after)).
  pose proof (powerUpPass_effect (frameSpeed w) r) as P. cbv zeta in P.
  set (pus := snd (powerUpPass (frameSpeed w) r)).
  set (swept := fst (powerUpPass (frameSpeed w) r)) in *.
  clearbody r visited kept pus swept.
  pose proof (endOfTick_stakes canvas kept pus swept) as E. cbv zeta in E.
  set (w' := endOfTick randomSource canvas kept pus swept) in *. clearbody w'.
  destruct E as (E1 & E2 & E3 & E4 & E5 & E6 & E7).
  destruct P as ((P1 & P2 & P3 & P4) & Pb & Pl & Psh).
  apply stakes_fields in H. destruct H as (H0 & H1 & H2 & H3 & H4 & H5 & H6 & _).
  unfold comboLedger in P1. apply pair_equal_spec in P1. destruct P1 as [P1 P1'].
  split.
  { rewrite E7, E2, E3, E5, P1, P1', P2, P3, P4, H2, H3, H4, H5, H6.
    repeat split; reflexivity. }
  split; [intro Hn; rewrite E1, (Pb Hn), H1; reflexivity | ].
  split; [intro Hn; rewrite E4, (Pl Hn), H0; reflexivity | ].
  intro Hn. rewrite E6, (Psh Hn), H0. reflexivity.
Qed.

(** The obstacle that a visit leaves is in the list after the frame, unless
    it has left the screen. *)
Lemma visited_obstacle_stays canvas w before obstacle after :
  GameState.gameStarted (World.gameState w) = true ->
  GameState.obstacles (World.gameState w) = before ++ obstacle :: after ->
  let visited := snd (visitInFrame randomSource canvas w before obstacle) in
  onScreen visited = true ->
  In visited (GameState.obstacles (World.gameState (gameLoop randomSource canvas w))).
Proof.
  intros Hs Hsplit. cbv zeta. intro Hon.
  pose proof (gameLoop_around_visit canvas w before obstacle after Hs Hsplit) as Hloop.
  cbv zeta in Hloop. rewrite Hloop. clear Hloop.
  set (visited := snd (visitInFrame randomSource canvas w before obstacle)) in *.
  set (front := snd (forEachObstacle randomSource canvas (frameSpeed w)
                       (beforePasses canvas w) before)).
  set (back := snd (restOfObstaclePass randomSource canvas w before obstacle after)).
  set (r := fst (restOfObstaclePass randomSource canvas w before obstacle after)).
  set (pus := snd (powerUpPass (frameSpeed w) r)).
  set (r2 := fst (powerUpPass (frameSpeed w) r)).
  clearbody visited front back r2 pus.
  assert (Hin : In visited (filter onScreen (front ++ visited :: back))).
  { apply filter_In. split; [ | exact Hon].
    apply in_or_app. right. left. reflexivity. }
  destruct (endOfTick_effect randomSource canvas (front ++ visited :: back) pus r2)
    as (_ & _ & _ & Ho).
  set (w' := endOfTick randomSource canvas (front ++ visited :: back) pus r2) in *.
  clearbody w'.
  destruct (Timers.spawn (World.timers r2) + 1 >?
            spawnThreshold (GameState.level (World.gameState r2))).
  - destruct Ho as (_ & color & type & Ho). rewrite Ho.
    apply in_or_app. left. exact Hin.
  - destruct Ho as (_ & Ho). rewrite Ho. exact Hin.
Qed.

(** C2.  The frame in which an obstacle not yet passed, moved by the
    frame's speed, registers a pass-through hit and has the player's colour,
    in the world that the obstacle pass has reached when it visits that
    obstacle.  The frame is made of the visits before, that visit, the
    visits after, the power-up pass and the end of the frame.  The visit
    adds to the score the base (10 normal, 15 tall, 20 bonus) plus
    floor(combo / 5) * 5, with the combo as the visit finds it, adds 1 to
    the combo, sets the combo timer to COMBO_TIMEOUT = 600 and sets the
    obstacle's [passed] flag; the obstacle is in the list after the frame,
    with the flag set, unless it has left the screen.  The other visits and
    the power-up pass add their own effects.  When every other visit is
    quiet, the frame as a whole adds 1 to the combo it began with and the
    decay at the end of the frame leaves the combo timer at 599; and when,
    moreover, no bonus item is picked up, the frame adds
    base + floor(combo / 5) * 5 to the score, with the combo it began
    with. *)
Theorem same_color_pass_scores canvas w before obstacle after :
  GameState.gameStarted (World.gameState w) = true ->
  GameState.obstacles (World.gameState w) = before ++ obstacle :: after ->
  let atVisit := worldAtVisit randomSource canvas w before in
  passThroughHit
    (checkCollision (World.player atVisit) (advance (frameSpeed w) obstacle) canvas)
    = true ->
  Player.color (World.player atVisit) = Obstacle.color obstacle ->
  Obstacle.passed obstacle = false ->
  let visited := visitInFrame randomSource canvas w before obstacle in
  let front :=
    snd (forEachObstacle randomSource canvas (frameSpeed w)
           (beforePasses canvas w) before) in
  let rest := restOfObstaclePass randomSource canvas w before obstacle after in
  let afterObstacles := fst rest in
  let swept := powerUpPass (frameSpeed w) afterObstacles in
  let w' := gameLoop randomSource canvas w in
  let base := match Obstacle.type obstacle with
              | normal => 10 | tall => 15 | bonus => 20
              end in
  w' = endOfTick randomSource canvas (front ++ snd visited :: snd rest)
                 (snd swept) (fst swept) /\
  (GameState.score (World.gameState (fst visited)) =
     GameState.score (World.gameState atVisit) + base +
     GameState.combo (World.gameState atVisit) / 5 * 5 /\
   GameState.combo (World.gameState (fst visited)) =
     GameState.combo (World.gameState atVisit) + 1 /\
   GameState.comboTimer (World.gameState (fst visited)) = GAME_CONFIG.COMBO_TIMEOUT /\
   GameState.comboTimer (World.gameState (fst visited)) = 600 /\
   Obstacle.passed (snd visited) = true) /\
  (onScreen (snd visited) = true ->
   In (snd visited) (GameState.obstacles (World.gameState w'))) /\
  (quietVisits randomSource canvas (frameSpeed w) (beforePasses canvas w) before = true ->
   quietVisits randomSource canvas (frameSpeed w) (fst visited) after = true ->
   GameState.combo (World.gameState w') = GameState.combo (World.gameState w) + 1 /\
   GameState.comboTimer (World.gameState w') = GAME_CONFIG.COMBO_TIMEOUT - 1 /\
   GameState.comboTimer (World.gameState w') = 599 /\
   (collects bonusItem (frameSpeed w) afterObstacles = false ->
    GameState.score (World.gameState w') =
      GameState.score (World.gameState w) + base +
      GameState.combo (World.gameState w) / 5 * 5)).
Proof.
  intros Hs Hsplit. cbv zeta. intros Hhit Hcolor Hpassed.
  pose proof (obstacleCallback_same_color_pass randomSource canvas (frameSpeed w)
                (worldAtVisit randomSource canvas w before) obstacle
                Hhit Hcolor Hpassed) as Hv.
  cbv zeta in Hv. fold (visitInFrame randomSource canvas w before obstacle) in Hv.
  split; [exact (gameLoop_around_visit canvas w before obstacle after Hs Hsplit) | ].
  split; [exact Hv | ].
  split; [exact (visited_obstacle_stays canvas w before obstacle after Hs Hsplit) | ].
  intros Hqb Hqa.
  destruct (quiet_before_visit canvas w before Hqb)
    as (_ & _ & _ & _ & Q1 & Q2 & _).
  destruct (quiet_after_visit canvas w before obstacle after Hs Hsplit Hqa)
    as ((A2 & _) & A1 & _).
  destruct Hv as (V1 & V2 & V3 & _ & _).
  rewrite V3 in A2. rewrite V1, Q1, Q2 in A1. rewrite V2, Q2 in A2.
  unfold comboLedger in A2. cbn [GAME_CONFIG.COMBO_TIMEOUT Z.gtb Z.compare] in A2.
  apply pair_equal_spec in A2. destruct A2 as [A2 A3].
  split; [exact A2 | ]. split; [exact A3 | ]. split; [exact A3 | exact A1].
Qed.

(** C3.  The frame in which the player, with the shield timer above 0 and
    the invincibility timer at most 0 when the obstacle is visited,
    registers a pass-through hit on an obstacle of another colour.  The
    frame is made of the visits before, that visit, the visits after, the
    power-up pass and the end of the frame.  The visit sets the shield
    timer to 0, leaves lives and game-over flag as it finds them, zeroes
    the combo and the combo timer and, if the obstacle was not passed yet,
    adds exactly 1 to the score; the obstacle is marked passed and is in
    the list after the frame unless it has left the screen.  The shield
    branch starts no invincibility, so the other visits of the frame act on
    an unshielded player.  When every other visit is quiet, the frame as a
    whole ends with combo and combo timer at 0 and the game-over flag as it
    was; the shield timer is 0 if no shield item is picked up, the lives
    are unchanged if no life item is picked up, and the score is raised by
    1 for an obstacle not yet passed, and by nothing otherwise, if no bonus
    item is picked up. *)
Theorem shielded_hit_breaks_shield canvas w before obstacle after :
  GameState.gameStarted (World.gameState w) = true ->
  GameState.obstacles (World.gameState w) = before ++ obstacle :: after ->
  let atVisit := worldAtVisit randomSource canvas w before in
  passThroughHit
    (checkCollision (World.player atVisit) (advance (frameSpeed w) obstacle) canvas)
    = true ->
  Player.color (World.player atVisit) <> Obstacle.color obstacle ->
  0 < Player.shield (World.player atVisit) ->
  Player.invincible (World.player atVisit) <= 0 ->
  let visited := visitInFrame randomSource canvas w before obstacle in
  let front :=
    snd (forEachObstacle randomSource canvas (frameSpeed w)
           (beforePasses canvas w) before) in
  let rest := restOfObstaclePass randomSource canvas w before obstacle after in
  let afterObstacles := fst rest in
  let swept := powerUpPass (frameSpeed w) afterObstacles in
  let w' := gameLoop randomSource canvas w in
  w' = endOfTick randomSource canvas (front ++ snd visited :: snd rest)
                 (snd swept) (fst swept) /\
  (Player.shield (World.player (fst visited)) = 0 /\
   Player.lives (World.player (fst visited)) = Player.lives (World.player atVisit) /\
   GameState.isGameOver (World.gameState (fst visited)) =
     GameState.isGameOver (World.gameState atVisit) /\
   GameState.combo (World.gameState (fst visited)) = 0 /\
   GameState.comboTimer (World.gameState (fst visited)) = 0 /\
   GameState.score (World.gameState (fst visited)) =
     (if Obstacle.passed obstacle
      then GameState.score (World.gameState atVisit)
      else GameState.score (World.gameState atVisit) + 1) /\
   Obstacle.passed (snd visited) = true) /\
  (onScreen (snd visited) = true ->
   In (snd visited) (GameState.obstacles (World.gameState w'))) /\
  (quietVisits randomSource canvas (frameSpeed w) (beforePasses canvas w) before = true ->
   quietVisits randomSource canvas (frameSpeed w) (fst visited) after = true ->
   GameState.combo (World.gameState w') = 0 /\
   GameState.comboTimer (World.gameState w') = 0 /\
   GameState.isGameOver (World.gameState w') = GameState.isGameOver (World.gameState w) /\
   (collects shieldItem (frameSpeed w) afterObstacles = false ->
    Player.shield (World.player w') = 0) /\
   (collects lifeItem (frameSpeed w) afterObstacles = false ->
    Player.lives (World.player w') = Player.lives (World.player w)) /\
   (collects bonusItem (frameSpeed w) afterObstacles = false ->
    GameState.score (World.gameState w') =
      (if Obstacle.passed obstacle
       then GameState.score (World.gameState w)
       else GameState.score (World.gameState w) + 1))).
Proof.
  intros Hs Hsplit. cbv zeta. intros Hhit Hcolor Hshield Hinv.
  pose proof (obstacleCallback_shielded_hit randomSource canvas (frameSpeed w)
                (worldAtVisit randomSource canvas w before) obstacle
                Hhit Hcolor Hshield Hinv) as Hv.
  cbv zeta in Hv. fold (visitInFrame randomSource canvas w before obstacle) in Hv.
  split; [exact (gameLoop_around_visit canvas w before obstacle after Hs Hsplit) | ].
  split; [exact Hv | ].
  split; [exact (visited_obstacle_stays canvas w before obstacle after Hs Hsplit) | ].
  intros Hqb Hqa.
  destruct (quiet_before_visit canvas w before Hqb)
    as (Q1 & _ & _ & _ & Q2 & _ & _ & _ & Q3 & _).
  destruct (quiet_after_visit canvas w before obstacle after Hs Hsplit Hqa)
    as ((A5 & _ & _ & A3) & A1 & A2 & A4).
  destruct Hv as (V1 & V2 & V3 & V4 & V5 & V6 & _).
  rewrite V1 in A4. rewrite V2, Q1 in A2. rewrite V3, Q3 in A3.
  rewrite V4, V5 in A5. rewrite V6, Q2 in A1.
  unfold comboLedger in A5. cbn [Z.gtb Z.compare] in A5, A4.
  apply pair_equal_spec in A5. destruct A5 as [A5 A6].
  repeat split; assumption.
Qed.



End WholeFrame.


(** *** The frames of the examples *)

(** A grounded player passes through a tall obstacle of its own colour with
    combo 7, and nothing else happens in the frame: 15 + 5 points, combo 8,
    the combo timer at 599, the obstacle in the list with its flag set. *)
Lemma same_color_pass_scores_witness :
  let w' := gameLoop zeroSource fullCanvas onePassWorld in
  GameState.score (World.gameState w') = 60 /\
  GameState.combo (World.gameState w') = 8 /\
  GameState.comboTimer (World.gameState w') = 599 /\
  exists x, In (Obstacle.mk x "#ff4757" true tall false)
               (GameState.obstacles (World.gameState w')).
Proof.
  intro w'.
  pose proof (same_color_pass_scores zeroSource fullCanvas onePassWorld
                [] (obstacleAhead "#ff4757" tall) []
                eq_refl eq_refl ltac:(vm_compute; reflexivity) eq_refl eq_refl) as H.
  cbv zeta in H. destruct H as (_ & _ & Hin & Hsole).
  destruct (Hsole eq_refl ltac:(vm_compute; reflexivity))
    as (Hcombo & _ & Htimer & Hscore).
  split; [exact (Hscore eq_refl) | ]. split; [exact Hcombo | ]. split; [exact Htimer | ].
  eexists. apply Hin. vm_compute. reflexivity.
Defined.

(** C2, read on the whole frame, fails when the frame has another award.
    In [twoPassesWorld] both obstacles register a qualifying pass, the first
    scores 10 + 5 with combo 7 and the second 10 + 5 with combo 8, so the
    frame adds 30 to the score, not 15, and 2 to the combo, not 1.  In
    [passWithBonusItemWorld] the power-up pass of the frame picks up a
    bonus item after the qualifying pass, so the frame adds 10 + 5 + 50 to
    the score. *)
Lemma frame_awards_more_than_one_pass :
  (let w := twoPassesWorld in
   let w' := gameLoop zeroSource fullCanvas w in
   let first := Obstacle.mk 115 "#ff4757" false normal false in
   let second := Obstacle.mk (245 # 2) "#ff4757" false normal false in
   GameState.gameStarted (World.gameState w) = true /\
   GameState.obstacles (World.gameState w) = [first; second] /\
   qualifyingPass fullCanvas (worldAtVisit zeroSource fullCanvas w [])
                  (advance (frameSpeed w) first) = true /\
   qualifyingPass fullCanvas (worldAtVisit zeroSource fullCanvas w [first])
                  (advance (frameSpeed w) second) = true /\
   GameState.score (World.gameState w) = 3500 /\
   GameState.combo (World.gameState w) = 7 /\
   GameState.score (World.gameState w') = 3530 /\
   GameState.combo (World.gameState w') = 9 /\
   GameState.score (World.gameState w') <>
     GameState.score (World.gameState w) + 10 +
     GameState.combo (World.gameState w) / 5 * 5 /\
   GameState.combo (World.gameState w') <> GameState.combo (World.gameState w) + 1) /\
  (let w := passWithBonusItemWorld in
   let w' := gameLoop zeroSource phoneCanvas w in
   let obstacle := Obstacle.mk 121 "#ff4757" false normal false in
   GameState.gameStarted (World.gameState w) = true /\
   GameState.obstacles (World.gameState w) = [obstacle] /\
   GameState.powerUps (World.gameState w) = [PowerUp.mk 121 350 bonusItem false] /\
   qualifyingPass phoneCanvas (worldAtVisit zeroSource phoneCanvas w [])
                  (advance (frameSpeed w) obstacle) = true /\
   GameState.score (World.gameState w) = 40 /\
   GameState.combo (World.gameState w) = 7 /\
   GameState.score (World.gameState w') = 105 /\
   GameState.score (World.gameState w') <>
     GameState.score (World.gameState w) + 10 +
     GameState.combo (World.gameState w) / 5 * 5).
Proof.
  vm_compute. repeat split; try reflexivity; discriminate.
Qed.

(** A shielded player runs into one obstacle of another colour. *)
Lemma shielded_hit_breaks_shield_witness :
  let w' := gameLoop zeroSource fullCanvas oneShieldedHitWorld in
  Player.shield (World.player w') = 0 /\
  Player.lives (World.player w') = 3 /\
  GameState.combo (World.gameState w') = 0 /\
  GameState.comboTimer (World.gameState w') = 0 /\
  GameState.score (World.gameState w') = 41.
Proof.
  intro w'.
  pose proof (shielded_hit_breaks_shield zeroSource fullCanvas oneShieldedHitWorld
                [] (obstacleAhead "#2ed573" normal) []
                eq_refl eq_refl ltac:(vm_compute; reflexivity)
                ltac:(vm_compute; discriminate) ltac:(vm_compute; reflexivity)
                ltac:(vm_compute; discriminate)) as H.
  cbv zeta in H. destruct H as (_ & _ & _ & Hsole).
  destruct (Hsole eq_refl ltac:(vm_compute; reflexivity))
    as (H3 & H4 & _ & H1 & H2 & H5).
  exact (conj (H1 eq_refl) (conj (H2 eq_refl) (conj H3 (conj H4 (H5 eq_refl))))).
Defined.

(** C3, read on the whole frame, fails when the frame has another event on
    the lives.  In [twoHitsWorld] the first visit breaks the shield and the
    second, finding neither shield nor invincibility, takes a life, so the
    lives go from 3 to 2 within the frame.  In [shieldedWithLifeItemWorld]
    the power-up pass of the frame picks up a life item after the shielded
    hit, so the lives go from 2 to 3. *)
Lemma frame_of_shielded_hit_changes_lives :
  (let w := twoHitsWorld in
   let w' := gameLoop zeroSource fullCanvas w in
   let first := Obstacle.mk 100 "#2ed573" false normal false in
   let second := Obstacle.mk (215 # 2) "#2ed573" false normal false in
   let atVisit := worldAtVisit zeroSource fullCanvas w [] in
   GameState.gameStarted (World.gameState w) = true /\
   GameState.obstacles (World.gameState w) = [first; second] /\
   Player.shield (World.player atVisit) = 200 /\
   Player.invincible (World.player atVisit) = 0 /\
   hits fullCanvas atVisit (advance (frameSpeed w) first) = true /\
   sameColor atVisit (advance (frameSpeed w) first) = false /\
   Player.lives (World.player w) = 3 /\
   Player.lives (World.player w') = 2 /\
   Player.lives (World.player w') <> Player.lives (World.player w)) /\
  (let w := shieldedWithLifeItemWorld in
   let w' := gameLoop zeroSource phoneCanvas w in
   let obstacle := Obstacle.mk 121 "#2ed573" false normal false in
   let atVisit := worldAtVisit zeroSource phoneCanvas w [] in
   GameState.gameStarted (World.gameState w) = true /\
   GameState.obstacles (World.gameState w) = [obstacle] /\
   GameState.powerUps (World.gameState w) = [PowerUp.mk 121 350 lifeItem false] /\
   Player.shield (World.player atVisit) = 200 /\
   Player.invincible (World.player atVisit) = 0 /\
   hits phoneCanvas atVisit (advance (frameSpeed w) obstacle) = true /\
   sameColor atVisit (advance (frameSpeed w) obstacle) = false /\
   Player.lives (World.player w) = 2 /\
   Player.lives (World.player w') = 3 /\
   Player.lives (World.player w') <> Player.lives (World.player w)).
Proof.
  vm_compute. repeat split; try reflexivity; discriminate.
Qed.



(** ** The [passed] flag *)

Section Latch.

Variable randomSource : nat -> Q.

Lemma visit_latch v obstacle :
  Obstacle.passed obstacle = true ->
  Obstacle.passed (snd (visit randomSource v obstacle)) = true /\
  award randomSource v obstacle = 0.
Proof.
  intro Hp. unfold award, visit.
  destruct (obstacleCallback_score randomSource (Visit.canvas v) (Visit.currentSpeed v)
              (Visit.world v) obstacle) as [H _].
  destruct (H Hp) as [H1 H2]. split; [exact H1 | lia].
Qed.

Lemma visit_award_flips v obstacle :
  award randomSource v obstacle <> 0 ->
  Obstacle.passed obstacle = false /\
  Obstacle.passed (snd (visit randomSource v obstacle)) = true.
Proof.
  intro Ha. unfold award, visit in *.
  destruct (obstacleCallback_score randomSource (Visit.canvas v) (Visit.currentSpeed v)
              (Visit.world v) obstacle) as [_ H].
  apply H. lia.
Qed.

Lemma afterVisits_latch visits : forall obstacle,
  Obstacle.passed obstacle = true ->
  Obstacle.passed (afterVisits randomSource visits obstacle) = true /\
  scoringVisits randomSource visits obstacle = 0%nat.
Proof.
  unfold scoringVisits.
  induction visits as [|v rest IH]; intros obstacle Hp; cbn [afterVisits awards filter].
  - split; [exact Hp | reflexivity].
  - destruct (visit_latch v obstacle Hp) as [H1 H2].
    rewrite H2. cbn [Z.eqb negb]. apply IH. exact H1.
Qed.

Lemma scoringVisits_at_most_one visits : forall obstacle,
  (scoringVisits randomSource visits obstacle <= 1)%nat.
Proof.
  unfold scoringVisits.
  induction visits as [|v rest IH]; intro obstacle; cbn [awards filter].
  - cbn. lia.
  - destruct (award randomSource v obstacle =? 0) eqn:Ha; cbn [negb].
    + apply IH.
    + apply Z.eqb_neq in Ha. apply visit_award_flips in Ha. destruct Ha as [_ Hp].
      destruct (afterVisits_latch rest _ Hp) as [_ H0].
      unfold scoringVisits in H0. cbn [List.length]. rewrite H0. lia.
Qed.

(** The obstacle pass is made of visits: its obstacles are the visited
    ones, and the score it adds is the sum of their awards. *)
Lemma forEachObstacle_visits canvas currentSpeed obstacles : forall w,
  let visits := passVisits randomSource canvas currentSpeed w obstacles in
  let result := forEachObstacle randomSource canvas currentSpeed w obstacles in
  snd result =
    map (fun vo => snd (visit randomSource (fst vo) (snd vo))) (combine visits obstacles) /\
  GameState.score (World.gameState (fst result)) =
    GameState.score (World.gameState w) +
    sumZ (map (fun vo => award randomSource (fst vo) (snd vo)) (combine visits obstacles)).
Proof.
  induction obstacles as [|o rest IH]; intro w; cbv zeta.
  - cbn. split; [reflexivity | lia].
  - cbn [forEachObstacle passVisits combine map sumZ fold_right fst snd].
    specialize (IH (fst (obstacleCallback randomSource canvas currentSpeed w o))).
    cbv zeta in IH. destruct IH as [IH1 IH2].
    unfold award at 1. cbn [Visit.world].
    change (visit randomSource (Visit.mk canvas currentSpeed w) o)
      with (obstacleCallback randomSource canvas currentSpeed w o).
    destruct (obstacleCallback randomSource canvas currentSpeed w o) as [w1 o1].
    cbn [fst snd] in *.
    destruct (forEachObstacle randomSource canvas currentSpeed w1 rest) as [w2 rest'].
    cbn [fst snd] in *.
    split; [rewrite IH1; reflexivity | ].
    rewrite IH2. unfold sumZ. lia.
Qed.

(** C5.  The [passed] flag is a one-way latch and an obstacle scores at most
    once.  A visit of the callback to a passed obstacle leaves it passed and
    adds nothing to the score; a visit that adds to the score finds the flag
    false and leaves it true; so over any sequence of visits at most one
    adds to the score, and none after the flag is set.  In a frame every
    obstacle of the array gets exactly one visit, the score the obstacle
    pass adds is the sum of the visits' awards, and the array kept for the
    next frame holds visited obstacles, unchanged by the pruning, followed
    by at most one fresh obstacle whose flag is false. *)
Theorem passed_is_latch_and_scores_once :
  (forall v obstacle,
     Obstacle.passed obstacle = true ->
     Obstacle.passed (snd (visit randomSource v obstacle)) = true /\
     award randomSource v obstacle = 0) /\
  (forall v obstacle,
     award randomSource v obstacle <> 0 ->
     Obstacle.passed obstacle = false /\
     Obstacle.passed (snd (visit randomSource v obstacle)) = true) /\
  (forall visits obstacle,
     Obstacle.passed obstacle = true ->
     Obstacle.passed (afterVisits randomSource visits obstacle) = true /\
     scoringVisits randomSource visits obstacle = 0%nat) /\
  (forall visits obstacle,
     (scoringVisits randomSource visits obstacle <= 1)%nat) /\
  (forall canvas currentSpeed w obstacles,
     let visits := passVisits randomSource canvas currentSpeed w obstacles in
     let result := forEachObstacle randomSource canvas currentSpeed w obstacles in
     snd result =
       map (fun vo => snd (visit randomSource (fst vo) (snd vo)))
           (combine visits obstacles) /\
     GameState.score (World.gameState (fst result)) =
       GameState.score (World.gameState w) +
       sumZ (map (fun vo => award randomSource (fst vo) (snd vo))
                 (combine visits obstacles))) /\
  (forall canvas w,
     GameState.gameStarted (World.gameState w) = true ->
     let visited :=
       snd (obstaclePass randomSource canvas (frameSpeed w) (beforePasses canvas w)) in
     exists fresh,
       GameState.obstacles (World.gameState (gameLoop randomSource canvas w)) =
         filter onScreen visited ++ fresh /\
       (List.length fresh <= 1)%nat /\
       Forall (fun o => Obstacle.passed o = false) fresh).
Proof.
  split; [exact visit_latch | ].
  split; [exact visit_award_flips | ].
  split; [intros visits obstacle; apply afterVisits_latch | ].
  split; [intros visits obstacle; apply scoringVisits_at_most_one | ].
  split; [intros canvas currentSpeed w obstacles; apply forEachObstacle_visits | ].
  intros canvas w Hs. cbv zeta.
  rewrite (gameLoop_started randomSource canvas w Hs). cbv zeta.
  set (r1 := obstaclePass randomSource canvas (frameSpeed w) (beforePasses canvas w)).
  set (r2 := powerUpPass (frameSpeed w) (fst r1)).
  destruct (endOfTick_effect randomSource canvas (snd r1) (snd r2) (fst r2))
    as (_ & _ & _ & H).
  destruct (Timers.spawn (World.timers (fst r2)) + 1 >?
            spawnThreshold (GameState.level (World.gameState (fst r2)))).
  - destruct H as (_ & color & type & H). rewrite H.
    eexists. split; [reflexivity | ]. split; [cbn; lia | ].
    constructor; [reflexivity | constructor].
  - destruct H as (_ & H). rewrite H.
    exists []. split; [symmetry; apply app_nil_r | ]. split; [cbn; lia | constructor].
Qed.

End Latch.

(** ** Spawn cadence *)

Section Spawn.

Variable randomSource : nat -> Q.

Lemma resolveCollision_stage canvas w obstacle :
  let w' := fst (fst (resolveCollision canvas w obstacle)) in
  GameState.level (World.gameState w') = GameState.level (World.gameState w) /\
  World.timers w' = World.timers w.
Proof.
  unfold resolveCollision, saveBestScore. cbv zeta.
  split_ifs; world_simpl; split; reflexivity.
Qed.

Lemma colorChangeCheck_stage w obstacle :
  let w' := fst (colorChangeCheck randomSource w obstacle) in
  GameState.level (World.gameState w') = GameState.level (World.gameState w) /\
  World.timers w' = World.timers w.
Proof.
  unfold colorChangeCheck, Math_random. cbv zeta.
  split_ifs; world_simpl; split; reflexivity.
Qed.

Lemma obstacleCallback_stage level timers canvas currentSpeed w obstacle :
  stageIs level timers w ->
  stageIs level timers
    (fst (obstacleCallback randomSource canvas currentSpeed w obstacle)).
Proof.
  unfold stageIs. intros [Hl Ht].
  rewrite obstacleCallback_unfold. cbv zeta.
  pose proof (resolveCollision_stage canvas w (advance currentSpeed obstacle)) as H.
  cbv zeta in H.
  destruct (resolveCollision canvas w (advance currentSpeed obstacle)) as [[w1 o1] ret].
  cbn [fst snd] in *. destruct H as [H1 H2].
  destruct ret; cbn [fst].
  - split; congruence.
  - destruct (colorChangeCheck_stage w1 o1) as [C1 C2]. split; congruence.
Qed.

Lemma powerUpCallback_stage level timers currentSpeed w powerUp :
  stageIs level timers w ->
  stageIs level timers (fst (powerUpCallback currentSpeed w powerUp)).
Proof.
  unfold stageIs, powerUpCallback, applyPowerUp. cbv zeta. intros [Hl Ht].
  split_ifs; cbn [fst]; try (split; assumption);
    destruct (PowerUp.type _); split_ifs; world_simpl; split; assumption.
Qed.

(** The spawn counter after a frame of a started game, and the list. *)
Lemma gameLoop_spawn canvas w :
  GameState.gameStarted (World.gameState w) = true ->
  let w' := gameLoop randomSource canvas w in
  let level := GameState.score (World.gameState w) / 100 + 1 in
  let kept :=
    filter onScreen
      (snd (obstaclePass randomSource canvas (frameSpeed w) (beforePasses canvas w))) in
  GameState.level (World.gameState w') = level /\
  (if Timers.spawn (World.timers w) + 1 >? spawnThreshold level
   then
     Timers.spawn (World.timers w') = 0 /\
     exists color type,
       GameState.obstacles (World.gameState w') =
       kept ++ [Obstacle.mk (Canvas.width canvas) color false type false]
   else
     Timers.spawn (World.timers w') = Timers.spawn (World.timers w) + 1 /\
     GameState.obstacles (World.gameState w') = kept).
Proof.
  intro Hs. cbv zeta.
  rewrite (gameLoop_started randomSource canvas w Hs). cbv zeta.
  pose proof (beforePasses_keeps canvas w) as Hb. cbv zeta in Hb.
  destruct Hb as (_ & _ & _ & _ & _ & B1 & _ & _ & _ & _ & _ & _ & _ & B2).
  set (start := beforePasses canvas w) in *.
  assert (H0 : stageIs (GameState.score (World.gameState w) / 100 + 1)
                 (World.timers w) start) by (split; assumption).
  unfold obstaclePass, powerUpPass.
  pose proof (forEachObstacle_invariant randomSource _ canvas (frameSpeed w)
                (fun w0 o => obstacleCallback_stage _ _ canvas (frameSpeed w) w0 o)
                (GameState.obstacles (World.gameState start)) start H0) as H1.
  set (r1 := forEachObstacle randomSource canvas (frameSpeed w) start
               (GameState.obstacles (World.gameState start))) in *.
  pose proof (forEachPowerUp_invariant _ (frameSpeed w)
                (fun w0 u => powerUpCallback_stage _ _ (frameSpeed w) w0 u)
                (GameState.powerUps (World.gameState (fst r1))) (fst r1) H1) as H2.
  set (r2 := forEachPowerUp (frameSpeed w) (fst r1)
               (GameState.powerUps (World.gameState (fst r1)))) in *.
  destruct (endOfTick_effect randomSource canvas (snd r1) (snd r2) (fst r2))
    as (_ & _ & E1 & E2).
  destruct H2 as [L T]. rewrite L, T in *. clear L T H1 H0.
  split; [exact E1 | exact E2].
Qed.

(** The spawn counter is never negative in a game that has started from the
    mount: [resetGame] zeroes it, a frame zeroes or increments it, and
    nothing else writes it. *)
Lemma reachable_spawn_counter w :
  reachable randomSource w -> 0 <= Timers.spawn (World.timers w).
Proof.
  induction 1 as [w0 | e w Hr IH He].
  - unfold resetGame. world_simpl. cbn. lia.
  - destruct e as [canvas | | ]; cbn [react].
    + destruct (GameState.gameStarted (World.gameState w)) eqn:Hs.
      * destruct (gameLoop_spawn canvas w Hs) as [_ H]. cbv zeta in H.
        destruct (Timers.spawn (World.timers w) + 1 >?
                  spawnThreshold (GameState.score (World.gameState w) / 100 + 1)).
        -- destruct H as [H _]. rewrite H. lia.
        -- destruct H as [H _]. rewrite H. lia.
      * rewrite (gameLoop_title randomSource canvas w Hs).
        destruct (scrollBackground_keeps canvas w) as (_ & _ & _ & _ & _ & _ & _ & _ & Ht).
        rewrite Ht. exact IH.
    + assert (Ht : World.timers (handleJump w) = World.timers w).
      { unfold handleJump, startGame. cbv zeta. split_ifs; world_simpl; reflexivity. }
      rewrite Ht. exact IH.
    + unfold resetGame. world_simpl. cbn. lia.
Qed.

(** C8, as the code has it.  In every frame of a started game the obstacle
    spawn counter goes up by 1, and exactly when the incremented counter
    exceeds SPAWN_INTERVAL - 2 * level, with the level taken from the score
    at the start of the frame, one obstacle is appended at the right edge
    (not passed, not rolled) and the counter goes back to 0.  The threshold
    has no lower bound: from level 35 on it is at most 0.  In a game run
    from the mount the counter is never negative, so from level 35 on an
    obstacle is spawned in every frame of such a game. *)
Theorem spawn_cadence canvas w :
  GameState.gameStarted (World.gameState w) = true ->
  let w' := gameLoop randomSource canvas w in
  let level := GameState.score (World.gameState w) / 100 + 1 in
  let counter := Timers.spawn (World.timers w) + 1 in
  let threshold := GAME_CONFIG.OBSTACLE.SPAWN_INTERVAL - 2 * level in
  let kept :=
    filter onScreen
      (snd (obstaclePass randomSource canvas (frameSpeed w) (beforePasses canvas w))) in
  let spawned :=
    Timers.spawn (World.timers w') = 0 /\
    exists color type,
      GameState.obstacles (World.gameState w') =
      kept ++ [Obstacle.mk (Canvas.width canvas) color false type false] in
  GameState.level (World.gameState w') = level /\
  (threshold < counter -> spawned) /\
  (counter <= threshold ->
     Timers.spawn (World.timers w') = counter /\
     GameState.obstacles (World.gameState w') = kept) /\
  (35 <= level -> 0 <= Timers.spawn (World.timers w) -> spawned) /\
  (reachable randomSource w -> 0 <= Timers.spawn (World.timers w)) /\
  (reachable randomSource w -> 35 <= level -> threshold <= 0 /\ spawned).
Proof.
  intro Hs. cbv zeta.
  destruct (gameLoop_spawn canvas w Hs) as [E1 E2]. cbv zeta in E2.
  set (w' := gameLoop randomSource canvas w) in *. clearbody w'.
  unfold spawnThreshold in E2.
  destruct (Timers.spawn (World.timers w) + 1 >?
            GAME_CONFIG.OBSTACLE.SPAWN_INTERVAL -
            (GameState.score (World.gameState w) / 100 + 1) * 2) eqn:Hcmp.
  - apply Z.gtb_lt in Hcmp.
    split; [exact E1 | ]. split; [intros _; exact E2 | ].
    split; [intro; lia | ]. split; [intros _ _; exact E2 | ].
    split; [apply reachable_spawn_counter | ].
    intros _ H35. split; [ | exact E2].
    unfold GAME_CONFIG.OBSTACLE.SPAWN_INTERVAL. lia.
  - rewrite Z.gtb_ltb in Hcmp. apply Z.ltb_ge in Hcmp.
    split; [exact E1 | ]. split; [intro; lia | ].
    split; [intros _; exact E2 | ].
    unfold GAME_CONFIG.OBSTACLE.SPAWN_INTERVAL in *.
    split; [intros H35 Hc; lia | ].
    split; [apply reachable_spawn_counter | ].
    intros Hr H35. pose proof (reachable_spawn_counter w Hr). lia.
Qed.

End Spawn.

(** At level 1 the counter just counts; at level 40 the frame spawns; and
    in the game just started from the mount the counter is not negative and
    the first frame takes it to 1. *)
Lemma spawn_cadence_witness :
  Timers.spawn (World.timers (gameLoop zeroSource fullCanvas level1World)) = 1 /\
  GameState.obstacles (World.gameState (gameLoop zeroSource fullCanvas level1World)) = [] /\
  Timers.spawn (World.timers (gameLoop zeroSource fullCanvas level40World)) = 0 /\
  0 <= Timers.spawn (World.timers startedWorld) /\
  Timers.spawn (World.timers (gameLoop zeroSource fullCanvas startedWorld)) = 1.
Proof.
  pose proof (spawn_cadence zeroSource fullCanvas level1World eq_refl) as H1.
  pose proof (spawn_cadence zeroSource fullCanvas level40World eq_refl) as H40.
  pose proof (spawn_cadence zeroSource fullCanvas startedWorld eq_refl) as H0.
  cbv zeta in H1, H40, H0.
  destruct H1 as (_ & _ & H1 & _). destruct H40 as (_ & _ & _ & H40 & _).
  destruct H0 as (_ & _ & H0 & _ & Hr & _).
  destruct (H1 ltac:(vm_compute; discriminate)) as [Hc Ho].
  destruct (H40 ltac:(vm_compute; discriminate) ltac:(vm_compute; discriminate))
    as [Hs _].
  destruct (H0 ltac:(vm_compute; discriminate)) as [Hc0 _].
  split; [exact Hc | ]. split; [exact Ho | ]. split; [exact Hs | ].
  split; [ | exact Hc0].
  apply Hr. unfold startedWorld.
  apply (run_reachable zeroSource [JumpTrigger] mountedWorld).
  apply (reachable_mount zeroSource).
Defined.

(** C8 as stated fails: the spawn threshold has no floor.  No number bounds
    it from below over the levels; at level 40 it is -10, and two
    consecutive frames of a level-40 game each spawn an obstacle. *)
Lemma spawn_threshold_has_no_floor :
  ~ (exists floor, forall level, 1 <= level -> floor <= spawnThreshold level) /\
  spawnThreshold 40 = -10 /\
  (let w1 := gameLoop zeroSource fullCanvas level40World in
   let w2 := gameLoop zeroSource fullCanvas w1 in
   GameState.level (World.gameState w1) = 40 /\
   List.length (GameState.obstacles (World.gameState level40World)) = 0%nat /\
   List.length (GameState.obstacles (World.gameState w1)) = 1%nat /\
   List.length (GameState.obstacles (World.gameState w2)) = 2%nat /\
   Timers.spawn (World.timers w1) = 0 /\
   Timers.spawn (World.timers w2) = 0).
Proof.
  split.
  - intros [floor H].
    specialize (H (Z.max 1 (71 - floor))).
    unfold spawnThreshold, GAME_CONFIG.OBSTACLE.SPAWN_INTERVAL in H. lia.
  - split; [reflexivity | ].
    vm_compute. repeat split; reflexivity.
Qed.

(** ** The combo ledger *)

Section Combo.

Variable randomSource : nat -> Q.








End Combo.



(** ** The colour roll *)

Section ColorRoll.

Variable randomSource : nat -> Q.

(** When the colour check rolls, and what it leaves behind: it rolls for a
    passed obstacle that is behind the player and has not rolled, whatever
    set its [passed] flag, provided its colour is the player's colour now;
    in any case it then sets the [colorChanged] latch, and does nothing
    once the latch is set. *)
Lemma colorChangeCheck_roll w obstacle :
  let cleared :=
    Obstacle.passed obstacle && behindPlayer (World.player w) obstacle &&
    negb (Obstacle.colorChanged obstacle) in
  let randomChance := Qfloor (randomSource (World.draws w) * 10) + 1 in
  let result := colorChangeCheck randomSource w obstacle in
  GameState.colorChangeOnNextObstacle (World.gameState (fst result)) =
    (GameState.colorChangeOnNextObstacle (World.gameState w) ||
     (cleared && sameColor w obstacle && (randomChance <=? 4))) /\
  World.draws (fst result) =
    (if cleared && sameColor w obstacle then S (World.draws w) else World.draws w) /\
  Obstacle.colorChanged (snd result) = (Obstacle.colorChanged obstacle || cleared) /\
  (Obstacle.colorChanged obstacle = true -> result = (w, obstacle)).
Proof.
  unfold colorChangeCheck, Math_random, sameColor. cbv zeta.
  destruct (Obstacle.passed obstacle);
    destruct (behindPlayer (World.player w) obstacle);
    destruct (Obstacle.colorChanged obstacle) eqn:Hc;
    destruct (Player.color (World.player w) =? Obstacle.color obstacle)%string;
    destruct (Qfloor (randomSource (World.draws w) * 10) + 1 <=? 4);
    cbn [andb negb orb]; world_simpl; rewrite ?orb_false_r, ?orb_true_r;
    repeat split; try reflexivity; try congruence.
Qed.

(** The trial succeeds on four of the ten equal parts of [[0, 1)]. *)
Lemma randomChance_is_two_in_five (r : Q) :
  (Qfloor (r * 10) + 1 <=? 4) = true <-> (r < 0.4)%Q.
Proof.
  rewrite Z.leb_le. split; intro H.
  - assert (Hlt : (r * 10 < inject_Z (Qfloor (r * 10) + 1))%Q) by apply Qlt_floor.
    assert (Hle : (inject_Z (Qfloor (r * 10) + 1) <= inject_Z 4)%Q)
      by (rewrite <- Zle_Qle; lia).
    change (inject_Z 4) with 4%Q in Hle. lra.
  - assert (Hle : (inject_Z (Qfloor (r * 10)) <= r * 10)%Q) by apply Qfloor_le.
    assert (Hlt : (inject_Z (Qfloor (r * 10)) < inject_Z 4)%Q)
      by (change (inject_Z 4) with 4%Q; lra).
    rewrite <- Zlt_Qlt in Hlt. lia.
Qed.

Lemma floor_index_in_range (r : Q) (n : Z) :
  (0 <= r)%Q -> (r < 1)%Q -> 0 < n -> 0 <= Qfloor (r * inject_Z n) < n.
Proof.
  intros H0 H1 Hn.
  assert (Hq : (0 < inject_Z n)%Q) by (change 0%Q with (inject_Z 0); rewrite <- Zlt_Qlt; exact Hn).
  split.
  - change 0 with (Qfloor 0). apply Qfloor_resp_le.
    apply Qmult_le_0_compat; [exact H0 | apply Qlt_le_weak; exact Hq].
  - rewrite Zlt_Qlt.
    apply Qle_lt_trans with (r * inject_Z n)%Q; [apply Qfloor_le | ].
    setoid_replace (inject_Z n) with (1 * inject_Z n)%Q at 2 by ring.
    apply Qmult_lt_compat_r; assumption.
Qed.

Lemma availableColors_length current :
  (4 <= List.length (availableColors current))%nat.
Proof.
  unfold availableColors, GAME_CONFIG.COLORS. cbn [filter].
  repeat match goal with
  | |- context [String.eqb ?a current] =>
      destruct (String.eqb_spec a current); [subst current; cbn; lia | ]
  end.
  cbn. lia.
Qed.

(** When the pending flag is applied, the new colour is taken from the
    palette without the player's current colour, for every draw in
    [[0, 1)], and the flag is cleared. *)
Lemma applyColorChange_excludes_current w :
  GameState.colorChangeOnNextObstacle (World.gameState w) = true ->
  (0 <= randomSource (World.draws w))%Q ->
  (randomSource (World.draws w) < 1)%Q ->
  let w' := applyColorChange randomSource w in
  In (Player.color (World.player w')) GAME_CONFIG.COLORS /\
  Player.color (World.player w') <> Player.color (World.player w) /\
  GameState.colorChangeOnNextObstacle (World.gameState w') = false.
Proof.
  intros Hflag H0 H1. cbv zeta.
  unfold applyColorChange, Math_random. rewrite Hflag. cbv zeta.
  set (available := availableColors (Player.color (World.player w))).
  set (i := Qfloor (randomSource (World.draws w) *
                    inject_Z (Z.of_nat (List.length available)))).
  assert (Hlen : (4 <= List.length available)%nat) by apply availableColors_length.
  assert (Hi : 0 <= i < Z.of_nat (List.length available))
    by (apply floor_index_in_range; [assumption | assumption | lia]).
  assert (Hin : In (array_get available i) available).
  { unfold array_get. replace (i <? 0) with false by (symmetry; apply Z.ltb_ge; lia).
    apply nth_In. lia. }
  unfold available, availableColors in Hin. apply filter_In in Hin.
  destruct Hin as [Hin Hneq]. apply negb_true_iff, String.eqb_neq in Hneq.
  world_simpl. split; [exact Hin | ]. split; [exact Hneq | reflexivity].
Qed.

End ColorRoll.

(** C7, on the code.  The roll is not reserved to obstacles passed by a
    same-colour match.  From the mounted state the game is started; the
    first obstacle has the player's colour; the player jumps over it, which
    scores 1 point and leaves the combo at 0 (a same-colour pass of this
    bonus obstacle would score 20 and raise the combo).  Once the obstacle
    is behind the player the colour check rolls for it all the same: its
    latch is set and the player's colour changes. *)
Theorem jump_over_triggers_color_roll :
  let jumped := run zeroSource (jumpOverEvents 15) mountedWorld in
  let beforeRoll := run zeroSource (jumpOverEvents 34) mountedWorld in
  let afterRoll := gameLoop zeroSource fullCanvas beforeRoll in
  afterRoll = run zeroSource (jumpOverEvents 35) mountedWorld /\
  map (fun o => (Obstacle.color o, Obstacle.passed o, Obstacle.colorChanged o))
      (GameState.obstacles (World.gameState jumped)) =
    [("#ff4757"%string, true, false); ("#ff4757"%string, false, false)] /\
  (GameState.score (World.gameState jumped), GameState.combo (World.gameState jumped)) =
    (1, 0) /\
  Player.color (World.player beforeRoll) = "#ff4757"%string /\
  map (fun o => (Obstacle.color o, Obstacle.passed o, Obstacle.colorChanged o))
      (GameState.obstacles (World.gameState beforeRoll)) =
    [("#ff4757"%string, true, false); ("#ff4757"%string, false, false)] /\
  map (fun o => (Obstacle.color o, Obstacle.passed o, Obstacle.colorChanged o))
      (GameState.obstacles (World.gameState afterRoll)) =
    [("#ff4757"%string, true, true); ("#ff4757"%string, false, false)] /\
  World.draws afterRoll = (World.draws beforeRoll + 2)%nat /\
  Player.color (World.player afterRoll) = "#2ed573"%string /\
  (GameState.score (World.gameState afterRoll),
   GameState.combo (World.gameState afterRoll)) = (1, 0).
Proof.
  vm_compute. repeat split; reflexivity.
Qed.

(** * Further properties of the engine *)

(** ** Scroll speed (lines 580-587) *)

Lemma currentSpeedOf_unfold (score : Z) :
  (currentSpeedOf score ==
   Qmin (3 + 0.24 * inject_Z (score / 100)) 7.5)%Q.
Proof.
  unfold currentSpeedOf, GAME_CONFIG.OBSTACLE.BASE_SPEED,
    GAME_CONFIG.SPEED_INCREASE_RATE, GAME_CONFIG.MAX_SPEED_MULTIPLIER.
  apply Q.min_compat; ring.
Qed.

(** X1.  The scroll speed grows with the score in steps of 0.24 per 100 points,
    from the base speed 3 up to the cap 7.5, which is reached exactly from
    score 1900 on.  A negative score would give less than the base speed. *)
Theorem currentSpeedOf_steps_and_cap :
  (forall s1 s2, s1 <= s2 -> (currentSpeedOf s1 <= currentSpeedOf s2)%Q) /\
  (forall score, 0 <= score -> (3 <= currentSpeedOf score <= 7.5)%Q) /\
  (forall score, 0 <= score < 100 -> (currentSpeedOf score == 3)%Q) /\
  (forall score, 0 <= score < 1900 ->
     (currentSpeedOf score == 3 + 0.24 * inject_Z (score / 100))%Q /\
     (currentSpeedOf score < 7.5)%Q) /\
  (forall score, 1900 <= score -> (currentSpeedOf score == 7.5)%Q) /\
  (forall score, score < 0 -> (currentSpeedOf score < 3)%Q).
Proof.
  assert (Hdiv : forall a b, a <= b -> (inject_Z (a / 100) <= inject_Z (b / 100))%Q).
  { intros a b Hab. rewrite <- Zle_Qle. apply Z.div_le_mono; lia. }
  assert (Hlow : forall score, score < 1900 -> (inject_Z (score / 100) <= 18)%Q).
  { intros score H. change 18%Q with (inject_Z 18). rewrite <- Zle_Qle.
    assert (score / 100 < 19) by (apply Z.div_lt_upper_bound; lia). lia. }
  split; [intros s1 s2 H | ].
  { rewrite (currentSpeedOf_unfold s1), (currentSpeedOf_unfold s2).
    specialize (Hdiv s1 s2 H). apply Q.min_le_compat; lra. }
  split; [intros score H | ].
  { rewrite (currentSpeedOf_unfold score). specialize (Hdiv 0 score H).
    change (inject_Z (0 / 100)) with 0%Q in Hdiv.
    split; [apply Q.min_glb; lra | apply Q.le_min_r]. }
  split; [intros score H | ].
  { rewrite (currentSpeedOf_unfold score).
    replace (score / 100) with 0 by (symmetry; apply Z.div_small; lia).
    rewrite Q.min_l; [ring | change (inject_Z 0) with 0%Q; lra]. }
  split; [intros score H | ].
  { rewrite (currentSpeedOf_unfold score).
    assert (Hk := Hlow score ltac:(lia)).
    split; [apply Q.min_l; lra | ].
    eapply Qle_lt_trans; [apply Q.le_min_l | lra]. }
  split; intros score H.
  { rewrite (currentSpeedOf_unfold score).
    assert (Hk : (inject_Z 19 <= inject_Z (score / 100))%Q)
      by (rewrite <- Zle_Qle; apply Z.div_le_lower_bound; lia).
    change (inject_Z 19) with 19%Q in Hk.
    apply Q.min_r. lra. }
  rewrite (currentSpeedOf_unfold score).
  assert (Hk : (inject_Z (score / 100) <= inject_Z (-1))%Q).
  { rewrite <- Zle_Qle.
    assert (score / 100 < 0) by (apply Z.div_lt_upper_bound; lia). lia. }
  change (inject_Z (-1)) with (-1)%Q in Hk.
  eapply Qle_lt_trans; [apply Q.le_min_l | lra].
Qed.

(** ** Ranges of score, combo and timers *)

Section Ranges.

Variable randomSource : nat -> Q.

Ltac ranges_by_cases :=
  unfold scoreAtLeast, rangesInvariant, GAME_CONFIG.COMBO_TIMEOUT,
    GAME_CONFIG.POWERUP.DURATION in *;
  cbv zeta; split_ifs; world_simpl;
  first [ lia | Z.div_mod_to_equations; lia ].

Lemma resolveCollision_scoreAtLeast floor canvas w obstacle :
  scoreAtLeast floor w ->
  scoreAtLeast floor (fst (fst (resolveCollision canvas w obstacle))).
Proof.
  unfold resolveCollision, saveBestScore, baseScorePass, baseScoreJump.
  destruct (Obstacle.type obstacle); intro H; ranges_by_cases.
Qed.

Lemma colorChangeCheck_scoreAtLeast floor w obstacle :
  scoreAtLeast floor w ->
  scoreAtLeast floor (fst (colorChangeCheck randomSource w obstacle)).
Proof.
  unfold colorChangeCheck, Math_random. intro H. ranges_by_cases.
Qed.

Lemma obstacleCallback_scoreAtLeast floor canvas currentSpeed w obstacle :
  scoreAtLeast floor w ->
  scoreAtLeast floor
    (fst (obstacleCallback randomSource canvas currentSpeed w obstacle)).
Proof.
  intro H. rewrite obstacleCallback_unfold. cbv zeta.
  pose proof (resolveCollision_scoreAtLeast floor canvas w
                (advance currentSpeed obstacle) H) as H1.
  destruct (resolveCollision canvas w (advance currentSpeed obstacle)) as [[w1 o1] ret].
  cbn [fst snd] in *. destruct ret; cbn [fst]; [exact H1 | ].
  apply colorChangeCheck_scoreAtLeast. exact H1.
Qed.

Lemma powerUpCallback_scoreAtLeast floor currentSpeed w powerUp :
  scoreAtLeast floor w ->
  scoreAtLeast floor (fst (powerUpCallback currentSpeed w powerUp)).
Proof.
  unfold powerUpCallback, applyPowerUp. intro H.
  destruct (PowerUp.type (PowerUp.set_x (PowerUp.x powerUp - currentSpeed)%Q powerUp));
    ranges_by_cases.
Qed.

Lemma beforePasses_scoreAtLeast floor canvas w :
  scoreAtLeast floor w -> scoreAtLeast floor (beforePasses canvas w).
Proof.
  unfold beforePasses, updateLevel, updatePhysics, scrollBackground.
  intro H.
  unfold scoreAtLeast, rangesInvariant, GAME_CONFIG.COMBO_TIMEOUT,
    GAME_CONFIG.POWERUP.DURATION in *.
  cbv zeta; split_ifs; world_simpl; Z.div_mod_to_equations; lia.
Qed.

Lemma endOfTick_scoreAtLeast floor canvas obstacles powerUps w :
  scoreAtLeast floor w ->
  scoreAtLeast floor (endOfTick randomSource canvas obstacles powerUps w).
Proof.
  intro H. unfold endOfTick. cbv zeta.
  assert (H1 : scoreAtLeast floor (prune obstacles powerUps w))
    by (unfold prune; ranges_by_cases).
  set (w1 := prune obstacles powerUps w) in *. clearbody w1. clear H.
  assert (H2 : scoreAtLeast floor (obstacleSpawnTick randomSource canvas w1))
    by (unfold obstacleSpawnTick, spawnObstacle, Math_random; ranges_by_cases).
  set (w2 := obstacleSpawnTick randomSource canvas w1) in *. clearbody w2. clear H1.
  assert (H3 : scoreAtLeast floor (powerUpSpawnTick randomSource canvas w2))
    by (unfold powerUpSpawnTick, spawnPowerUp, Math_random; ranges_by_cases).
  set (w3 := powerUpSpawnTick randomSource canvas w2) in *. clearbody w3. clear H2.
  assert (H4 : scoreAtLeast floor (applyColorChange randomSource w3))
    by (unfold applyColorChange, Math_random; ranges_by_cases).
  set (w4 := applyColorChange randomSource w3) in *. clearbody w4. clear H3.
  assert (H5 : scoreAtLeast floor (ageTimers w4))
    by (unfold ageTimers; ranges_by_cases).
  set (w5 := ageTimers w4) in *. clearbody w5. clear H4.
  unfold comboDecay. ranges_by_cases.
Qed.

Lemma gameLoop_scoreAtLeast floor canvas w :
  scoreAtLeast floor w -> scoreAtLeast floor (gameLoop randomSource canvas w).
Proof.
  intro H.
  destruct (GameState.gameStarted (World.gameState w)) eqn:Hs.
  - rewrite (gameLoop_started randomSource canvas w Hs). cbv zeta.
    apply endOfTick_scoreAtLeast.
    unfold powerUpPass.
    apply (forEachPowerUp_invariant (scoreAtLeast floor) (frameSpeed w)
             (powerUpCallback_scoreAtLeast floor (frameSpeed w))).
    unfold obstaclePass.
    apply (forEachObstacle_invariant randomSource (scoreAtLeast floor) canvas (frameSpeed w)
             (obstacleCallback_scoreAtLeast floor canvas (frameSpeed w))).
    apply beforePasses_scoreAtLeast. exact H.
  - rewrite (gameLoop_title randomSource canvas w Hs).
    unfold scrollBackground. ranges_by_cases.
Qed.

Lemma handleJump_scoreAtLeast floor w :
  scoreAtLeast floor w -> scoreAtLeast floor (handleJump w).
Proof.
  unfold handleJump, startGame. intro H. ranges_by_cases.
Qed.

Lemma resetGame_ranges w : rangesInvariant (resetGame w).
Proof.
  unfold rangesInvariant, resetGame, createInitialGameState,
    GAME_CONFIG.COMBO_TIMEOUT, GAME_CONFIG.POWERUP.DURATION.
  world_simpl. lia.
Qed.

Lemma reachable_ranges w : reachable randomSource w -> rangesInvariant w.
Proof.
  induction 1 as [w0 | e w Hr IH He].
  - apply resetGame_ranges.
  - assert (H0 : scoreAtLeast 0 w) by (split; [exact IH | apply IH]).
    destruct e as [canvas | | ]; cbn [react].
    + apply (gameLoop_scoreAtLeast 0 canvas w H0).
    + apply (handleJump_scoreAtLeast 0 w H0).
    + apply resetGame_ranges.
Qed.

(** X2.  In every reachable state the score and the combo are not negative, the
    combo timer is in [0, COMBO_TIMEOUT], the shield and jump-boost timers
    are in [0, DURATION], the invincibility timer is in [0, 120] and the
    level is at least 1. *)
Theorem counters_stay_in_range w :
  reachable randomSource w ->
  0 <= GameState.score (World.gameState w) /\
  0 <= GameState.combo (World.gameState w) /\
  0 <= GameState.comboTimer (World.gameState w) <= 600 /\
  0 <= Player.shield (World.player w) <= 300 /\
  0 <= Player.jumpBoost (World.player w) <= 300 /\
  0 <= Player.invincible (World.player w) <= 120 /\
  1 <= GameState.level (World.gameState w).
Proof.
  intro H. exact (reachable_ranges w H).
Qed.

(** X3.  In a reachable state neither a frame nor a jump trigger lowers the
    score: only [resetGame] takes it back, to 0. *)
Theorem score_never_decreases w :
  reachable randomSource w ->
  (forall canvas,
     GameState.score (World.gameState w) <=
     GameState.score (World.gameState (gameLoop randomSource canvas w))) /\
  GameState.score (World.gameState (handleJump w)) =
    GameState.score (World.gameState w) /\
  GameState.score (World.gameState (resetGame w)) = 0.
Proof.
  intro H. apply reachable_ranges in H.
  assert (H0 : scoreAtLeast (GameState.score (World.gameState w)) w)
    by (split; [exact H | lia]).
  split; [intro canvas; apply (gameLoop_scoreAtLeast _ canvas w H0) | ].
  split; [ | reflexivity].
  unfold handleJump, startGame. cbv zeta. split_ifs; world_simpl; reflexivity.
Qed.

End Ranges.

(** The game of [jumpOverEvents], 35 frames after the jump: the score is 1
    and all counters are in their ranges. *)
Lemma counters_stay_in_range_witness :
  GameState.score (World.gameState rolledWorld) = 1 /\
  0 <= GameState.comboTimer (World.gameState rolledWorld) <= 600 /\
  0 <= Player.invincible (World.player rolledWorld) <= 120 /\
  1 <= GameState.level (World.gameState rolledWorld).
Proof.
  pose proof (counters_stay_in_range zeroSource rolledWorld
                (run_reachable zeroSource (jumpOverEvents 35) mountedWorld
                   (reachable_mount zeroSource _))) as H.
  destruct H as (_ & _ & Ht & _ & _ & Hi & Hl).
  assert (Hs : GameState.score (World.gameState rolledWorld) = 1)
    by (vm_compute; reflexivity).
  exact (conj Hs (conj Ht (conj Hi Hl))).
Defined.

(** In that game the next frame does not lower the score of 1. *)
Lemma score_never_decreases_witness :
  1 <= GameState.score (World.gameState (gameLoop zeroSource fullCanvas rolledWorld)) /\
  GameState.score (World.gameState (handleJump rolledWorld)) = 1.
Proof.
  pose proof (score_never_decreases zeroSource rolledWorld
                (run_reachable zeroSource (jumpOverEvents 35) mountedWorld
                   (reachable_mount zeroSource _))) as H.
  destruct H as (Hf & Hj & _).
  assert (Hs : GameState.score (World.gameState rolledWorld) = 1)
    by (vm_compute; reflexivity).
  rewrite Hs in Hj. specialize (Hf fullCanvas). rewrite Hs in Hf.
  exact (conj Hf Hj).
Defined.

(** ** Best score (lines 122-137, 161, 718-721) *)

Section BestScore.

Variable randomSource : nat -> Q.

Ltac best_by_cases :=
  let Hc := fresh "Hc" in let Hb := fresh "Hb" in let Hf := fresh "Hf" in
  intros (Hc & Hb & Hf);
  unfold bestScoreKept, getBestScore, saveBestScore in *;
  cbv zeta; split_ifs; world_simpl;
  repeat match goal with
  | H : World.isClient _ = _ |- _ => rewrite H in *
  end;
  repeat split; intros; try reflexivity; try lia; try congruence;
  try (apply Hb; assumption).

Lemma resolveCollision_bestScoreKept client floor canvas w obstacle :
  bestScoreKept client floor w ->
  bestScoreKept client floor (fst (fst (resolveCollision canvas w obstacle))).
Proof.
  unfold resolveCollision. best_by_cases.
Qed.

Lemma colorChangeCheck_bestScoreKept client floor w obstacle :
  bestScoreKept client floor w ->
  bestScoreKept client floor (fst (colorChangeCheck randomSource w obstacle)).
Proof.
  unfold colorChangeCheck, Math_random. best_by_cases.
Qed.

Lemma obstacleCallback_bestScoreKept client floor canvas currentSpeed w obstacle :
  bestScoreKept client floor w ->
  bestScoreKept client floor
    (fst (obstacleCallback randomSource canvas currentSpeed w obstacle)).
Proof.
  intro H. rewrite obstacleCallback_unfold. cbv zeta.
  pose proof (resolveCollision_bestScoreKept client floor canvas w
                (advance currentSpeed obstacle) H) as H1.
  destruct (resolveCollision canvas w (advance currentSpeed obstacle)) as [[w1 o1] ret].
  cbn [fst snd] in *. destruct ret; cbn [fst]; [exact H1 | ].
  apply colorChangeCheck_bestScoreKept. exact H1.
Qed.

Lemma powerUpCallback_bestScoreKept client floor currentSpeed w powerUp :
  bestScoreKept client floor w ->
  bestScoreKept client floor (fst (powerUpCallback currentSpeed w powerUp)).
Proof.
  unfold powerUpCallback, applyPowerUp.
  destruct (PowerUp.type (PowerUp.set_x (PowerUp.x powerUp - currentSpeed)%Q powerUp));
    best_by_cases.
Qed.

Lemma beforePasses_bestScoreKept client floor canvas w :
  bestScoreKept client floor w -> bestScoreKept client floor (beforePasses canvas w).
Proof.
  unfold beforePasses, updateLevel, updatePhysics, scrollBackground. best_by_cases.
Qed.

Lemma endOfTick_bestScoreKept client floor canvas obstacles powerUps w :
  bestScoreKept client floor w ->
  bestScoreKept client floor (endOfTick randomSource canvas obstacles powerUps w).
Proof.
  intro H. unfold endOfTick. cbv zeta.
  assert (H1 : bestScoreKept client floor (prune obstacles powerUps w))
    by (revert H; unfold prune; best_by_cases).
  set (w1 := prune obstacles powerUps w) in *. clearbody w1. clear H.
  assert (H2 : bestScoreKept client floor (obstacleSpawnTick randomSource canvas w1))
    by (revert H1; unfold obstacleSpawnTick, spawnObstacle, Math_random; best_by_cases).
  set (w2 := obstacleSpawnTick randomSource canvas w1) in *. clearbody w2. clear H1.
  assert (H3 : bestScoreKept client floor (powerUpSpawnTick randomSource canvas w2))
    by (revert H2; unfold powerUpSpawnTick, spawnPowerUp, Math_random; best_by_cases).
  set (w3 := powerUpSpawnTick randomSource canvas w2) in *. clearbody w3. clear H2.
  assert (H4 : bestScoreKept client floor (applyColorChange randomSource w3))
    by (revert H3; unfold applyColorChange, Math_random; best_by_cases).
  set (w4 := applyColorChange randomSource w3) in *. clearbody w4. clear H3.
  assert (H5 : bestScoreKept client floor (ageTimers w4))
    by (revert H4; unfold ageTimers; best_by_cases).
  set (w5 := ageTimers w4) in *. clearbody w5. clear H4.
  revert H5. unfold comboDecay. best_by_cases.
Qed.

Lemma gameLoop_bestScoreKept client floor canvas w :
  bestScoreKept client floor w ->
  bestScoreKept client floor (gameLoop randomSource canvas w).
Proof.
  intro H.
  destruct (GameState.gameStarted (World.gameState w)) eqn:Hs.
  - rewrite (gameLoop_started randomSource canvas w Hs). cbv zeta.
    apply endOfTick_bestScoreKept.
    unfold powerUpPass.
    apply (forEachPowerUp_invariant (bestScoreKept client floor) (frameSpeed w)
             (powerUpCallback_bestScoreKept client floor (frameSpeed w))).
    unfold obstaclePass.
    apply (forEachObstacle_invariant randomSource (bestScoreKept client floor)
             canvas (frameSpeed w)
             (obstacleCallback_bestScoreKept client floor canvas (frameSpeed w))).
    apply beforePasses_bestScoreKept. exact H.
  - rewrite (gameLoop_title randomSource canvas w Hs).
    revert H. unfold scrollBackground. best_by_cases.
Qed.

Lemma handleJump_bestScoreKept client floor w :
  bestScoreKept client floor w -> bestScoreKept client floor (handleJump w).
Proof.
  unfold handleJump, startGame. best_by_cases.
Qed.

Lemma resetGame_bestScoreKept w :
  bestScoreKept (World.isClient w) (getBestScore w) (resetGame w).
Proof.
  unfold bestScoreKept, resetGame, createInitialGameState, getBestScore.
  world_simpl. repeat split; intros; try reflexivity; lia.
Qed.

Lemma reachable_bestScoreKept w :
  reachable randomSource w ->
  bestScoreKept (World.isClient w) (GameState.bestScore (World.gameState w)) w.
Proof.
  assert (Hweak : forall c f w0, bestScoreKept c f w0 ->
            bestScoreKept (World.isClient w0)
              (GameState.bestScore (World.gameState w0)) w0).
  { intros c f w0 (Hc & Hb & _). subst c.
    split; [reflexivity | ]. split; [exact Hb | lia]. }
  induction 1 as [w0 | e w Hr IH He].
  - apply (Hweak _ _ _ (resetGame_bestScoreKept w0)).
  - destruct e as [canvas | | ]; cbn [react].
    + apply (Hweak _ _ _ (gameLoop_bestScoreKept _ _ canvas w IH)).
    + apply (Hweak _ _ _ (handleJump_bestScoreKept _ _ w IH)).
    + apply (Hweak _ _ _ (resetGame_bestScoreKept w)).
Qed.

Lemma run_isClient events : forall w,
  reachable randomSource w ->
  World.isClient (run randomSource events w) = World.isClient w.
Proof.
  induction events as [|e rest IH]; intros w Hr; cbn [run].
  - reflexivity.
  - destruct (enabled e w) eqn:He; [ | apply IH; exact Hr].
    rewrite IH by (apply reachable_event; assumption).
    pose proof (reachable_bestScoreKept w Hr) as H.
    destruct e as [canvas | | ]; cbn [react].
    + apply (gameLoop_bestScoreKept _ _ canvas w H).
    + apply (handleJump_bestScoreKept _ _ w H).
    + reflexivity.
Qed.

(** X4.  On a client the best score of a reachable state is the stored one, so
    that [resetGame] carries it over; a frame never lowers it and a jump
    trigger leaves it; no event changes the client flag.  Off the client the
    store is never read: a reset starts again from a best score of 0. *)
Theorem best_score_survives_reset w :
  reachable randomSource w ->
  (World.isClient w = true ->
     GameState.bestScore (World.gameState w) = getBestScore w /\
     GameState.bestScore (World.gameState (resetGame w)) =
       GameState.bestScore (World.gameState w)) /\
  (World.isClient w = false ->
     GameState.bestScore (World.gameState (resetGame w)) = 0) /\
  (forall canvas,
     GameState.bestScore (World.gameState w) <=
     GameState.bestScore (World.gameState (gameLoop randomSource canvas w))) /\
  GameState.bestScore (World.gameState (handleJump w)) =
    GameState.bestScore (World.gameState w) /\
  (forall e, World.isClient (react randomSource e w) = World.isClient w).
Proof.
  intro Hr. pose proof (reachable_bestScoreKept w Hr) as H.
  split.
  { intro Hc. destruct H as (_ & Hb & _). rewrite Hc in Hb. specialize (Hb eq_refl).
    split; [exact Hb | ].
    rewrite Hb. unfold resetGame, createInitialGameState. world_simpl. reflexivity. }
  split.
  { intro Hc. unfold resetGame, createInitialGameState, getBestScore. world_simpl.
    rewrite Hc. reflexivity. }
  split.
  { intro canvas. apply (gameLoop_bestScoreKept _ _ canvas w H). }
  split.
  { unfold handleJump, startGame. cbv zeta. split_ifs; world_simpl; reflexivity. }
  intros [canvas | | ]; cbn [react].
  - apply (gameLoop_bestScoreKept _ _ canvas w H).
  - apply (handleJump_bestScoreKept _ _ w H).
  - reflexivity.
Qed.

End BestScore.

(** ** Title, playing, game over *)

Section Phases2.

Variable randomSource : nat -> Q.

Lemma gameLoop_stays_started canvas w :
  GameState.gameStarted (World.gameState w) = true ->
  GameState.gameStarted (World.gameState (gameLoop randomSource canvas w)) = true.
Proof.
  intro Hs. rewrite (gameLoop_started randomSource canvas w Hs). cbv zeta.
  set (P := fun w0 : World.t => GameState.gameStarted (World.gameState w0) = true).
  assert (H0 : P (beforePasses canvas w)).
  { unfold P. destruct (beforePasses_keeps canvas w)
      as (_ & _ & _ & _ & _ & _ & _ & _ & _ & _ & _ & _ & B & _). congruence. }
  unfold obstaclePass, powerUpPass.
  assert (H1 := forEachObstacle_invariant randomSource P canvas (frameSpeed w)
            (fun w0 o (H : P w0) =>
               eq_trans
                 (proj2 (proj2 (proj2 (proj2
                    (obstacleCallback_lives randomSource canvas (frameSpeed w) w0 o)))))
                 H)
            (GameState.obstacles (World.gameState (beforePasses canvas w))) _ H0).
  set (r1 := forEachObstacle randomSource canvas (frameSpeed w) (beforePasses canvas w)
               (GameState.obstacles (World.gameState (beforePasses canvas w)))) in *.
  assert (H2 := forEachPowerUp_invariant P (frameSpeed w)
            (fun w0 u (H : P w0) =>
               eq_trans
                 (proj1 (proj2 (proj2 (proj2 (proj2
                    (powerUpCallback_keeps (frameSpeed w) w0 u))))))
                 H)
            (GameState.powerUps (World.gameState (fst r1))) _ H1).
  set (r2 := forEachPowerUp (frameSpeed w) (fst r1)
               (GameState.powerUps (World.gameState (fst r1)))) in *.
  destruct (endOfTick_effect randomSource canvas (snd r1) (snd r2) (fst r2)) as (Hv & _).
  clearbody r2 r1. unfold vitals in Hv.
  apply pair_equal_spec in Hv. destruct Hv as [_ Hv]. unfold P in H2. congruence.
Qed.

Lemma reachable_over_started w :
  reachable randomSource w ->
  GameState.isGameOver (World.gameState w) = true ->
  GameState.gameStarted (World.gameState w) = true.
Proof.
  induction 1 as [w0 | e w Hr IH He].
  - unfold resetGame, createInitialGameState. world_simpl. discriminate.
  - destruct e as [canvas | | ]; cbn [react enabled] in *.
    + apply negb_true_iff in He. intro Hover.
      destruct (GameState.gameStarted (World.gameState w)) eqn:Hs.
      * apply gameLoop_stays_started. exact Hs.
      * rewrite (gameLoop_title randomSource canvas w Hs) in *.
        exfalso.
        destruct (scrollBackground_keeps canvas w)
          as (_ & _ & _ & _ & _ & _ & Hg & _).
        congruence.
    + unfold handleJump, startGame. cbv zeta.
      destruct (GameState.gameStarted (World.gameState w)) eqn:Hs; cbn [negb].
      * destruct (GameState.isGameOver (World.gameState w)) eqn:Hg; [intro; exact Hs | ].
        split_ifs; world_simpl; congruence.
      * world_simpl. reflexivity.
    + unfold resetGame, createInitialGameState. world_simpl. discriminate.
Qed.

(** X6.  Once a reachable game is over, nothing but a reset changes the state:
    no frame runs and a jump trigger returns at once.  The reset then gives
    the title state again: not started, not over, 3 lives, score 0, nothing
    on screen, frame counters at 0. *)
Theorem game_over_waits_for_reset w :
  reachable randomSource w ->
  GameState.isGameOver (World.gameState w) = true ->
  (forall events,
     forallb (fun e => negb (isReset e)) events = true ->
     run randomSource events w = w) /\
  (let w' := resetGame w in
   GameState.gameStarted (World.gameState w') = false /\
   GameState.isGameOver (World.gameState w') = false /\
   Player.lives (World.player w') = 3 /\
   GameState.score (World.gameState w') = 0 /\
   GameState.combo (World.gameState w') = 0 /\
   GameState.obstacles (World.gameState w') = [] /\
   GameState.powerUps (World.gameState w') = [] /\
   World.timers w' = Timers.mk 0 0 0).
Proof.
  intros Hr Hover.
  pose proof (reachable_over_started w Hr Hover) as Hs.
  split.
  - induction events as [|e rest IH]; intro Hall; cbn [run].
    + reflexivity.
    + cbn [forallb] in Hall. apply andb_true_iff in Hall. destruct Hall as [He Hall].
      destruct e as [canvas | | ]; cbn [enabled react].
      * rewrite Hover. cbn [negb]. apply IH. exact Hall.
      * unfold handleJump. rewrite Hs, Hover. cbn [negb]. apply IH. exact Hall.
      * discriminate He.
  - cbv zeta. unfold resetGame, createInitialGameState. world_simpl.
    repeat split; reflexivity.
Qed.

(** X7.  Before the first trigger the game idles on the title screen: whatever
    frames run, only the background offset moves (no physics, no spawn, no
    draw of the random source); the first trigger then only sets
    [gameStarted], without a jump. *)
Theorem title_screen_only_scrolls w :
  GameState.gameStarted (World.gameState w) = false ->
  (forall events,
     forallb isFrame events = true ->
     exists offset,
       run randomSource events w =
       World.upd (GameState.set_backgroundOffset offset) w) /\
  handleJump w = World.upd (GameState.set_gameStarted true) w /\
  World.player (handleJump w) = World.player w.
Proof.
  intro Hs. split; [ | split].
  - intro events. revert w Hs.
    induction events as [|e rest IH]; intros w Hs Hall; cbn [run].
    + exists (GameState.backgroundOffset (World.gameState w)).
      destruct w as [[p o u s c t b l g f bo st] tm cl ls d]. reflexivity.
    + cbn [forallb] in Hall. apply andb_true_iff in Hall. destruct Hall as [He Hall].
      destruct e as [canvas | | ]; try discriminate He. cbn [enabled react].
      assert (Hstep : exists offset,
                (if negb (GameState.isGameOver (World.gameState w))
                 then gameLoop randomSource canvas w else w) =
                World.upd (GameState.set_backgroundOffset offset) w).
      { destruct (negb (GameState.isGameOver (World.gameState w))).
        - rewrite (gameLoop_title randomSource canvas w Hs).
          unfold scrollBackground. cbv zeta.
          split_ifs; eexists; world_simpl; reflexivity.
        - exists (GameState.backgroundOffset (World.gameState w)).
          destruct w as [[p o u s c t b l g f bo st] tm cl ls d]. reflexivity. }
      destruct Hstep as [offset Hstep]. rewrite Hstep.
      destruct (IH (World.upd (GameState.set_backgroundOffset offset) w))
        as [offset' IH']; [world_simpl; exact Hs | exact Hall | ].
      exists offset'. rewrite IH'. world_simpl. reflexivity.
  - unfold handleJump, startGame. rewrite Hs. reflexivity.
  - unfold handleJump, startGame. rewrite Hs. world_simpl. reflexivity.
Qed.

End Phases2.

(** The game that ends after 346 frames ran on a client: the reset keeps
    its best score and takes the score back to 0. *)
Lemma best_score_survives_reset_witness :
  GameState.bestScore (World.gameState (resetGame gameOverWorld)) =
    GameState.bestScore (World.gameState gameOverWorld) /\
  GameState.bestScore (World.gameState gameOverWorld) = getBestScore gameOverWorld /\
  GameState.score (World.gameState (resetGame gameOverWorld)) = 0.
Proof.
  pose proof (best_score_survives_reset fifthSource gameOverWorld
                (run_reachable fifthSource (standStillEvents 346) mountedWorld
                   (reachable_mount fifthSource _))) as H.
  destruct H as (H & _).
  assert (Hc : World.isClient gameOverWorld = true).
  { unfold gameOverWorld.
    rewrite (run_isClient fifthSource (standStillEvents 346) mountedWorld
               (reachable_mount fifthSource _)).
    reflexivity. }
  destruct (H Hc) as (Hb & Hr).
  exact (conj Hr (conj Hb eq_refl)).
Defined.

(** That game is over; frames and jump triggers then leave it as it is. *)
Lemma game_over_waits_for_reset_witness :
  run fifthSource [Frame narrowCanvas; JumpTrigger; Frame fullCanvas] gameOverWorld =
    gameOverWorld /\
  Player.lives (World.player (resetGame gameOverWorld)) = 3.
Proof.
  pose proof (game_over_waits_for_reset fifthSource gameOverWorld
                (run_reachable fifthSource (standStillEvents 346) mountedWorld
                   (reachable_mount fifthSource _))
                ltac:(vm_compute; reflexivity)) as H.
  cbv zeta in H. destruct H as (Hrun & _ & _ & Hl & _).
  exact (conj (Hrun [Frame narrowCanvas; JumpTrigger; Frame fullCanvas] eq_refl) Hl).
Defined.

(** Three frames on the title screen of the mounted component, then the
    first trigger. *)
Lemma title_screen_only_scrolls_witness :
  (exists offset,
     run zeroSource (repeat (Frame fullCanvas) 3) mountedWorld =
     World.upd (GameState.set_backgroundOffset offset) mountedWorld) /\
  Player.vy (World.player (handleJump mountedWorld)) = 0%Q.
Proof.
  pose proof (title_screen_only_scrolls zeroSource mountedWorld eq_refl) as H.
  destruct H as (Hrun & _ & Hp).
  split.
  - exact (Hrun (repeat (Frame fullCanvas) 3) eq_refl).
  - rewrite Hp. reflexivity.
Defined.

(** ** Physics (lines 275-285 and 527-538) *)

Ltac push_inject H :=
  unfold Z.sub in H;
  repeat first [ rewrite inject_Z_plus in H | rewrite inject_Z_mult in H
               | rewrite inject_Z_opp in H ];
  change (inject_Z 0) with 0%Q in H; change (inject_Z 1) with 1%Q in H;
  change (inject_Z 2) with 2%Q in H.


Section Physics.

Variable randomSource : nat -> Q.

Ltac body_by_cases :=
  unfold body in *; cbv zeta; split_ifs; world_simpl; congruence.

Lemma obstacleCallback_body b canvas currentSpeed w obstacle :
  body w = b ->
  body (fst (obstacleCallback randomSource canvas currentSpeed w obstacle)) = b.
Proof.
  intro H. rewrite obstacleCallback_unfold. cbv zeta.
  assert (H1 : body (fst (fst (resolveCollision canvas w
                                 (advance currentSpeed obstacle)))) = b).
  { revert H. unfold resolveCollision, saveBestScore. intro H. body_by_cases. }
  destruct (resolveCollision canvas w (advance currentSpeed obstacle)) as [[w1 o1] ret].
  cbn [fst snd] in *. destruct ret; cbn [fst]; [exact H1 | ].
  revert H1. unfold colorChangeCheck, Math_random. intro H1. body_by_cases.
Qed.

Lemma powerUpCallback_body b currentSpeed w powerUp :
  body w = b -> body (fst (powerUpCallback currentSpeed w powerUp)) = b.
Proof.
  unfold powerUpCallback, applyPowerUp. intro H.
  destruct (PowerUp.type (PowerUp.set_x (PowerUp.x powerUp - currentSpeed)%Q powerUp));
    body_by_cases.
Qed.

Lemma endOfTick_body b canvas obstacles powerUps w :
  body w = b ->
  body (endOfTick randomSource canvas obstacles powerUps w) = b.
Proof.
  intro H. unfold endOfTick. cbv zeta.
  assert (H1 : body (prune obstacles powerUps w) = b)
    by (unfold prune; body_by_cases).
  set (w1 := prune obstacles powerUps w) in *. clearbody w1. clear H.
  assert (H2 : body (obstacleSpawnTick randomSource canvas w1) = b)
    by (unfold obstacleSpawnTick, spawnObstacle, Math_random; body_by_cases).
  set (w2 := obstacleSpawnTick randomSource canvas w1) in *. clearbody w2. clear H1.
  assert (H3 : body (powerUpSpawnTick randomSource canvas w2) = b)
    by (unfold powerUpSpawnTick, spawnPowerUp, Math_random; body_by_cases).
  set (w3 := powerUpSpawnTick randomSource canvas w2) in *. clearbody w3. clear H2.
  assert (H4 : body (applyColorChange randomSource w3) = b)
    by (unfold applyColorChange, Math_random; body_by_cases).
  set (w4 := applyColorChange randomSource w3) in *. clearbody w4. clear H3.
  assert (H5 : body (ageTimers w4) = b)
    by (unfold ageTimers; body_by_cases).
  set (w5 := ageTimers w4) in *. clearbody w5. clear H4.
  unfold comboDecay. body_by_cases.
Qed.

Lemma updateLevel_body w : body (updateLevel w) = body w.
Proof.
  destruct w as [[p o u s c t b l g f bo st] tm cl ls d]. reflexivity.
Qed.

(** After the physics step nothing in the frame moves the player. *)
Lemma gameLoop_body canvas w :
  GameState.gameStarted (World.gameState w) = true ->
  body (gameLoop randomSource canvas w) =
  body (updatePhysics canvas (scrollBackground canvas w)).
Proof.
  intro Hs. rewrite (gameLoop_started randomSource canvas w Hs). cbv zeta.
  unfold beforePasses.
  pose proof (updateLevel_body (updatePhysics canvas (scrollBackground canvas w))) as H0.
  set (start := updateLevel (updatePhysics canvas (scrollBackground canvas w))) in *.
  set (b := body (updatePhysics canvas (scrollBackground canvas w))) in *.
  clearbody start b.
  apply endOfTick_body.
  unfold powerUpPass.
  apply (forEachPowerUp_invariant (fun w0 => body w0 = b)
           (frameSpeed w) (powerUpCallback_body b (frameSpeed w))).
  unfold obstaclePass.
  apply (forEachObstacle_invariant randomSource (fun w0 => body w0 = b)
           canvas (frameSpeed w) (obstacleCallback_body b canvas (frameSpeed w))).
  exact H0.
Qed.

Lemma updatePhysics_effect canvas w :
  let p := World.player w in
  let p' := World.player (updatePhysics canvas w) in
  let fallen := (Player.y p + (Player.vy p + 0.6))%Q in
  (Player.y p' <= groundY canvas w)%Q /\
  Player.x p' = Player.x p /\
  Player.radius p' = Player.radius p /\
  ((groundY canvas w < fallen)%Q ->
     Player.y p' = groundY canvas w /\ Player.vy p' = 0%Q /\
     Player.jumpCount p' = 0 /\ Player.isJumping p' = false) /\
  ((fallen <= groundY canvas w)%Q ->
     (Player.y p' == fallen)%Q /\ (Player.vy p' == Player.vy p + 0.6)%Q /\
     Player.jumpCount p' = Player.jumpCount p /\
     Player.isJumping p' = Player.isJumping p).
Proof.
  destruct w as [[p o u s c t b l g f bo st] tm cl ls d].
  destruct p as [px py pr pvy pc pj pn psh pjb pl pi].
  unfold groundY, updatePhysics, GAME_CONFIG.PLAYER.GRAVITY. cbv zeta.
  world_simpl.
  match goal with
  | |- context [if (?a >? ?b)%Q then _ else _] => destruct (a >? b)%Q eqn:E
  end; world_simpl.
  - apply Qgt_bool_iff in E.
    repeat split; intros; try reflexivity; try lra.
  - unfold Qgt_bool in E. apply Qlt_bool_false_iff in E.
    repeat split; intros; try reflexivity; try lra.
Qed.

(** The player after one frame of a started game, from the player before
    it. *)
Lemma gameLoop_player_step canvas w :
  GameState.gameStarted (World.gameState w) = true ->
  let p := World.player w in
  let p' := World.player (gameLoop randomSource canvas w) in
  let fallen := (Player.y p + (Player.vy p + 0.6))%Q in
  (Player.y p' <= groundY canvas w)%Q /\
  Player.x p' = Player.x p /\
  Player.radius p' = Player.radius p /\
  ((groundY canvas w < fallen)%Q ->
     Player.y p' = groundY canvas w /\ Player.vy p' = 0%Q /\
     Player.jumpCount p' = 0 /\ Player.isJumping p' = false) /\
  ((fallen <= groundY canvas w)%Q ->
     (Player.y p' == fallen)%Q /\ (Player.vy p' == Player.vy p + 0.6)%Q /\
     Player.jumpCount p' = Player.jumpCount p /\
     Player.isJumping p' = Player.isJumping p).
Proof.
  intro Hs. cbv zeta.
  pose proof (gameLoop_body canvas w Hs) as Hb.
  pose proof (updatePhysics_effect canvas (scrollBackground canvas w)) as He.
  destruct (scrollBackground_keeps canvas w) as (Hp & _).
  cbv zeta in He. unfold groundY in *. rewrite Hp in He.
  set (w1 := updatePhysics canvas (scrollBackground canvas w)) in *.
  set (w2 := gameLoop randomSource canvas w) in *.
  clearbody w1 w2.
  unfold body in Hb.
  repeat (apply pair_equal_spec in Hb; let H := fresh "B" in destruct Hb as [Hb H]).
  rewrite Hb, B, B0, B1, B2, B3. exact He.
Qed.


(** *** A whole jump *)

Lemma arcOffset_succ v k :
  (arcOffset v (S k) == arcOffset v k + (v + 0.6 * inject_Z (Z.of_nat k) + 0.6))%Q.
Proof.
  unfold arcOffset. cbv zeta.
  rewrite Nat2Z.inj_succ. unfold Z.succ. rewrite inject_Z_plus.
  set (t := inject_Z (Z.of_nat k)). change (inject_Z 1) with 1%Q. lra.
Qed.

Lemma free_flight canvas w :
  GameState.gameStarted (World.gameState w) = true ->
  forall k : nat,
    (forall j : nat, (1 <= j <= k)%nat ->
       (Player.y (World.player w) + arcOffset (Player.vy (World.player w)) j <=
        groundY canvas w)%Q) ->
    let w' := frames randomSource canvas k w in
    GameState.gameStarted (World.gameState w') = true /\
    Player.radius (World.player w') = Player.radius (World.player w) /\
    (Player.y (World.player w') ==
       Player.y (World.player w) + arcOffset (Player.vy (World.player w)) k)%Q /\
    (Player.vy (World.player w') ==
       Player.vy (World.player w) + 0.6 * inject_Z (Z.of_nat k))%Q /\
    Player.jumpCount (World.player w') = Player.jumpCount (World.player w) /\
    Player.isJumping (World.player w') = Player.isJumping (World.player w).
Proof.
  intros Hs k. induction k as [|k IH]; intro Hair; cbv zeta.
  - unfold arcOffset. cbn [frames Z.of_nat]. change (inject_Z 0) with 0%Q.
    repeat split; try reflexivity; try exact Hs; lra.
  - destruct IH as (Is & Ir & Iy & Iv & Ij & Ii).
    { intros j Hj. apply Hair. lia. }
    cbn [frames].
    set (wk := frames randomSource canvas k w) in *. clearbody wk.
    pose proof (gameLoop_player_step canvas wk Is) as H.
    cbv zeta in H. destruct H as (_ & _ & Hr & _ & Hfly).
    pose proof (Hair (S k) ltac:(lia)) as Hk.
    rewrite arcOffset_succ in Hk |- *.
    assert (Hg : groundY canvas wk = groundY canvas w)
      by (unfold groundY; rewrite Ir; reflexivity).
    rewrite Hg in Hfly.
    destruct Hfly as (Fy & Fv & Fj & Fi); [lra | ].
    split; [apply (gameLoop_stays_started randomSource canvas wk Is) | ].
    split; [congruence | ].
    split; [lra | ].
    split; [ | split; congruence].
    rewrite Fv, Iv. rewrite Nat2Z.inj_succ. unfold Z.succ. rewrite inject_Z_plus.
    change (inject_Z 1) with 1%Q. lra.
Qed.


Lemma integer_gap (z a : Z) :
  (0 <= (inject_Z z - inject_Z a) * (inject_Z z - inject_Z a - 1))%Q.
Proof.
  assert (H : 0 <= (z - a) * (z - a - 1)).
  { destruct (Z_le_gt_dec (z - a) 0).
    - apply Z.mul_nonpos_nonpos; lia.
    - apply Z.mul_nonneg_nonneg; lia. }
  rewrite Zle_Qle in H. push_inject H.
  set (t := inject_Z z) in *. set (b := inject_Z a) in *. lra.
Qed.

Lemma handleJump_takes_off w :
  GameState.gameStarted (World.gameState w) = true ->
  GameState.isGameOver (World.gameState w) = false ->
  Player.jumpCount (World.player w) < 2 ->
  let w' := handleJump w in
  GameState.gameStarted (World.gameState w') = true /\
  Player.radius (World.player w') = Player.radius (World.player w) /\
  Player.y (World.player w') = Player.y (World.player w) /\
  (Player.vy (World.player w') ==
     if (Player.jumpBoost (World.player w) >? 0)%Z then -16.8 else -12)%Q /\
  Player.jumpCount (World.player w') = Player.jumpCount (World.player w) + 1 /\
  Player.isJumping (World.player w') = true.
Proof.
  intros Hs Hover Hjc. cbv zeta. unfold handleJump.
  rewrite Hs, Hover. cbn [negb].
  replace (Player.jumpCount (World.player w) <? 2) with true
    by (symmetry; apply Z.ltb_lt; exact Hjc).
  cbv zeta. world_simpl.
  split; [exact Hs | ]. do 2 (split; [reflexivity | ]).
  split; [ | split; reflexivity].
  destruct (Player.jumpBoost (GameState.player (World.gameState w)) >? 0);
    cbv iota; unfold GAME_CONFIG.PLAYER.JUMP_POWER; lra.
Qed.

Lemma arc_of_jump canvas w (v apex : Q) (half : Z) :
  GameState.gameStarted (World.gameState w) = true ->
  (Player.y (World.player w) == groundY canvas w)%Q ->
  (Player.vy (World.player w) == v)%Q ->
  (v == - (0.6) * inject_Z half)%Q ->
  (apex == 0.3 * inject_Z half * (inject_Z half - 1))%Q ->
  0 < half ->
  let after k := World.player (frames randomSource canvas k w) in
  (forall k, (1 <= k)%nat -> Z.of_nat k <= 2 * half - 2 ->
     (Player.y (after k) == groundY canvas w + arcOffset v k)%Q /\
     (groundY canvas w - apex <= Player.y (after k))%Q /\
     (Player.y (after k) < groundY canvas w)%Q /\
     Player.jumpCount (after k) = Player.jumpCount (World.player w) /\
     Player.isJumping (after k) = Player.isJumping (World.player w)) /\
  (forall k, Z.of_nat k = 2 * half ->
     (Player.y (after k) == groundY canvas w)%Q /\
     (Player.vy (after k) == 0)%Q /\
     Player.jumpCount (after k) = 0 /\
     Player.isJumping (after k) = false).
Proof.
  intros Hs Hy Hv Hhalf Hapex Hpos. cbv zeta.
  assert (Hoff : forall j : nat,
            (arcOffset (Player.vy (World.player w)) j ==
             0.3 * inject_Z (Z.of_nat j) *
               (inject_Z (Z.of_nat j) + 1 - 2 * inject_Z half))%Q).
  { intro j. unfold arcOffset. cbv zeta. rewrite Hv, Hhalf. lra. }
  assert (Hle : forall j : nat, Z.of_nat j <= 2 * half - 1 ->
            (arcOffset (Player.vy (World.player w)) j <= 0)%Q).
  { intros j Hj. rewrite Hoff.
    assert (H0 : 0 <= Z.of_nat j) by lia.
    rewrite Zle_Qle in H0, Hj. push_inject H0. push_inject Hj.
    set (t := inject_Z (Z.of_nat j)) in *. set (h := inject_Z half) in *. nra. }
  assert (Hfree : forall k : nat, Z.of_nat k <= 2 * half - 1 ->
            forall j : nat, (1 <= j <= k)%nat ->
              (Player.y (World.player w) + arcOffset (Player.vy (World.player w)) j <=
               groundY canvas w)%Q).
  { intros k Hk j Hj. pose proof (Hle j ltac:(lia)). lra. }
  split.
  - intros k Hk1 Hk2.
    destruct (free_flight canvas w Hs k (Hfree k ltac:(lia)))
      as (_ & _ & Fy & _ & Fj & Fi).
    assert (Ev : (arcOffset v k == arcOffset (Player.vy (World.player w)) k)%Q)
      by (unfold arcOffset; cbv zeta; rewrite Hv; reflexivity).
    split; [rewrite Fy, Ev; lra | ].
    pose proof (integer_gap (Z.of_nat k) (half - 1)) as Hgap.
    pose proof (Hoff k) as Ho.
    assert (H1 : 1 <= Z.of_nat k) by lia.
    rewrite Zle_Qle in H1, Hk2. push_inject H1. push_inject Hk2. push_inject Hgap.
    set (t := inject_Z (Z.of_nat k)) in *. set (h := inject_Z half) in *.
    split; [rewrite Fy, Ho, Hapex; nra | ].
    assert (Hprod : (0 <= (t - 1) * (2 * h - 2 - t))%Q)
      by (apply Qmult_le_0_compat; lra).
    split; [rewrite Fy, Ho; lra | ].
    split; assumption.
  - intros k Hk.
    destruct k as [|k]; [lia | ].
    destruct (free_flight canvas w Hs k (Hfree k ltac:(lia)))
      as (Fs & Fr & Fy & Fv & _).
    cbn [frames].
    set (wk := frames randomSource canvas k w) in *. clearbody wk.
    pose proof (gameLoop_player_step canvas wk Fs) as H.
    cbv zeta in H. destruct H as (_ & _ & _ & Hland & _).
    assert (Hg : groundY canvas wk = groundY canvas w)
      by (unfold groundY; rewrite Fr; reflexivity).
    rewrite Hg in Hland.
    destruct Hland as (Ly & Lv & Lj & Li).
    { rewrite Fy, Fv, (Hoff k), Hv, Hhalf.
      assert (Hk' : Z.of_nat k = 2 * half - 1) by lia.
      rewrite Hk'. unfold Z.sub. rewrite inject_Z_plus, inject_Z_mult, inject_Z_opp.
      change (inject_Z 1) with 1%Q. change (inject_Z 2) with 2%Q.
      assert (H1 : 1 <= half) by lia. rewrite Zle_Qle in H1.
      change (inject_Z 1) with 1%Q in H1.
      set (h := inject_Z half) in *. nra. }
    rewrite Ly, Lv. repeat split; try reflexivity; assumption.
Qed.

(** X9.  A jump from the ground, with no further trigger.  From the first
    frame to the 38th (the 54th while the jump boost runs) the player is in
    the air, at least 11 (16) and at most 115 (227) above the ground line,
    with the jump count one more than before; after 20 (28) frames it is at
    least 113 (226) above the ground line.  After 40 (56) frames the player
    is back on the ground line with velocity 0 and jump count 0. *)
Theorem jump_arc canvas w :
  GameState.gameStarted (World.gameState w) = true ->
  GameState.isGameOver (World.gameState w) = false ->
  Player.jumpCount (World.player w) < 2 ->
  (Player.y (World.player w) == groundY canvas w)%Q ->
  let boosted := Player.jumpBoost (World.player w) >? 0 in
  let landing := if boosted then 56%nat else 40%nat in
  let lowest := (if boosted then 16 else 11)%Q in
  let highest := (if boosted then 227 else 115)%Q in
  let top := (if boosted then 226 else 113)%Q in
  let after k := World.player (frames randomSource canvas k (handleJump w)) in
  (forall k, (1 <= k <= landing - 2)%nat ->
     (groundY canvas w - highest <= Player.y (after k))%Q /\
     (Player.y (after k) <= groundY canvas w - lowest)%Q /\
     Player.jumpCount (after k) = Player.jumpCount (World.player w) + 1 /\
     Player.isJumping (after k) = true) /\
  (Player.y (after (Nat.div2 landing)) <= groundY canvas w - top)%Q /\
  (Player.y (after landing) == groundY canvas w)%Q /\
  (Player.vy (after landing) == 0)%Q /\
  Player.jumpCount (after landing) = 0 /\
  Player.isJumping (after landing) = false.
Proof.
  intros Hs Hover Hjc Hy. cbv zeta.
  pose proof (handleJump_takes_off w Hs Hover Hjc) as H. cbv zeta in H.
  destruct H as (Ts & Tr & Ty & Tv & Tj & Ti).
  assert (Hg : groundY canvas (handleJump w) = groundY canvas w)
    by (unfold groundY; rewrite Tr; reflexivity).
  assert (Hy' : (Player.y (World.player (handleJump w)) ==
                 groundY canvas (handleJump w))%Q)
    by (rewrite Hg, Ty; exact Hy).
  assert (Hends : forall (v : Q) (h : Z) (k : nat),
            (v == - (0.6) * inject_Z h)%Q ->
            (1 <= k)%nat -> Z.of_nat k <= 2 * h - 2 ->
            (arcOffset v k <= - (0.6) * (inject_Z h - 1))%Q).
  { intros v h k Hv Hk1 Hk2. unfold arcOffset. cbv zeta. rewrite Hv.
    assert (H1 : 1 <= Z.of_nat k) by lia.
    rewrite Zle_Qle in H1, Hk2.
    unfold Z.sub in Hk2. rewrite inject_Z_plus, inject_Z_mult in Hk2.
    change (inject_Z 1) with 1%Q in H1.
    change (inject_Z 2) with 2%Q in Hk2. change (inject_Z (- (2))) with (-2)%Q in Hk2.
    set (t := inject_Z (Z.of_nat k)) in *. set (x := inject_Z h) in *.
    assert (Hprod : (0 <= (t - 1) * (2 * x - 2 - t))%Q)
      by (apply Qmult_le_0_compat; lra).
    lra. }
  destruct (Player.jumpBoost (World.player w) >? 0).
  - pose proof (arc_of_jump canvas (handleJump w) (-16.8) 226.8 28 Ts Hy' Tv
                  ltac:(reflexivity) ltac:(reflexivity) ltac:(lia)) as H.
    cbv zeta in H. rewrite Hg, Tj, Ti in H. destruct H as (Hair & Hland).
    split.
    { intros k Hk. destruct (Hair k ltac:(lia) ltac:(lia)) as (E & Hhigh & _ & Hj & Hi).
      split; [lra | ]. split; [ | split; assumption].
      pose proof (Hends (-16.8)%Q 28 k ltac:(reflexivity) ltac:(lia) ltac:(lia)) as He.
      change (inject_Z 28) with 28%Q in He. rewrite E. lra. }
    split; [ | apply Hland; reflexivity].
    destruct (Hair 28%nat ltac:(lia) ltac:(lia)) as (E & _).
    assert (A : (arcOffset (-16.8) 28 == 0 - 226.8)%Q) by reflexivity.
    cbn [Nat.div2]. rewrite E, A. lra.
  - pose proof (arc_of_jump canvas (handleJump w) (-12) 114 20 Ts Hy' Tv
                  ltac:(reflexivity) ltac:(reflexivity) ltac:(lia)) as H.
    cbv zeta in H. rewrite Hg, Tj, Ti in H. destruct H as (Hair & Hland).
    split.
    { intros k Hk. destruct (Hair k ltac:(lia) ltac:(lia)) as (E & Hhigh & _ & Hj & Hi).
      split; [lra | ]. split; [ | split; assumption].
      pose proof (Hends (-12)%Q 20 k ltac:(reflexivity) ltac:(lia) ltac:(lia)) as He.
      change (inject_Z 20) with 20%Q in He. rewrite E. lra. }
    split; [ | apply Hland; reflexivity].
    destruct (Hair 20%nat ltac:(lia) ltac:(lia)) as (E & _).
    assert (A : (arcOffset (-12) 20 == 0 - 114)%Q) by reflexivity.
    cbn [Nat.div2]. rewrite E, A. lra.
Qed.

End Physics.


(** A jump from the ground of the 400 by 600 canvas: at least 113 above the
    ground line after 20 frames, landed after 40. *)
Lemma jump_arc_witness :
  (Player.y (World.player
     (frames zeroSource fullCanvas 20 (handleJump level1World))) <= 560 - 113)%Q /\
  Player.jumpCount (World.player
     (frames zeroSource fullCanvas 40 (handleJump level1World))) = 0.
Proof.
  pose proof (jump_arc zeroSource fullCanvas level1World eq_refl eq_refl
                ltac:(vm_compute; reflexivity) ltac:(vm_compute; reflexivity)) as H.
  cbv zeta in H. destruct H as (_ & Hapex & _ & _ & Hj & _).
  split.
  - exact Hapex.
  - exact Hj.
Defined.

(** ** A hit that costs a life (lines 690-731) *)

Section Damage.
Variable randomSource : nat -> Q.

(** X10.  A pass-through hit on an obstacle of another colour, with no shield and
    no invincibility, while more than one life is left: one life is lost,
    the invincibility timer is set to 120, combo and combo timer go to 0;
    score, best score and game-over flag stay, and the obstacle is not
    marked passed.  The rest of the obstacle pass then takes no further
    life. *)
Theorem unshielded_hit_costs_one_life canvas currentSpeed w obstacle :
  passThroughHit
    (checkCollision (World.player w) (advance currentSpeed obstacle) canvas) = true ->
  Player.color (World.player w) <> Obstacle.color obstacle ->
  1 < Player.lives (World.player w) ->
  Player.shield (World.player w) <= 0 ->
  Player.invincible (World.player w) <= 0 ->
  let w' := fst (obstacleCallback randomSource canvas currentSpeed w obstacle) in
  let obstacle' := snd (obstacleCallback randomSource canvas currentSpeed w obstacle) in
  Player.lives (World.player w') = Player.lives (World.player w) - 1 /\
  Player.invincible (World.player w') = 120 /\
  GameState.combo (World.gameState w') = 0 /\
  GameState.comboTimer (World.gameState w') = 0 /\
  GameState.score (World.gameState w') = GameState.score (World.gameState w) /\
  GameState.bestScore (World.gameState w') = GameState.bestScore (World.gameState w) /\
  GameState.isGameOver (World.gameState w') = GameState.isGameOver (World.gameState w) /\
  Player.shield (World.player w') = Player.shield (World.player w) /\
  obstacle' = advance currentSpeed obstacle /\
  (forall canvas2 speed2 rest,
     let w2 := fst (forEachObstacle randomSource canvas2 speed2 w' rest) in
     Player.lives (World.player w2) = Player.lives (World.player w) - 1 /\
     Player.invincible (World.player w2) = 120).
Proof.
  intros Hhit Hcolor Hlives Hshield Hinv. cbv zeta.
  assert (Hcall :
    let r := obstacleCallback randomSource canvas currentSpeed w obstacle in
    Player.lives (World.player (fst r)) = Player.lives (World.player w) - 1 /\
    Player.invincible (World.player (fst r)) = 120 /\
    GameState.combo (World.gameState (fst r)) = 0 /\
    GameState.comboTimer (World.gameState (fst r)) = 0 /\
    GameState.score (World.gameState (fst r)) = GameState.score (World.gameState w) /\
    GameState.bestScore (World.gameState (fst r)) =
      GameState.bestScore (World.gameState w) /\
    GameState.isGameOver (World.gameState (fst r)) =
      GameState.isGameOver (World.gameState w) /\
    Player.shield (World.player (fst r)) = Player.shield (World.player w) /\
    snd r = advance currentSpeed obstacle).
  { cbv zeta.
    pose proof (overlapsX_not_behind _ _ (passThroughHit_overlaps _ _ _ Hhit)) as Hb.
    unfold obstacleCallback, resolveCollision.
    rewrite Hhit. cbn [andb].
    change (Obstacle.color (advance currentSpeed obstacle)) with (Obstacle.color obstacle).
    apply String.eqb_neq in Hcolor. rewrite Hcolor. cbn [negb].
    replace (Player.invincible (World.player w) <=? 0) with true
      by (symmetry; apply Z.leb_le; exact Hinv).
    replace (Player.shield (World.player w) >? 0) with false
      by (symmetry; rewrite Z.gtb_ltb; apply Z.ltb_ge; exact Hshield).
    world_simpl.
    replace (Player.lives (GameState.player (World.gameState w)) - 1 <=? 0) with false
      by (symmetry; apply Z.leb_gt; unfold World.player in Hlives; lia).
    rewrite colorChangeCheck_not_behind by exact Hb.
    world_simpl. repeat split; reflexivity. }
  cbv zeta in Hcall.
  destruct Hcall as (C1 & C2 & C3 & C4 & C5 & C6 & C7 & C8 & C9).
  do 9 (split; [assumption | ]).
  intros canvas2 speed2 rest.
  set (w1 := fst (obstacleCallback randomSource canvas currentSpeed w obstacle)) in *.
  clearbody w1.
  apply (forEachObstacle_invariant randomSource
           (fun w0 => Player.lives (World.player w0) = Player.lives (World.player w) - 1 /\
                      Player.invincible (World.player w0) = 120)
           canvas2 speed2); [ | split; assumption].
  intros w0 o [Hl Hi].
  pose proof (obstacleCallback_lives randomSource canvas2 speed2 w0 o) as E.
  cbv zeta in E. destruct E as (El & Ei & _).
  destruct (lifeLost canvas2 w0 (advance speed2 o)) eqn:Hlost.
  - apply lifeLost_not_invincible in Hlost. lia.
  - rewrite El, Ei. split; assumption.
Qed.

End Damage.

(** A grounded player with 3 lives runs into an obstacle of another colour. *)
Lemma unshielded_hit_costs_one_life_witness :
  let w := playingWorld (groundedPlayer 3 0 0) 40 7 100 0 in
  let obstacle := obstacleAhead "#2ed573" normal in
  let w' := fst (obstacleCallback zeroSource fullCanvas 3 w obstacle) in
  Player.lives (World.player w') = 2 /\
  Player.invincible (World.player w') = 120 /\
  GameState.combo (World.gameState w') = 0 /\
  GameState.score (World.gameState w') = 40.
Proof.
  intros w obstacle w'.
  pose proof (unshielded_hit_costs_one_life zeroSource fullCanvas 3 w obstacle
                ltac:(closed_fact) ltac:(closed_fact) ltac:(closed_fact)
                ltac:(closed_fact) ltac:(closed_fact)) as H.
  cbv zeta in H. destruct H as (Hl & Hi & Hc & _ & Hs & _).
  exact (conj Hl (conj Hi (conj Hc Hs))).
Defined.

(** ** Invincibility (lines 696, 709, 925) *)

Section Invincible.
Variable randomSource : nat -> Q.

Lemma ageTimers_invincible w :
  Player.invincible (World.player (ageTimers w)) =
  (if Player.invincible (World.player w) >? 0
   then Player.invincible (World.player w) - 1
   else Player.invincible (World.player w)).
Proof.
  unfold ageTimers. cbv zeta. split_ifs; world_simpl; congruence.
Qed.

Lemma endOfTick_invincible canvas obstacles powerUps w :
  Player.invincible (World.player (endOfTick randomSource canvas obstacles powerUps w)) =
  (if Player.invincible (World.player w) >? 0
   then Player.invincible (World.player w) - 1
   else Player.invincible (World.player w)).
Proof.
  unfold endOfTick. cbv zeta.
  set (w1 := prune obstacles powerUps w).
  set (w2 := obstacleSpawnTick randomSource canvas w1).
  set (w3 := powerUpSpawnTick randomSource canvas w2).
  set (w4 := applyColorChange randomSource w3).
  set (w5 := ageTimers w4).
  destruct (prune_keeps obstacles powerUps w) as (A & _).
  destruct (obstacleSpawnTick_keeps randomSource canvas w1) as (B & _).
  destruct (powerUpSpawnTick_keeps randomSource canvas w2) as (C & _).
  destruct (applyColorChange_keeps randomSource w3) as (_ & _ & _ & D).
  pose proof (ageTimers_invincible w4) as E.
  destruct (comboDecay_keeps w5) as (_ & _ & F & _).
  fold w1 in A. fold w2 in B. fold w3 in C. fold w4 in D. fold w5 in E.
  clearbody w1 w2 w3 w4 w5.
  rewrite F, E, D, C, B, A. reflexivity.
Qed.

Lemma obstacleCallback_guarded lives invincible over canvas currentSpeed w obstacle :
  0 < invincible ->
  guarded lives invincible over w ->
  guarded lives invincible over
    (fst (obstacleCallback randomSource canvas currentSpeed w obstacle)).
Proof.
  unfold guarded. intros Hpos (Hi & Hl & Hg).
  pose proof (obstacleCallback_lives randomSource canvas currentSpeed w obstacle) as E.
  cbv zeta in E. destruct E as (El & Ei & Eg & _).
  destruct (lifeLost canvas w (advance currentSpeed obstacle)) eqn:Hlost.
  - apply lifeLost_not_invincible in Hlost. lia.
  - rewrite El, Ei, Eg, Hg, orb_false_r. split; [exact Hi | ]. split; [exact Hl | reflexivity].
Qed.

Lemma powerUpCallback_guarded lives invincible over currentSpeed w powerUp :
  guarded lives invincible over w ->
  guarded lives invincible over (fst (powerUpCallback currentSpeed w powerUp)).
Proof.
  unfold guarded. intros (Hi & Hl & Hg).
  pose proof (powerUpCallback_keeps currentSpeed w powerUp) as E.
  cbv zeta in E. destruct E as (El & _ & Ei & Eg & _).
  rewrite Ei, Eg. split; [exact Hi | ]. split; [ | exact Hg].
  destruct El as [El | [_ El]]; lia.
Qed.

Lemma gameLoop_guarded canvas w :
  GameState.gameStarted (World.gameState w) = true ->
  0 < Player.invincible (World.player w) ->
  let w' := gameLoop randomSource canvas w in
  Player.invincible (World.player w') = Player.invincible (World.player w) - 1 /\
  Player.lives (World.player w) <= Player.lives (World.player w') /\
  GameState.isGameOver (World.gameState w') = GameState.isGameOver (World.gameState w).
Proof.
  intros Hs Hpos. cbv zeta. rewrite (gameLoop_started randomSource canvas w Hs). cbv zeta.
  set (P := guarded (Player.lives (World.player w)) (Player.invincible (World.player w))
              (GameState.isGameOver (World.gameState w))).
  assert (H0 : P (beforePasses canvas w)).
  { destruct (beforePasses_keeps canvas w)
      as (B1 & B2 & _ & _ & _ & _ & _ & _ & _ & _ & _ & B3 & _).
    unfold P, guarded. rewrite B1, B2, B3. split; [reflexivity | ].
    split; [lia | reflexivity]. }
  unfold obstaclePass, powerUpPass.
  assert (H1 := forEachObstacle_invariant randomSource P canvas (frameSpeed w)
            (fun w0 o => obstacleCallback_guarded _ _ _ canvas (frameSpeed w) w0 o Hpos)
            (GameState.obstacles (World.gameState (beforePasses canvas w))) _ H0).
  set (r1 := forEachObstacle randomSource canvas (frameSpeed w) (beforePasses canvas w)
               (GameState.obstacles (World.gameState (beforePasses canvas w)))) in *.
  assert (H2 := forEachPowerUp_invariant P (frameSpeed w)
            (fun w0 u => powerUpCallback_guarded _ _ _ (frameSpeed w) w0 u)
            (GameState.powerUps (World.gameState (fst r1))) _ H1).
  set (r2 := forEachPowerUp (frameSpeed w) (fst r1)
               (GameState.powerUps (World.gameState (fst r1)))) in *.
  destruct (endOfTick_effect randomSource canvas (snd r1) (snd r2) (fst r2)) as (Hv & _).
  pose proof (endOfTick_invincible canvas (snd r1) (snd r2) (fst r2)) as Hi.
  clearbody r2 r1. unfold vitals in Hv.
  apply pair_equal_spec in Hv. destruct Hv as [Hv _].
  apply pair_equal_spec in Hv. destruct Hv as [Hv Hg].
  apply pair_equal_spec in Hv. destruct Hv as [Hl _].
  destruct H2 as (G1 & G2 & G3).
  rewrite Hi, Hl, Hg, G1, G3.
  replace (Player.invincible (World.player w) >? 0) with true
    by (symmetry; apply Z.gtb_lt; exact Hpos).
  split; [reflexivity | ]. split; [exact G2 | reflexivity].
Qed.

(** X11.  While the invincibility timer runs no life is lost: from a started
    state with the timer at n, each of the next n frames takes 1 off the
    timer, loses no life and does not end the game. *)
Theorem invincibility_lasts canvas w (k : nat) :
  GameState.gameStarted (World.gameState w) = true ->
  Z.of_nat k <= Player.invincible (World.player w) ->
  let w' := frames randomSource canvas k w in
  Player.invincible (World.player w') = Player.invincible (World.player w) - Z.of_nat k /\
  Player.lives (World.player w) <= Player.lives (World.player w') /\
  GameState.isGameOver (World.gameState w') = GameState.isGameOver (World.gameState w).
Proof.
  intros Hs. cbv zeta.
  assert (H : Z.of_nat k <= Player.invincible (World.player w) ->
              GameState.gameStarted
                (World.gameState (frames randomSource canvas k w)) = true /\
              Player.invincible (World.player (frames randomSource canvas k w)) =
                Player.invincible (World.player w) - Z.of_nat k /\
              Player.lives (World.player w) <=
                Player.lives (World.player (frames randomSource canvas k w)) /\
              GameState.isGameOver (World.gameState (frames randomSource canvas k w)) =
                GameState.isGameOver (World.gameState w)).
  { induction k as [|k IH]; intro Hk.
    - cbn [frames]. split; [exact Hs | ]. split; [cbn; lia | ]. split; [lia | reflexivity].
    - destruct IH as (Is & Ii & Il & Ig); [lia | ].
      cbn [frames].
      set (wk := frames randomSource canvas k w) in *. clearbody wk.
      pose proof (gameLoop_guarded canvas wk Is ltac:(lia)) as G. cbv zeta in G.
      destruct G as (Gi & Gl & Gg).
      split; [apply (gameLoop_stays_started randomSource canvas wk Is) | ].
      split; [lia | ]. split; [lia | congruence]. }
  intro Hk. destruct (H Hk) as (_ & H1 & H2 & H3).
  split; [exact H1 | ]. split; [exact H2 | exact H3].
Qed.

End Invincible.

(** A player hit a moment ago, with 2 lives left: 120 frames later the timer
    has run out and both lives are still there. *)
Lemma invincibility_lasts_witness :
  let w := playingWorld (groundedPlayer 2 0 120) 0 0 0 0 in
  Player.invincible (World.player (frames zeroSource fullCanvas 120 w)) = 0 /\
  2 <= Player.lives (World.player (frames zeroSource fullCanvas 120 w)).
Proof.
  intro w.
  pose proof (invincibility_lasts zeroSource fullCanvas w 120 eq_refl
                ltac:(closed_fact)) as H.
  cbv zeta in H. destruct H as (Hi & Hl & _).
  exact (conj Hi Hl).
Defined.

(** ** Obstacles and power-ups from frame to frame (lines 593-594, 771-772, 883-908) *)

Section Entities.
Variable randomSource : nat -> Q.

Lemma obstacleCallback_scrolled canvas currentSpeed w obstacle :
  scrolledObstacle currentSpeed obstacle
    (snd (obstacleCallback randomSource canvas currentSpeed w obstacle)).
Proof.
  unfold scrolledObstacle. rewrite obstacleCallback_unfold. cbv zeta.
  pose proof (resolveCollision_score canvas w (advance currentSpeed obstacle)) as H.
  cbv zeta in H. destruct H as (Hp & _ & Hx & Hc & Ht & Hcc).
  destruct (resolveCollision canvas w (advance currentSpeed obstacle)) as [[w1 o1] ret].
  cbn [fst snd] in *.
  change (Obstacle.passed (advance currentSpeed obstacle))
    with (Obstacle.passed obstacle) in Hp.
  change (Obstacle.x (advance currentSpeed obstacle))
    with (Obstacle.x obstacle - currentSpeed)%Q in Hx.
  change (Obstacle.color (advance currentSpeed obstacle))
    with (Obstacle.color obstacle) in Hc.
  change (Obstacle.type (advance currentSpeed obstacle))
    with (Obstacle.type obstacle) in Ht.
  change (Obstacle.colorChanged (advance currentSpeed obstacle))
    with (Obstacle.colorChanged obstacle) in Hcc.
  destruct ret; cbn [snd].
  - split; [exact Hx | ]. split; [exact Hc | ]. split; [exact Ht | ].
    split; [intro H; apply Hp; exact H | intro H; congruence].
  - destruct (colorChangeCheck_obstacle randomSource w1 o1) as (Cp & Cx & Cc & Ct & Ccc).
    rewrite Cp, Cx, Cc, Ct.
    split; [exact Hx | ]. split; [exact Hc | ]. split; [exact Ht | ].
    split; [intro H; apply Hp; exact H | intro H; apply Ccc; congruence].
Qed.

Lemma forEachObstacle_scrolled canvas currentSpeed obstacles : forall w after,
  In after (snd (forEachObstacle randomSource canvas currentSpeed w obstacles)) ->
  exists before, In before obstacles /\ scrolledObstacle currentSpeed before after.
Proof.
  induction obstacles as [|o rest IH]; intros w after Hin.
  - destruct Hin.
  - cbn [forEachObstacle] in Hin.
    pose proof (obstacleCallback_scrolled canvas currentSpeed w o) as H1.
    destruct (obstacleCallback randomSource canvas currentSpeed w o) as [w1 o1].
    specialize (IH w1 after).
    destruct (forEachObstacle randomSource canvas currentSpeed w1 rest) as [w2 rest'].
    cbn [snd] in *. destruct Hin as [Hin | Hin].
    + subst after. exists o. split; [left; reflexivity | exact H1].
    + destruct (IH Hin) as (before & Hb & Hs).
      exists before. split; [right; exact Hb | exact Hs].
Qed.

Lemma powerUpCallback_scrolled currentSpeed w powerUp :
  scrolledPowerUp currentSpeed powerUp (snd (powerUpCallback currentSpeed w powerUp)).
Proof.
  unfold scrolledPowerUp, powerUpCallback. cbv zeta.
  split_ifs; cbn [snd PowerUp.x PowerUp.y PowerUp.type PowerUp.collected
                  PowerUp.set_x PowerUp.set_collected];
    repeat split; try reflexivity; intro; assumption.
Qed.

Lemma forEachPowerUp_scrolled currentSpeed powerUps : forall w after,
  In after (snd (forEachPowerUp currentSpeed w powerUps)) ->
  exists before, In before powerUps /\ scrolledPowerUp currentSpeed before after.
Proof.
  induction powerUps as [|u rest IH]; intros w after Hin.
  - destruct Hin.
  - cbn [forEachPowerUp] in Hin.
    pose proof (powerUpCallback_scrolled currentSpeed w u) as H1.
    destruct (powerUpCallback currentSpeed w u) as [w1 u1].
    specialize (IH w1 after).
    destruct (forEachPowerUp currentSpeed w1 rest) as [w2 rest'].
    cbn [snd] in *. destruct Hin as [Hin | Hin].
    + subst after. exists u. split; [left; reflexivity | exact H1].
    + destruct (IH Hin) as (before & Hb & Hs).
      exists before. split; [right; exact Hb | exact Hs].
Qed.

(** The power-up list and counter through the end of the frame. *)
Lemma powerUpSpawnTick_view canvas w :
  let w' := powerUpSpawnTick randomSource canvas w in
  let counter := Timers.powerUpSpawn (World.timers w) + 1 in
  let roll := randomSource (World.draws w) in
  (counter <= 200 ->
     powerUpView w' = (GameState.powerUps (World.gameState w), counter) /\
     World.draws w' = World.draws w) /\
  (200 < counter -> (GAME_CONFIG.POWERUP.SPAWN_CHANCE <= roll)%Q ->
     powerUpView w' = (GameState.powerUps (World.gameState w), counter) /\
     World.draws w' = S (World.draws w)) /\
  (200 < counter -> (roll < GAME_CONFIG.POWERUP.SPAWN_CHANCE)%Q ->
     exists type,
       powerUpView w' =
       (GameState.powerUps (World.gameState w) ++
          [PowerUp.mk (Canvas.width canvas) 350 type false], 0)).
Proof.
  cbv zeta. unfold powerUpSpawnTick, powerUpView. cbv zeta.
  unfold Math_random. world_simpl.
  destruct (Timers.powerUpSpawn (World.timers w) + 1 >? 200) eqn:Hc.
  - apply Z.gtb_lt in Hc. split; [intro; lia | ].
    world_simpl.
    destruct (randomSource (World.draws w) <? GAME_CONFIG.POWERUP.SPAWN_CHANCE)%Q eqn:Hr.
    + apply Qlt_bool_iff in Hr.
      split; [intros _ Hge; exfalso; lra | ].
      intros _ _. unfold spawnPowerUp, Math_random. cbv zeta. world_simpl.
      split_ifs; world_simpl; eexists; reflexivity.
    + apply Qlt_bool_false_iff in Hr.
      split; [ | intros _ Hlt; exfalso; lra].
      intros _ _. world_simpl. split; reflexivity.
  - rewrite Z.gtb_ltb in Hc. apply Z.ltb_ge in Hc.
    split; [ | split; intros; lia].
    intros _. world_simpl. split; reflexivity.
Qed.

Lemma endOfTick_powerUps canvas obstacles powerUps w :
  let w' := endOfTick randomSource canvas obstacles powerUps w in
  let counter := Timers.powerUpSpawn (World.timers w) + 1 in
  let kept := filter keepPowerUp powerUps in
  (counter <= 200 -> powerUpView w' = (kept, counter)) /\
  (powerUpView w' = (kept, counter) \/
   200 < counter /\
   exists type,
     powerUpView w' = (kept ++ [PowerUp.mk (Canvas.width canvas) 350 type false], 0)).
Proof.
  cbv zeta. unfold endOfTick. cbv zeta.
  set (w1 := prune obstacles powerUps w).
  set (w2 := obstacleSpawnTick randomSource canvas w1).
  set (w3 := powerUpSpawnTick randomSource canvas w2).
  set (w4 := applyColorChange randomSource w3).
  set (w5 := ageTimers w4).
  assert (A : powerUpView w1 =
              (filter keepPowerUp powerUps, Timers.powerUpSpawn (World.timers w)))
    by (unfold w1, prune, powerUpView; cbv zeta; world_simpl; reflexivity).
  assert (B : powerUpView w2 = powerUpView w1).
  { unfold w2, obstacleSpawnTick, spawnObstacle, Math_random, powerUpView. cbv zeta.
    split_ifs; world_simpl; reflexivity. }
  pose proof (powerUpSpawnTick_view canvas w2) as C. cbv zeta in C. fold w3 in C.
  assert (D : powerUpView w4 = powerUpView w3).
  { unfold w4, applyColorChange, Math_random, powerUpView. cbv zeta.
    split_ifs; world_simpl; reflexivity. }
  assert (E : powerUpView w5 = powerUpView w4).
  { unfold w5, ageTimers, powerUpView. cbv zeta. split_ifs; world_simpl; reflexivity. }
  assert (F : powerUpView (comboDecay w5) = powerUpView w5).
  { unfold comboDecay, powerUpView. cbv zeta. split_ifs; world_simpl; reflexivity. }
  clearbody w1 w2 w3 w4 w5.
  rewrite F, E, D. rewrite A in B. clear A D E F.
  unfold powerUpView in B. apply pair_equal_spec in B. destruct B as [B1 B2].
  rewrite B1, B2 in C. destruct C as (C1 & C2 & C3).
  split.
  - intro Hc. apply C1. exact Hc.
  - destruct (Z_le_gt_dec (Timers.powerUpSpawn (World.timers w) + 1) 200) as [Hc | Hc].
    + left. apply C1. exact Hc.
    + destruct (Qlt_le_dec (randomSource (World.draws w2))
                           GAME_CONFIG.POWERUP.SPAWN_CHANCE) as [Hr | Hr].
      * right. split; [lia | ]. apply C3; [lia | exact Hr].
      * left. apply C2; [lia | exact Hr].
Qed.


Lemma obstacleCallback_powerUps powerUps canvas currentSpeed w obstacle :
  GameState.powerUps (World.gameState w) = powerUps ->
  GameState.powerUps
    (World.gameState (fst (obstacleCallback randomSource canvas currentSpeed w obstacle))) =
  powerUps.
Proof.
  intro H. rewrite obstacleCallback_unfold. cbv zeta.
  assert (H1 : GameState.powerUps
                 (World.gameState (fst (fst (resolveCollision canvas w
                    (advance currentSpeed obstacle))))) = powerUps).
  { revert H. unfold resolveCollision, saveBestScore. cbv zeta. intro H.
    split_ifs; world_simpl; exact H. }
  destruct (resolveCollision canvas w (advance currentSpeed obstacle)) as [[w1 o1] ret].
  cbn [fst snd] in *. destruct ret; cbn [fst]; [exact H1 | ].
  revert H1. unfold colorChangeCheck, Math_random. cbv zeta. intro H1.
  split_ifs; world_simpl; exact H1.
Qed.

(** The two lists and the power-up counter after a started frame, from the
    lists the two passes return. *)
Lemma gameLoop_entities canvas w :
  GameState.gameStarted (World.gameState w) = true ->
  exists visited swept,
    (forall after, In after visited ->
       exists before, In before (GameState.obstacles (World.gameState w)) /\
                      scrolledObstacle (frameSpeed w) before after) /\
    (forall after, In after swept ->
       exists before, In before (GameState.powerUps (World.gameState w)) /\
                      scrolledPowerUp (frameSpeed w) before after) /\
    (GameState.obstacles (World.gameState (gameLoop randomSource canvas w)) =
       filter onScreen visited \/
     exists color type,
       GameState.obstacles (World.gameState (gameLoop randomSource canvas w)) =
       filter onScreen visited ++
         [Obstacle.mk (Canvas.width canvas) color false type false]) /\
    (let counter := Timers.powerUpSpawn (World.timers w) + 1 in
     let kept := filter keepPowerUp swept in
     let w' := gameLoop randomSource canvas w in
     (counter <= 200 -> powerUpView w' = (kept, counter)) /\
     (powerUpView w' = (kept, counter) \/
      200 < counter /\
      exists type,
        powerUpView w' =
        (kept ++ [PowerUp.mk (Canvas.width canvas) 350 type false], 0))).
Proof.
  intro Hs. rewrite (gameLoop_started randomSource canvas w Hs). cbv zeta.
  pose proof (beforePasses_keeps canvas w) as Hb. cbv zeta in Hb.
  destruct Hb as (_ & _ & _ & _ & _ & B1 & Bo & Bu & _ & _ & _ & _ & _ & B2).
  set (start := beforePasses canvas w) in *.
  assert (H0 : stageIs (GameState.score (World.gameState w) / 100 + 1)
                 (World.timers w) start) by (split; assumption).
  unfold obstaclePass, powerUpPass.
  pose proof (forEachObstacle_invariant randomSource _ canvas (frameSpeed w)
                (fun w0 o => obstacleCallback_stage randomSource _ _ canvas (frameSpeed w) w0 o)
                (GameState.obstacles (World.gameState start)) start H0) as H1.
  pose proof (forEachObstacle_invariant randomSource _ canvas (frameSpeed w)
                (obstacleCallback_powerUps (GameState.powerUps (World.gameState w))
                   canvas (frameSpeed w))
                (GameState.obstacles (World.gameState start)) start Bu) as Hu.
  assert (Ho : forall after,
            In after (snd (forEachObstacle randomSource canvas (frameSpeed w) start
                             (GameState.obstacles (World.gameState start)))) ->
            exists before, In before (GameState.obstacles (World.gameState w)) /\
                           scrolledObstacle (frameSpeed w) before after).
  { intros after Hin. rewrite <- Bo.
    exact (forEachObstacle_scrolled canvas (frameSpeed w) _ start after Hin). }
  set (r1 := forEachObstacle randomSource canvas (frameSpeed w) start
               (GameState.obstacles (World.gameState start))) in *.
  pose proof (forEachPowerUp_invariant _ (frameSpeed w)
                (fun w0 u => powerUpCallback_stage _ _ (frameSpeed w) w0 u)
                (GameState.powerUps (World.gameState (fst r1))) (fst r1) H1) as H2.
  assert (Hp : forall after,
            In after (snd (forEachPowerUp (frameSpeed w) (fst r1)
                             (GameState.powerUps (World.gameState (fst r1))))) ->
            exists before, In before (GameState.powerUps (World.gameState w)) /\
                           scrolledPowerUp (frameSpeed w) before after).
  { intros after Hin. rewrite <- Hu.
    exact (forEachPowerUp_scrolled (frameSpeed w) _ (fst r1) after Hin). }
  set (r2 := forEachPowerUp (frameSpeed w) (fst r1)
               (GameState.powerUps (World.gameState (fst r1)))) in *.
  destruct (endOfTick_effect randomSource canvas (snd r1) (snd r2) (fst r2))
    as (_ & _ & _ & E2).
  pose proof (endOfTick_powerUps canvas (snd r1) (snd r2) (fst r2)) as E3.
  cbv zeta in E3.
  destruct H2 as [_ T]. rewrite T in E3.
  clearbody r1 r2 start.
  exists (snd r1), (snd r2).
  split; [exact Ho | ]. split; [exact Hp | ]. split; [ | exact E3].
  destruct (Timers.spawn (World.timers (fst r2)) + 1 >?
            spawnThreshold (GameState.level (World.gameState (fst r2)))).
  - right. exact (proj2 E2).
  - left. exact (proj2 E2).
Qed.

(** X12.  Every obstacle and power-up in the lists after a started frame is
    either new, at the right edge of the canvas, or one of the frame before
    moved left by the frame's speed, which is computed once from the score
    at the start of the frame; colour, type and height are kept and the
    flags are only ever set. *)
Theorem entities_scroll_at_frame_speed canvas w :
  GameState.gameStarted (World.gameState w) = true ->
  let w' := gameLoop randomSource canvas w in
  (forall after, In after (GameState.obstacles (World.gameState w')) ->
     (exists before, In before (GameState.obstacles (World.gameState w)) /\
                     scrolledObstacle (frameSpeed w) before after) \/
     (Obstacle.x after = Canvas.width canvas /\ Obstacle.passed after = false /\
      Obstacle.colorChanged after = false)) /\
  (forall after, In after (GameState.powerUps (World.gameState w')) ->
     (exists before, In before (GameState.powerUps (World.gameState w)) /\
                     scrolledPowerUp (frameSpeed w) before after) \/
     (PowerUp.x after = Canvas.width canvas /\ PowerUp.y after = 350%Q /\
      PowerUp.collected after = false)).
Proof.
  intro Hs. cbv zeta.
  destruct (gameLoop_entities canvas w Hs) as (visited & swept & Ho & Hp & Eo & _ & Eu).
  split.
  - intros after Hin.
    assert (Hcases : In after (filter onScreen visited) \/
                     exists color type,
                       after = Obstacle.mk (Canvas.width canvas) color false type false).
    { destruct Eo as [Eo | (color & type & Eo)]; rewrite Eo in Hin.
      - left. exact Hin.
      - apply in_app_or in Hin. destruct Hin as [Hin | [Hin | []]].
        + left. exact Hin.
        + right. exists color, type. symmetry. exact Hin. }
    destruct Hcases as [Hk | (color & type & Hnew)].
    + left. apply filter_In in Hk. apply Ho. exact (proj1 Hk).
    + right. subst after. repeat split; reflexivity.
  - intros after Hin.
    assert (Hcases : In after (filter keepPowerUp swept) \/
                     exists type, after = PowerUp.mk (Canvas.width canvas) 350 type false).
    { unfold powerUpView in Eu.
      destruct Eu as [Eu | (_ & type & Eu)];
        apply pair_equal_spec in Eu; destruct Eu as [Eu _]; rewrite Eu in Hin.
      - left. exact Hin.
      - apply in_app_or in Hin. destruct Hin as [Hin | [Hin | []]].
        + left. exact Hin.
        + right. exists type. symmetry. exact Hin. }
    destruct Hcases as [Hk | (type & Hnew)].
    + left. apply filter_In in Hk. apply Hp. exact (proj1 Hk).
    + right. subst after. repeat split; reflexivity.
Qed.

(** X13.  After a started frame no collected power-up is left in the list, and on
    a canvas of non-negative width every obstacle and power-up in the lists
    is right of x = -30. *)
Theorem frame_keeps_live_entities canvas w :
  GameState.gameStarted (World.gameState w) = true ->
  let w' := gameLoop randomSource canvas w in
  Forall (fun u => PowerUp.collected u = false) (GameState.powerUps (World.gameState w')) /\
  ((0 <= Canvas.width canvas)%Q ->
   Forall (fun o => (-30 < Obstacle.x o)%Q) (GameState.obstacles (World.gameState w')) /\
   Forall (fun u => (-30 < PowerUp.x u)%Q) (GameState.powerUps (World.gameState w'))).
Proof.
  intro Hs. cbv zeta.
  destruct (gameLoop_entities canvas w Hs) as (visited & swept & _ & _ & Eo & _ & Eu).
  assert (Hkeep : forall u, In u (filter keepPowerUp swept) ->
                    PowerUp.collected u = false /\ (-30 < PowerUp.x u)%Q).
  { intros u Hin. apply filter_In in Hin. destruct Hin as [_ Hk].
    unfold keepPowerUp in Hk. apply andb_true_iff in Hk. destruct Hk as [Hx Hc].
    apply Qgt_bool_iff in Hx. apply negb_true_iff in Hc. split; [exact Hc | lra]. }
  assert (Hon : forall o, In o (filter onScreen visited) -> (-30 < Obstacle.x o)%Q).
  { intros o Hin. apply filter_In in Hin. destruct Hin as [_ Hk].
    unfold onScreen, GAME_CONFIG.OBSTACLE.WIDTH in Hk. apply Qgt_bool_iff in Hk. lra. }
  unfold powerUpView in Eu.
  split; [ | intro Hw; split].
  - apply Forall_forall. intros u Hin.
    destruct Eu as [Eu | (_ & type & Eu)];
      apply pair_equal_spec in Eu; destruct Eu as [Eu _]; rewrite Eu in Hin.
    + exact (proj1 (Hkeep u Hin)).
    + apply in_app_or in Hin. destruct Hin as [Hin | [Hin | []]].
      * exact (proj1 (Hkeep u Hin)).
      * subst u. reflexivity.
  - apply Forall_forall. intros o Hin.
    destruct Eo as [Eo | (color & type & Eo)]; rewrite Eo in Hin.
    + exact (Hon o Hin).
    + apply in_app_or in Hin. destruct Hin as [Hin | [Hin | []]].
      * exact (Hon o Hin).
      * subst o. cbn [Obstacle.x]. lra.
  - apply Forall_forall. intros u Hin.
    destruct Eu as [Eu | (_ & type & Eu)];
      apply pair_equal_spec in Eu; destruct Eu as [Eu _]; rewrite Eu in Hin.
    + exact (proj2 (Hkeep u Hin)).
    + apply in_app_or in Hin. destruct Hin as [Hin | [Hin | []]].
      * exact (proj2 (Hkeep u Hin)).
      * subst u. cbn [PowerUp.x]. lra.
Qed.

(** X14.  The power-up counter goes up by 1 in every started frame.  While the
    incremented counter is at most 200 nothing is spawned and no random
    number is drawn for it.  Above 200 each frame draws once: below
    SPAWN_CHANCE one power-up is appended at the right edge, at height 350,
    and the counter goes back to 0; otherwise the counter keeps its
    incremented value, so that the next frame draws again. *)
Theorem powerUp_spawn_cadence canvas w :
  GameState.gameStarted (World.gameState w) = true ->
  let w' := gameLoop randomSource canvas w in
  let counter := Timers.powerUpSpawn (World.timers w) + 1 in
  let swept :=
    snd (powerUpPass (frameSpeed w)
           (fst (obstaclePass randomSource canvas (frameSpeed w)
                   (beforePasses canvas w)))) in
  let kept := filter keepPowerUp swept in
  let waiting :=
    Timers.powerUpSpawn (World.timers w') = counter /\
    GameState.powerUps (World.gameState w') = kept in
  let spawned :=
    Timers.powerUpSpawn (World.timers w') = 0 /\
    exists type,
      GameState.powerUps (World.gameState w') =
      kept ++ [PowerUp.mk (Canvas.width canvas) 350 type false] in
  (counter <= 200 -> waiting) /\
  (waiting \/ 200 < counter /\ spawned) /\
  (forall w0,
     let tick := powerUpSpawnTick randomSource canvas w0 in
     let counter0 := Timers.powerUpSpawn (World.timers w0) + 1 in
     let roll := randomSource (World.draws w0) in
     (counter0 <= 200 -> World.draws tick = World.draws w0) /\
     (200 < counter0 -> (0.15 <= roll)%Q ->
        Timers.powerUpSpawn (World.timers tick) = counter0 /\
        GameState.powerUps (World.gameState tick) =
          GameState.powerUps (World.gameState w0)) /\
     (200 < counter0 -> (roll < 0.15)%Q ->
        Timers.powerUpSpawn (World.timers tick) = 0 /\
        exists type,
          GameState.powerUps (World.gameState tick) =
          GameState.powerUps (World.gameState w0) ++
            [PowerUp.mk (Canvas.width canvas) 350 type false])).
Proof.
  intro Hs. cbv zeta.
  split; [ | split].
  3: {
    intro w0. pose proof (powerUpSpawnTick_view canvas w0) as H. cbv zeta in H.
    destruct H as (H1 & H2 & H3). unfold powerUpView in *.
    split; [intro Hc; exact (proj2 (H1 Hc)) | ].
    split.
    - intros Hc Hr. destruct (H2 Hc Hr) as [E _].
      apply pair_equal_spec in E. destruct E as [E1 E2]. split; assumption.
    - intros Hc Hr. destruct (H3 Hc Hr) as [type E].
      apply pair_equal_spec in E. destruct E as [E1 E2].
      split; [exact E2 | exists type; exact E1]. }
  all: rewrite (gameLoop_started randomSource canvas w Hs); cbv zeta.
  all: pose proof (beforePasses_keeps canvas w) as Hb; cbv zeta in Hb;
       destruct Hb as (_ & _ & _ & _ & _ & B1 & _ & _ & _ & _ & _ & _ & _ & B2).
  all: set (start := beforePasses canvas w) in *.
  all: assert (H0 : stageIs (GameState.score (World.gameState w) / 100 + 1)
                      (World.timers w) start) by (split; assumption).
  all: unfold obstaclePass, powerUpPass.
  all: pose proof (forEachObstacle_invariant randomSource _ canvas (frameSpeed w)
                (fun w0 o => obstacleCallback_stage randomSource _ _ canvas (frameSpeed w) w0 o)
                (GameState.obstacles (World.gameState start)) start H0) as H1.
  all: set (r1 := forEachObstacle randomSource canvas (frameSpeed w) start
               (GameState.obstacles (World.gameState start))) in *.
  all: pose proof (forEachPowerUp_invariant _ (frameSpeed w)
                (fun w0 u => powerUpCallback_stage _ _ (frameSpeed w) w0 u)
                (GameState.powerUps (World.gameState (fst r1))) (fst r1) H1) as H2.
  all: set (r2 := forEachPowerUp (frameSpeed w) (fst r1)
               (GameState.powerUps (World.gameState (fst r1)))) in *.
  all: pose proof (endOfTick_powerUps canvas (snd r1) (snd r2) (fst r2)) as E3;
       cbv zeta in E3; destruct H2 as [_ T]; rewrite T in E3;
       clearbody r1 r2 start; unfold powerUpView in E3; destruct E3 as (E3 & E4).
  - intro Hc. specialize (E3 Hc).
    apply pair_equal_spec in E3. destruct E3 as [E31 E32]. split; assumption.
  - destruct E4 as [E4 | (Hc & type & E4)];
      apply pair_equal_spec in E4; destruct E4 as [E41 E42].
    + left. split; assumption.
    + right. split; [exact Hc | ]. split; [exact E42 | exists type; exact E41].
Qed.

End Entities.

(** In the busy frame every obstacle left in the list comes from the list
    before or is new at the right edge. *)
Lemma entities_scroll_at_frame_speed_witness :
  Forall (fun after =>
            (exists before,
               In before (GameState.obstacles (World.gameState busyWorld)) /\
               scrolledObstacle (frameSpeed busyWorld) before after) \/
            (Obstacle.x after = Canvas.width fullCanvas /\
             Obstacle.passed after = false /\ Obstacle.colorChanged after = false))
         (GameState.obstacles (World.gameState (gameLoop zeroSource fullCanvas busyWorld))).
Proof.
  pose proof (entities_scroll_at_frame_speed zeroSource fullCanvas busyWorld eq_refl) as H.
  cbv zeta in H. destruct H as (Ho & _).
  apply Forall_forall. exact Ho.
Defined.

(** After the busy frame the obstacle that left the screen and the bonus
    item that was collected are gone. *)
Lemma frame_keeps_live_entities_witness :
  Forall (fun u => PowerUp.collected u = false)
    (GameState.powerUps (World.gameState (gameLoop zeroSource fullCanvas busyWorld))) /\
  Forall (fun o => (-30 < Obstacle.x o)%Q)
    (GameState.obstacles (World.gameState (gameLoop zeroSource fullCanvas busyWorld))) /\
  List.length
    (GameState.obstacles (World.gameState (gameLoop zeroSource fullCanvas busyWorld))) =
    1%nat.
Proof.
  pose proof (frame_keeps_live_entities zeroSource fullCanvas busyWorld eq_refl) as H.
  cbv zeta in H. destruct H as (Hc & Hx).
  destruct (Hx ltac:(closed_fact)) as (Ho & _).
  split; [exact Hc | ]. split; [exact Ho | vm_compute; reflexivity].
Defined.

(** In the first frame of a game the counter goes from 0 to 1 and nothing
    is spawned; with the counter at 200 and a draw of 0 a power-up is
    spawned and the counter goes back to 0. *)
Lemma powerUp_spawn_cadence_witness :
  Timers.powerUpSpawn (World.timers (gameLoop zeroSource fullCanvas level1World)) = 1 /\
  Timers.powerUpSpawn
    (World.timers (powerUpSpawnTick zeroSource fullCanvas busyWorld)) = 0.
Proof.
  pose proof (powerUp_spawn_cadence zeroSource fullCanvas level1World eq_refl) as H.
  cbv zeta in H. destruct H as (Hwait & _ & Htick).
  destruct (Hwait ltac:(closed_fact)) as (Ht & _).
  destruct (Htick busyWorld) as (_ & _ & Hspawn).
  destruct (Hspawn ltac:(closed_fact) ltac:(closed_fact)) as (H0 & _).
  exact (conj Ht H0).
Defined.

(** ** Colours (lines 206-207, 751-767, 911-920) *)

Section Palette.
Variable randomSource : nat -> Q.

Lemma obstacleCallback_color c canvas currentSpeed w obstacle :
  Player.color (World.player w) = c ->
  Player.color
    (World.player (fst (obstacleCallback randomSource canvas currentSpeed w obstacle))) = c.
Proof.
  intro H. rewrite obstacleCallback_unfold. cbv zeta.
  pose proof (resolveCollision_lives canvas w (advance currentSpeed obstacle)) as E.
  cbv zeta in E. destruct E as (_ & _ & _ & _ & _ & _ & _ & Ec & _).
  destruct (resolveCollision canvas w (advance currentSpeed obstacle)) as [[w1 o1] ret].
  cbn [fst snd] in *. destruct ret; cbn [fst]; [congruence | ].
  destruct (colorChangeCheck_world randomSource w1 o1) as (Hp & _). rewrite Hp. congruence.
Qed.

Lemma powerUpCallback_colorView v currentSpeed w powerUp :
  colorView w = v -> colorView (fst (powerUpCallback currentSpeed w powerUp)) = v.
Proof.
  unfold colorView, powerUpCallback, applyPowerUp. cbv zeta. intro H.
  split_ifs; cbn [fst]; try exact H;
    destruct (PowerUp.type _); split_ifs; world_simpl; exact H.
Qed.

Lemma beforePasses_colorView canvas w :
  colorView (beforePasses canvas w) = colorView w.
Proof.
  unfold beforePasses, updateLevel, updatePhysics, scrollBackground, colorView.
  cbv zeta. split_ifs; world_simpl; reflexivity.
Qed.

(** The end of the frame clears the pending flag; the player's colour stays
    when the flag was not set. *)
Lemma endOfTick_colorView canvas obstacles powerUps w :
  let w' := endOfTick randomSource canvas obstacles powerUps w in
  GameState.colorChangeOnNextObstacle (World.gameState w') = false /\
  (GameState.colorChangeOnNextObstacle (World.gameState w) = false ->
     Player.color (World.player w') = Player.color (World.player w)) /\
  ((forall n, (0 <= randomSource n)%Q /\ (randomSource n < 1)%Q) ->
   GameState.colorChangeOnNextObstacle (World.gameState w) = true ->
     In (Player.color (World.player w')) GAME_CONFIG.COLORS /\
     Player.color (World.player w') <> Player.color (World.player w)).
Proof.
  cbv zeta. unfold endOfTick. cbv zeta.
  set (w1 := prune obstacles powerUps w).
  set (w2 := obstacleSpawnTick randomSource canvas w1).
  set (w3 := powerUpSpawnTick randomSource canvas w2).
  set (w4 := applyColorChange randomSource w3).
  set (w5 := ageTimers w4).
  destruct (prune_keeps obstacles powerUps w) as (A1 & _ & _ & _ & A2).
  destruct (obstacleSpawnTick_keeps randomSource canvas w1) as (B1 & _ & _ & _ & B2 & _).
  destruct (powerUpSpawnTick_keeps randomSource canvas w2) as (C1 & _ & _ & _ & C2).
  assert (D : colorView (comboDecay w5) = colorView w4).
  { unfold w5, comboDecay, ageTimers, colorView. cbv zeta. split_ifs; world_simpl; reflexivity. }
  fold w1 in A1, A2, B1, B2. fold w2 in B1, B2, C1, C2. fold w3 in C1, C2.
  assert (Hc : Player.color (World.player w3) = Player.color (World.player w))
    by congruence.
  assert (Hf : GameState.colorChangeOnNextObstacle (World.gameState w3) =
               GameState.colorChangeOnNextObstacle (World.gameState w)) by congruence.
  unfold colorView in D. apply pair_equal_spec in D. destruct D as [D1 D2].
  rewrite D1, D2. rewrite <- Hc, <- Hf. unfold w4.
  clearbody w3. clear.
  split; [ | split].
  - unfold applyColorChange, Math_random. cbv zeta. split_ifs; world_simpl; congruence.
  - intro H. unfold applyColorChange. rewrite H. reflexivity.
  - intros Hr H. destruct (Hr (World.draws w3)) as [H0 H1].
    destruct (applyColorChange_excludes_current randomSource w3 H H0 H1) as (E1 & E2 & _).
    split; assumption.
Qed.

Lemma obstacleCallback_flag canvas currentSpeed w obstacle :
  GameState.colorChangeOnNextObstacle (World.gameState w) = true ->
  GameState.colorChangeOnNextObstacle
    (World.gameState (fst (obstacleCallback randomSource canvas currentSpeed w obstacle))) =
  true.
Proof.
  intro H. rewrite obstacleCallback_unfold. cbv zeta.
  assert (H1 : GameState.colorChangeOnNextObstacle
                 (World.gameState (fst (fst (resolveCollision canvas w
                    (advance currentSpeed obstacle))))) = true).
  { revert H. unfold resolveCollision, saveBestScore. cbv zeta. intro H.
    split_ifs; world_simpl; exact H. }
  destruct (resolveCollision canvas w (advance currentSpeed obstacle)) as [[w1 o1] ret].
  cbn [fst snd] in *. destruct ret; cbn [fst]; [exact H1 | ].
  destruct (colorChangeCheck_roll randomSource w1 o1) as (E & _).
  rewrite E, H1. reflexivity.
Qed.


(** The player's colour after a started frame, from the pending flag that
    the obstacle pass leaves. *)
Lemma gameLoop_colorView canvas w :
  GameState.gameStarted (World.gameState w) = true ->
  let w' := gameLoop randomSource canvas w in
  let pending :=
    GameState.colorChangeOnNextObstacle
      (World.gameState
         (fst (obstaclePass randomSource canvas (frameSpeed w) (beforePasses canvas w)))) in
  GameState.colorChangeOnNextObstacle (World.gameState w') = false /\
  (pending = false -> Player.color (World.player w') = Player.color (World.player w)) /\
  ((forall n, (0 <= randomSource n)%Q /\ (randomSource n < 1)%Q) ->
   pending = true ->
     In (Player.color (World.player w')) GAME_CONFIG.COLORS /\
     Player.color (World.player w') <> Player.color (World.player w)).
Proof.
  intro Hs. cbv zeta. rewrite (gameLoop_started randomSource canvas w Hs). cbv zeta.
  pose proof (beforePasses_colorView canvas w) as Hb.
  unfold colorView in Hb. apply pair_equal_spec in Hb. destruct Hb as [Hb _].
  unfold obstaclePass, powerUpPass.
  pose proof (forEachObstacle_invariant randomSource _ canvas (frameSpeed w)
                (obstacleCallback_color (Player.color (World.player w))
                   canvas (frameSpeed w))
                (GameState.obstacles (World.gameState (beforePasses canvas w))) _ Hb) as H1.
  set (r1 := forEachObstacle randomSource canvas (frameSpeed w) (beforePasses canvas w)
               (GameState.obstacles (World.gameState (beforePasses canvas w)))) in *.
  pose proof (forEachPowerUp_invariant _ (frameSpeed w)
                (powerUpCallback_colorView (colorView (fst r1)) (frameSpeed w))
                (GameState.powerUps (World.gameState (fst r1))) (fst r1) eq_refl) as H2.
  set (r2 := forEachPowerUp (frameSpeed w) (fst r1)
               (GameState.powerUps (World.gameState (fst r1)))) in *.
  pose proof (endOfTick_colorView canvas (snd r1) (snd r2) (fst r2)) as E.
  cbv zeta in E. clearbody r1 r2.
  unfold colorView in H2. apply pair_equal_spec in H2. destruct H2 as [H2 H3].
  rewrite H2, H3, H1 in E. exact E.
Qed.

Lemma spawnObstacle_palette canvas w :
  (forall n, (0 <= randomSource n)%Q /\ (randomSource n < 1)%Q) ->
  exists obstacle,
    GameState.obstacles (World.gameState (spawnObstacle randomSource canvas w)) =
      GameState.obstacles (World.gameState w) ++ [obstacle] /\
    In (Obstacle.color obstacle) GAME_CONFIG.COLORS.
Proof.
  intro Hr. unfold spawnObstacle, Math_random. cbv zeta. world_simpl.
  eexists. split; [reflexivity | ]. cbn [Obstacle.color].
  destruct (Hr (World.draws w)) as [H0 H1].
  set (i := Qfloor (randomSource (World.draws w) *
                    inject_Z (Z.of_nat (List.length GAME_CONFIG.COLORS)))).
  assert (Hi : 0 <= i < Z.of_nat (List.length GAME_CONFIG.COLORS))
    by (apply floor_index_in_range; [assumption | assumption | cbn; lia]).
  unfold array_get. replace (i <? 0) with false by (symmetry; apply Z.ltb_ge; lia).
  apply nth_In. lia.
Qed.

Lemma endOfTick_obstacle_colors canvas obstacles powerUps w :
  (forall n, (0 <= randomSource n)%Q /\ (randomSource n < 1)%Q) ->
  Forall (fun o => In (Obstacle.color o) GAME_CONFIG.COLORS) obstacles ->
  Forall (fun o => In (Obstacle.color o) GAME_CONFIG.COLORS)
    (GameState.obstacles
       (World.gameState (endOfTick randomSource canvas obstacles powerUps w))).
Proof.
  intros Hr Hall. unfold endOfTick. cbv zeta.
  set (w1 := prune obstacles powerUps w).
  set (w2 := obstacleSpawnTick randomSource canvas w1).
  set (w3 := powerUpSpawnTick randomSource canvas w2).
  set (w4 := applyColorChange randomSource w3).
  set (w5 := ageTimers w4).
  assert (A : Forall (fun o => In (Obstacle.color o) GAME_CONFIG.COLORS)
                (GameState.obstacles (World.gameState w1))).
  { unfold w1, prune. cbv zeta. world_simpl.
    apply Forall_forall. intros o Hin. apply filter_In in Hin.
    rewrite Forall_forall in Hall. apply Hall. exact (proj1 Hin). }
  assert (B : Forall (fun o => In (Obstacle.color o) GAME_CONFIG.COLORS)
                (GameState.obstacles (World.gameState w2))).
  { unfold w2, obstacleSpawnTick. cbv zeta.
    set (w1' := World.updTimers (fun m => Timers.set_spawn (Timers.spawn m + 1) m) w1).
    assert (A' : Forall (fun o => In (Obstacle.color o) GAME_CONFIG.COLORS)
                   (GameState.obstacles (World.gameState w1')))
      by (unfold w1'; world_simpl; exact A).
    clearbody w1'.
    destruct (Timers.spawn (World.timers w1') >?
              spawnThreshold (GameState.level (World.gameState w1'))); [ | exact A'].
    destruct (spawnObstacle_palette canvas w1' Hr) as (o & Eo & Ho).
    world_simpl. unfold World.player in *. rewrite Eo.
    apply Forall_app. split; [exact A' | ]. constructor; [exact Ho | constructor]. }
  destruct (powerUpSpawnTick_keeps randomSource canvas w2) as (_ & _ & _ & C & _).
  destruct (applyColorChange_keeps randomSource w3) as (_ & _ & D & _).
  destruct (ageTimers_keeps w4) as (_ & _ & E & _).
  destruct (comboDecay_keeps w5) as (_ & F & _).
  fold w3 in C. fold w4 in D. fold w5 in E.
  clearbody w1 w2 w3 w4 w5.
  assert (G : spawnView (comboDecay w5) = spawnView w2) by congruence.
  unfold spawnView in G.
  apply pair_equal_spec in G. destruct G as [G _].
  apply pair_equal_spec in G. destruct G as [G _].
  rewrite G. exact B.
Qed.

Lemma gameLoop_inPalette canvas w :
  (forall n, (0 <= randomSource n)%Q /\ (randomSource n < 1)%Q) ->
  inPalette w -> inPalette (gameLoop randomSource canvas w).
Proof.
  intros Hr [Hc Ho].
  destruct (GameState.gameStarted (World.gameState w)) eqn:Hs.
  - split.
    + pose proof (gameLoop_colorView canvas w Hs) as H. cbv zeta in H.
      destruct H as (_ & H1 & H2).
      destruct (GameState.colorChangeOnNextObstacle
                  (World.gameState
                     (fst (obstaclePass randomSource canvas (frameSpeed w)
                             (beforePasses canvas w))))).
      * exact (proj1 (H2 Hr eq_refl)).
      * rewrite (H1 eq_refl). exact Hc.
    + rewrite (gameLoop_started randomSource canvas w Hs). cbv zeta.
      unfold obstaclePass, powerUpPass.
      destruct (beforePasses_keeps canvas w)
        as (_ & _ & _ & _ & _ & _ & Bo & _).
      assert (Hsc : forall after,
                In after (snd (forEachObstacle randomSource canvas (frameSpeed w)
                                 (beforePasses canvas w)
                                 (GameState.obstacles
                                    (World.gameState (beforePasses canvas w))))) ->
                exists before,
                  In before (GameState.obstacles (World.gameState w)) /\
                  scrolledObstacle (frameSpeed w) before after).
      { intros after Hin. rewrite <- Bo.
        exact (forEachObstacle_scrolled randomSource canvas (frameSpeed w) _ _ after Hin). }
      set (r1 := forEachObstacle randomSource canvas (frameSpeed w) (beforePasses canvas w)
                   (GameState.obstacles (World.gameState (beforePasses canvas w)))) in *.
      set (r2 := forEachPowerUp (frameSpeed w) (fst r1)
                   (GameState.powerUps (World.gameState (fst r1)))) in *.
      clearbody r2 r1.
      apply endOfTick_obstacle_colors; [exact Hr | ].
      apply Forall_forall. intros after Hin.
      destruct (Hsc after Hin) as (before & Hb & (_ & Ecol & _)).
      rewrite Forall_forall in Ho. rewrite Ecol. apply Ho. exact Hb.
  - rewrite (gameLoop_title randomSource canvas w Hs).
    destruct (scrollBackground_keeps canvas w) as (Sp & So & _).
    unfold inPalette. rewrite Sp, So. split; assumption.
Qed.

Lemma reachable_inPalette w :
  (forall n, (0 <= randomSource n)%Q /\ (randomSource n < 1)%Q) ->
  reachable randomSource w -> inPalette w.
Proof.
  intro Hr. induction 1 as [w0 | e w Hreach IH He].
  - unfold inPalette, resetGame, createInitialGameState. world_simpl.
    split; [left; reflexivity | constructor].
  - destruct e as [canvas | | ]; cbn [react].
    + apply gameLoop_inPalette; assumption.
    + revert IH. unfold inPalette, handleJump, startGame. cbv zeta. intro IH.
      split_ifs; world_simpl; exact IH.
    + unfold inPalette, resetGame, createInitialGameState. world_simpl.
      split; [left; reflexivity | constructor].
Qed.

Lemma reachable_not_pending w :
  reachable randomSource w ->
  GameState.colorChangeOnNextObstacle (World.gameState w) = false.
Proof.
  induction 1 as [w0 | e w Hreach IH He].
  - reflexivity.
  - destruct e as [canvas | | ]; cbn [react].
    + destruct (GameState.gameStarted (World.gameState w)) eqn:Hs.
      * exact (proj1 (gameLoop_colorView canvas w Hs)).
      * rewrite (gameLoop_title randomSource canvas w Hs).
        revert IH. unfold scrollBackground. cbv zeta. intro IH.
        split_ifs; world_simpl; exact IH.
    + revert IH. unfold handleJump, startGame. cbv zeta. intro IH.
      split_ifs; world_simpl; exact IH.
    + reflexivity.
Qed.

(** X15.  With every draw of the random source in [[0, 1)], as [Math.random()]
    promises, the player's colour and the colour of every obstacle in a
    reachable state are palette colours: no array lookup ever falls out of
    range and yields [undefined]. *)
Theorem colours_stay_in_palette w :
  (forall n, (0 <= randomSource n)%Q /\ (randomSource n < 1)%Q) ->
  reachable randomSource w ->
  In (Player.color (World.player w)) GAME_CONFIG.COLORS /\
  Forall (fun o => In (Obstacle.color o) GAME_CONFIG.COLORS)
         (GameState.obstacles (World.gameState w)) /\
  Player.color (World.player w) <> undefined.
Proof.
  intros Hr H. destruct (reachable_inPalette w Hr H) as [Hc Ho].
  split; [exact Hc | ]. split; [exact Ho | ].
  intro E. rewrite E in Hc. unfold GAME_CONFIG.COLORS, undefined in Hc.
  cbn [In] in Hc. intuition discriminate.
Qed.

(** X16.  The pending colour change never outlives its frame: in a reachable
    state the flag is not set, and a started frame ends with the flag
    cleared.  The player's colour after the frame is the one before unless
    the obstacle pass of that frame set the flag; then, with the draws in
    [[0, 1)], it is another palette colour. *)
Theorem color_change_is_applied_within_the_frame canvas w :
  reachable randomSource w ->
  GameState.gameStarted (World.gameState w) = true ->
  let w' := gameLoop randomSource canvas w in
  let pending :=
    GameState.colorChangeOnNextObstacle
      (World.gameState
         (fst (obstaclePass randomSource canvas (frameSpeed w) (beforePasses canvas w)))) in
  GameState.colorChangeOnNextObstacle (World.gameState w) = false /\
  GameState.colorChangeOnNextObstacle (World.gameState w') = false /\
  (pending = false -> Player.color (World.player w') = Player.color (World.player w)) /\
  ((forall n, (0 <= randomSource n)%Q /\ (randomSource n < 1)%Q) ->
   pending = true ->
     In (Player.color (World.player w')) GAME_CONFIG.COLORS /\
     Player.color (World.player w') <> Player.color (World.player w)).
Proof.
  intros Hr Hs. cbv zeta.
  split; [exact (reachable_not_pending w Hr) | ].
  exact (gameLoop_colorView canvas w Hs).
Qed.

End Palette.

(** The game of [jumpOverEvents] after the colour roll: the player has the
    second palette colour. *)
Lemma colours_stay_in_palette_witness :
  In (Player.color (World.player rolledWorld)) GAME_CONFIG.COLORS /\
  Player.color (World.player rolledWorld) = "#2ed573"%string.
Proof.
  pose proof (colours_stay_in_palette zeroSource rolledWorld
                ltac:(intro n; split; closed_fact)
                (run_reachable zeroSource (jumpOverEvents 35) mountedWorld
                   (reachable_mount zeroSource _))) as H.
  destruct H as (Hc & _).
  split; [exact Hc | vm_compute; reflexivity].
Defined.

(** The frame of that game in which the roll succeeds: the flag is set by
    the obstacle pass and the colour has changed when the frame ends. *)
Lemma color_change_is_applied_within_the_frame_witness :
  let beforeRoll := run zeroSource (jumpOverEvents 34) mountedWorld in
  let afterRoll := gameLoop zeroSource fullCanvas beforeRoll in
  GameState.colorChangeOnNextObstacle (World.gameState afterRoll) = false /\
  Player.color (World.player afterRoll) <> Player.color (World.player beforeRoll).
Proof.
  intros beforeRoll afterRoll.
  pose proof (color_change_is_applied_within_the_frame zeroSource fullCanvas beforeRoll
                (run_reachable zeroSource (jumpOverEvents 34) mountedWorld
                   (reachable_mount zeroSource _))
                ltac:(vm_compute; reflexivity)) as H.
  cbv zeta in H. destruct H as (_ & Hf & _ & Hc).
  destruct (Hc ltac:(intro n; split; closed_fact) ltac:(vm_compute; reflexivity))
    as (_ & Hne).
  exact (conj Hf Hne).
Defined.

(** ** The particle pass (lines 863-880) *)

Lemma nth_error_middle (done rest : list Particle.t) :
  nth_error (done ++ rest) (List.length done) = nth_error rest 0.
Proof.
  rewrite nth_error_app2 by lia. rewrite Nat.sub_diag. reflexivity.
Qed.

Lemma setAt_middle (done : list Particle.t) old new rest :
  setAt (List.length done) new (done ++ old :: rest) = done ++ new :: rest.
Proof.
  unfold setAt.
  rewrite firstn_app, firstn_all, Nat.sub_diag. cbn [firstn]. rewrite app_nil_r.
  replace (S (List.length done)) with (List.length (done ++ [old]))
    by (rewrite length_app; cbn; lia).
  replace (done ++ old :: rest) with ((done ++ [old]) ++ rest)
    by (rewrite <- app_assoc; reflexivity).
  rewrite skipn_app, skipn_all, Nat.sub_diag. reflexivity.
Qed.

Lemma splice1_middle (done : list Particle.t) old rest :
  splice1 (List.length done) (done ++ old :: rest) = done ++ rest.
Proof.
  unfold splice1.
  rewrite firstn_app, firstn_all, Nat.sub_diag. cbn [firstn]. rewrite app_nil_r.
  replace (S (List.length done)) with (List.length (done ++ [old]))
    by (rewrite length_app; cbn; lia).
  replace (done ++ old :: rest) with ((done ++ [old]) ++ rest)
    by (rewrite <- app_assoc; reflexivity).
  rewrite skipn_app, skipn_all, Nat.sub_diag. reflexivity.
Qed.

Lemma forEachParticle_past_end remaining : forall index particles,
  (List.length particles <= index)%nat ->
  forEachParticle remaining index particles = particles.
Proof.
  induction remaining as [|remaining IH]; intros index particles Hlen.
  - reflexivity.
  - cbn [forEachParticle].
    replace (nth_error particles index) with (@None Particle.t)
      by (symmetry; apply nth_error_None; exact Hlen).
    apply IH. lia.
Qed.

Lemma forEachParticle_agedParticles remaining : forall done rest,
  (List.length rest <= remaining)%nat ->
  forEachParticle remaining (List.length done) (done ++ rest) =
  done ++ agedParticles rest.
Proof.
  induction remaining as [|remaining IH]; intros done rest Hlen.
  - destruct rest; [reflexivity | cbn in Hlen; lia].
  - cbn [forEachParticle]. rewrite nth_error_middle.
    destruct rest as [|particle rest].
    + cbn [nth_error agedParticles].
      apply forEachParticle_past_end. rewrite length_app. cbn. lia.
    + cbn [nth_error agedParticles]. cbv zeta.
      rewrite setAt_middle.
      cbn [List.length] in Hlen.
      destruct (Particle.life (ageParticle particle) <=? 0).
      * rewrite splice1_middle.
        destruct rest as [|next rest].
        -- rewrite app_nil_r. apply forEachParticle_past_end. lia.
        -- replace (S (List.length done)) with (List.length (done ++ [next]))
             by (rewrite length_app; cbn; lia).
           replace (done ++ next :: rest) with ((done ++ [next]) ++ rest)
             by (rewrite <- app_assoc; reflexivity).
           rewrite IH by (cbn [List.length] in Hlen; lia).
           rewrite <- app_assoc. reflexivity.
      * replace (S (List.length done))
          with (List.length (done ++ [ageParticle particle]))
          by (rewrite length_app; cbn; lia).
        replace (done ++ ageParticle particle :: rest)
          with ((done ++ [ageParticle particle]) ++ rest)
          by (rewrite <- app_assoc; reflexivity).
        rewrite IH by lia.
        rewrite <- app_assoc. reflexivity.
Qed.

Lemma by_length (P : list Particle.t -> Prop) :
  (forall particles,
     (forall shorter, (List.length shorter < List.length particles)%nat -> P shorter) ->
     P particles) ->
  forall particles, P particles.
Proof.
  intros Hstep particles.
  assert (H : forall n l, (List.length l < n)%nat -> P l).
  { induction n as [|n IH]; intros l Hl; [lia | ].
    apply Hstep. intros shorter Hs. apply IH. lia. }
  apply (H (S (List.length particles))). lia.
Qed.

Lemma agedParticles_length particles :
  (List.length (agedParticles particles) <= List.length particles)%nat.
Proof.
  induction particles as [particles IH] using by_length.
  destruct particles as [|p [|q rest]].
  - cbn. lia.
  - cbn [agedParticles]. destruct (Particle.life (ageParticle p) <=? 0); cbn; lia.
  - pose proof (IH rest ltac:(cbn; lia)) as H1.
    pose proof (IH (q :: rest) ltac:(cbn; lia)) as H2.
    change (agedParticles (p :: q :: rest))
      with (if Particle.life (ageParticle p) <=? 0
            then q :: agedParticles rest
            else ageParticle p :: agedParticles (q :: rest)).
    destruct (Particle.life (ageParticle p) <=? 0); cbn [List.length] in *; lia.
Qed.

Lemma agedParticles_expired particles :
  Forall (fun p => Particle.life p <= 1) particles ->
  agedParticles particles = everySecond particles.
Proof.
  induction particles as [particles IH] using by_length.
  intro Hall.
  destruct particles as [|p [|q rest]]; cbn [agedParticles everySecond].
  - reflexivity.
  - inversion Hall as [|? ? Hp _]; subst.
    replace (Particle.life (ageParticle p) <=? 0) with true
      by (symmetry; apply Z.leb_le; cbn; lia).
    reflexivity.
  - inversion Hall as [|? ? Hp Hrest]; subst.
    inversion Hrest as [|? ? _ Hrest']; subst.
    replace (Particle.life (ageParticle p) <=? 0) with true
      by (symmetry; apply Z.leb_le; cbn; lia).
    rewrite (IH rest) by (cbn; lia || exact Hrest'). reflexivity.
Qed.

Lemma everySecond_length particles :
  List.length (everySecond particles) = Nat.div2 (List.length particles).
Proof.
  induction particles as [particles IH] using by_length.
  destruct particles as [|p [|q rest]]; cbn [everySecond List.length Nat.div2];
    try reflexivity.
  rewrite (IH rest) by (cbn; lia). reflexivity.
Qed.

(** X17.  The pass over the particle list ages each particle it visits and
    removes it with [splice] when its life has run out; the removal shifts
    the next particle into the index just visited, so that particle is
    passed over in this frame.  The list never grows. *)
Theorem particle_pass_skips_after_removal particles :
  particlePass particles = agedParticles particles /\
  (List.length (particlePass particles) <= List.length particles)%nat /\
  (forall particle next rest,
     Particle.life particle <= 1 ->
     particlePass (particle :: next :: rest) = next :: particlePass rest) /\
  (forall particle rest,
     1 < Particle.life particle ->
     particlePass (particle :: rest) = ageParticle particle :: particlePass rest).
Proof.
  assert (H : forall l, particlePass l = agedParticles l).
  { intro l. unfold particlePass.
    exact (forEachParticle_agedParticles (List.length l) [] l (le_n _)). }
  split; [apply H | ].
  split; [rewrite H; apply agedParticles_length | ].
  split.
  - intros particle next rest Hl. rewrite !H. cbn [agedParticles].
    replace (Particle.life (ageParticle particle) <=? 0) with true
      by (symmetry; apply Z.leb_le; cbn; lia).
    reflexivity.
  - intros particle rest Hl. rewrite !H. cbn [agedParticles].
    replace (Particle.life (ageParticle particle) <=? 0) with false
      by (symmetry; apply Z.leb_gt; cbn; lia).
    reflexivity.
Qed.

(** X18.  Particles are created in bursts with the same life, so a burst runs
    out in one frame.  The pass of that frame removes only every other
    particle of it: the rest stays in the list, untouched, and half of it
    (rounded down) is still there after the pass. *)
Theorem expired_burst_is_only_halved particles :
  Forall (fun p => Particle.life p <= 1) particles ->
  particlePass particles = everySecond particles /\
  List.length (particlePass particles) = Nat.div2 (List.length particles).
Proof.
  intro Hall.
  assert (H : particlePass particles = everySecond particles).
  { unfold particlePass.
    rewrite <- (agedParticles_expired particles Hall).
    exact (forEachParticle_agedParticles (List.length particles) [] particles (le_n _)). }
  split; [exact H | ]. rewrite H. apply everySecond_length.
Qed.

(** Of a burst of 8 particles in their last frame, 4 are left after the
    pass. *)
Lemma expired_burst_is_only_halved_witness :
  List.length (particlePass (lastFrameBurst 8)) = 4%nat.
Proof.
  pose proof (expired_burst_is_only_halved (lastFrameBurst 8)
                ltac:(unfold lastFrameBurst; cbn [repeat];
                      repeat constructor; cbn; lia)) as H.
  destruct H as (_ & H). exact H.
Defined.

(** ** Clearing an obstacle (lines 301-339) *)



(** ** The spawners (lines 203-253) *)

Section Spawners.
Variable randomSource : nat -> Q.

Lemma Qfloor_unique (x : Q) (i : Z) :
  (inject_Z i <= x)%Q -> (x < inject_Z i + 1)%Q -> Qfloor x = i.
Proof.
  intros Hle Hlt.
  assert (H1 : i <= Qfloor x).
  { rewrite <- (Qfloor_Z i). apply Qfloor_resp_le. exact Hle. }
  assert (H2 : Qfloor x < i + 1).
  { rewrite Zlt_Qlt, inject_Z_plus. change (inject_Z 1) with 1%Q.
    apply Qle_lt_trans with x; [apply Qfloor_le | exact Hlt]. }
  lia.
Qed.

(** X20.  What the spawners make of their draws.  [spawnObstacle] draws
    twice: the first draw picks the colour, a draw r with
    i <= 5 r <= i + 0.999999 giving the i-th palette colour; the second
    picks the type, bonus below 0.1, tall from 0.1 to 0.25, normal from
    0.25 on.  [spawnPowerUp] draws once for a life item, below 0.05, and
    otherwise a second time, a draw s with i <= 3 s <= i + 0.999999 giving
    shield, bonus and jump boost for i = 0, 1, 2.  Both append one entity
    at the right edge of the canvas.  The draws within a millionth below a
    boundary of the fifths and thirds, where the product is rounded, are
    left out. *)
Theorem spawn_types_by_draw canvas w :
  let first := randomSource (World.draws w) in
  let second := randomSource (S (World.draws w)) in
  (let w' := spawnObstacle randomSource canvas w in
   exists color type,
     GameState.obstacles (World.gameState w') =
       GameState.obstacles (World.gameState w) ++
         [Obstacle.mk (Canvas.width canvas) color false type false] /\
     World.draws w' = S (S (World.draws w)) /\
     (forall i, 0 <= i < 5 ->
        (inject_Z i <= 5 * first)%Q -> (5 * first <= inject_Z i + 0.999999)%Q ->
        color = nth (Z.to_nat i) GAME_CONFIG.COLORS undefined) /\
     ((second < 0.1)%Q -> type = bonus) /\
     ((0.1 <= second)%Q -> (second < 0.25)%Q -> type = tall) /\
     ((0.25 <= second)%Q -> type = normal)) /\
  (let w' := spawnPowerUp randomSource canvas w in
   exists type,
     GameState.powerUps (World.gameState w') =
       GameState.powerUps (World.gameState w) ++
         [PowerUp.mk (Canvas.width canvas) 350 type false] /\
     ((first < 0.05)%Q -> type = lifeItem /\ World.draws w' = S (World.draws w)) /\
     ((0.05 <= first)%Q ->
        World.draws w' = S (S (World.draws w)) /\
        ((0 <= 3 * second)%Q -> (3 * second <= 0.999999)%Q -> type = shieldItem) /\
        ((1 <= 3 * second)%Q -> (3 * second <= 1.999999)%Q -> type = bonusItem) /\
        ((2 <= 3 * second)%Q -> (3 * second <= 2.999999)%Q -> type = jumpBoostItem))).
Proof.
  cbv zeta. split.
  - unfold spawnObstacle, Math_random. cbv zeta. world_simpl.
    eexists. eexists. split; [reflexivity | ]. split; [reflexivity | ].
    split; [ | split; [ | split]].
    + intros i Hi Hlo Hhi.
      change (inject_Z (Z.of_nat (List.length GAME_CONFIG.COLORS))) with 5%Q.
      rewrite (Qfloor_unique (randomSource (World.draws w) * 5) i) by lra.
      unfold array_get. replace (i <? 0) with false by (symmetry; apply Z.ltb_ge; lia).
      reflexivity.
    + intro H. apply Qlt_bool_iff in H. rewrite H. reflexivity.
    + intros H1 H2. apply Qlt_bool_false_iff in H1. apply Qlt_bool_iff in H2.
      rewrite H1, H2. reflexivity.
    + intro H.
      assert (H1 : (0.1 <= randomSource (S (World.draws w)))%Q) by lra.
      apply Qlt_bool_false_iff in H, H1. rewrite H, H1. reflexivity.
  - unfold spawnPowerUp, Math_random. cbv zeta. world_simpl.
    destruct (randomSource (World.draws w) <? GAME_CONFIG.POWERUP.LIFE_SPAWN_CHANCE)%Q
      eqn:Hlife; world_simpl.
    + apply Qlt_bool_iff in Hlife. unfold GAME_CONFIG.POWERUP.LIFE_SPAWN_CHANCE in Hlife.
      eexists. split; [reflexivity | ].
      split; [intros _; split; reflexivity | intro H; exfalso; lra].
    + apply Qlt_bool_false_iff in Hlife.
      unfold GAME_CONFIG.POWERUP.LIFE_SPAWN_CHANCE in Hlife.
      eexists. split; [reflexivity | ].
      split; [intro H; exfalso; lra | ].
      intros _. split; [reflexivity | ].
      split; [ | split]; intros Hlo Hhi.
      * rewrite (Qfloor_unique (randomSource (S (World.draws w)) * 3) 0)
          by (change (inject_Z 0) with 0%Q; lra).
        reflexivity.
      * rewrite (Qfloor_unique (randomSource (S (World.draws w)) * 3) 1)
          by (change (inject_Z 1) with 1%Q; lra).
        reflexivity.
      * rewrite (Qfloor_unique (randomSource (S (World.draws w)) * 3) 2)
          by (change (inject_Z 2) with 2%Q; lra).
        reflexivity.
Qed.

End Spawners.

(** ** Collecting a power-up (lines 342-348, 772, 842-858) *)

